(** * EV-charging booking platform: booking, payment, walk-in and distance logic

    A shallow embedding of the route handlers under [app/api] (payments
    initiate / verify / webhook, walk-in check-in, admin walk-in, admin
    stations, bookings) and of the geolocation helpers of [lib/utils].

    Conventions of the embedding:
    - The arithmetic of the handlers is IEEE 754 binary64 ([JS.number]):
      every operation rounds the exact rational result to the nearest
      binary64 value.  A finite number held in a document or in a JSON
      body is given by a rational and read through [JS.binary64].  Integer
      arithmetic that is exact in binary64 (time values, whole minutes) is
      written on [Z] and [Q].
    - The trigonometric code is over the reals [R]; where its result can be
      [NaN] in binary64 arithmetic, the loop over it is also given for a
      distance that may be [NaN].
    - A [Date] is its time value in whole milliseconds ([Z]).
    - The document store is a record of collections (lists of documents in
      insertion order); a handler is a function from the request, its
      environment and the store to a response and the new store.
    - A Mongo [ObjectId] is represented by its lower-case hex string; the
      [Mixed] id fields of a booking keep the tag of the value stored.
    - A call that throws lands in the handler's [catch]: the gateway calls,
      and the ObjectId cast of an id that is not 24 hex characters. *)

From Stdlib Require Import ZArith QArith Qround Qminmax Qabs Qreduction Qpower.
From Stdlib Require Import List String Ascii Bool.
From Stdlib Require Import DecimalString Lia Lqa Lra Reals.
Import ListNotations.

(* ================================================================== *)
(** * Part I. Definitions *)
(* ================================================================== *)

(** ** lib/utils: distances *)

Module Geo.
Local Open Scope R_scope.

(** [Math.atan2(y, x)] on real arguments. *)
Definition atan2 (y x : R) : R :=
  if Rlt_dec 0 x then atan (y / x)
  else if Rlt_dec x 0 then
    (if Rle_dec 0 y then atan (y / x) + PI else atan (y / x) - PI)
  else if Rlt_dec 0 y then PI / 2
  else if Rlt_dec y 0 then - (PI / 2)
  else 0.

(** Haversine distance in km between two lat/lng points. *)
Definition haversineDistance (lat1 lng1 lat2 lng2 : R) : R :=
  let R := 6371 in
  let dLat := ((lat2 - lat1) * PI) / 180 in
  let dLng := ((lng2 - lng1) * PI) / 180 in
  let a :=
    sin (dLat / 2) * sin (dLat / 2) +
    cos ((lat1 * PI) / 180) *
      cos ((lat2 * PI) / 180) *
      sin (dLng / 2) *
      sin (dLng / 2) in
  let c := 2 * atan2 (sqrt a) (sqrt (1 - a)) in
  R * c.

(** [x === y] on numbers. *)
Definition Reqb (x y : R) : bool := if Req_dec_T x y then true else false.

(** Point-to-line-segment distance in km. *)
Definition pointToSegmentDistance (px py ax ay bx by_ : R) : R :=
  let dx := bx - ax in
  let dy := by_ - ay in
  if Reqb dx 0 && Reqb dy 0 then haversineDistance px py ax ay
  else
    let t := ((px - ax) * dx + (py - ay) * dy) / (dx * dx + dy * dy) in
    let t := Rmax 0 (Rmin 1 t) in
    haversineDistance px py (ax + t * dx) (ay + t * dy).

(** A distance accumulator that starts at JavaScript's [Infinity]. *)
Inductive dist : Type :=
  | Finite (d : R)
  | Infinity.

(** [d < minDist] for a finite [d]. *)
Definition lt_dist (d : R) (minDist : dist) : bool :=
  match minDist with
  | Infinity => true
  | Finite m => if Rlt_dec d m then true else false
  end.

(** The [for] loop of [pointToRouteDistance]: [coords] is the part of the
    polyline from index [i] on, [minDist] the running minimum. *)
Fixpoint routeLoop (lat lng : R) (coords : list (R * R)) (minDist : dist)
  : dist :=
  match coords with
  | (aLng, aLat) :: (((bLng, bLat) :: _) as rest) =>
      let d := pointToSegmentDistance lat lng aLat aLng bLat bLng in
      routeLoop lat lng rest (if lt_dist d minDist then Finite d else minDist)
  | _ => minDist
  end.

(** Minimum distance from a point to any segment of a polyline of
    [[lng, lat]] pairs. *)
Definition pointToRouteDistance (lat lng : R) (routeCoords : list (R * R))
  : dist :=
  routeLoop lat lng routeCoords Infinity.

(** The distance to the segment from [routeCoords[i]] to
    [routeCoords[i + 1]]. *)
Definition segmentAt (lat lng : R) (routeCoords : list (R * R)) (i : nat) : R :=
  let '(aLng, aLat) := nth i routeCoords (0, 0) in
  let '(bLng, bLat) := nth (i + 1) routeCoords (0, 0) in
  pointToSegmentDistance lat lng aLat aLng bLat bLng.

(** [m <= d] where [m] may be [Infinity]. *)
Definition le_dist (m : dist) (d : R) : Prop :=
  match m with
  | Infinity => False
  | Finite x => x <= d
  end.

(** *** Segment distances that are [NaN]

    In binary64 arithmetic [pointToSegmentDistance] can return [NaN]: for
    an argument that is [NaN], and for nearly antipodal points, where
    rounding makes [a] exceed 1 and [Math.sqrt(1 - a)] is [NaN].  The
    comparison [d < minDist] is false for [NaN].  The loop is therefore
    also given over any computation of the segment distance:
    [distance a b] is what [pointToSegmentDistance] returns for the
    segment from [a] to [b], [None] standing for [NaN]. *)
Fixpoint routeLoopOn {C : Type} (distance : C -> C -> option R)
    (coords : list C) (minDist : dist) : dist :=
  match coords with
  | a :: ((b :: _) as rest) =>
      routeLoopOn distance rest
        (match distance a b with
         | Some d => if lt_dist d minDist then Finite d else minDist
         | None => minDist
         end)
  | _ => minDist
  end.

Definition pointToRouteDistanceOn {C : Type} (distance : C -> C -> option R)
    (routeCoords : list C) : dist :=
  routeLoopOn distance routeCoords Infinity.

(** The distance that the loop computes for the segment from
    [routeCoords[i]] to [routeCoords[i + 1]]. *)
Definition segmentOn {C : Type} (distance : C -> C -> option R)
    (routeCoords : list C) (i : nat) : option R :=
  match nth_error routeCoords i, nth_error routeCoords (i + 1) with
  | Some a, Some b => distance a b
  | _, _ => None
  end.

(** A coordinate that may be [NaN]. *)
Definition coordinate : Type := option R.

(** [pointToSegmentDistance] on coordinates that may be [NaN].  Every
    argument enters the arithmetic of [haversineDistance], and an
    operation on [NaN] gives [NaN], so the result is [NaN] as soon as one
    argument is; finite arguments are computed as above. *)
Definition pointToSegmentDistanceNaN (lat lng : coordinate)
    (a b : coordinate * coordinate) : option R :=
  match lat, lng, a, b with
  | Some lat, Some lng, (Some aLng, Some aLat), (Some bLng, Some bLat) =>
      Some (pointToSegmentDistance lat lng aLat aLng bLat bLng)
  | _, _, _, _ => None
  end.

End Geo.

(** ** JavaScript values and library calls used by the handlers *)

Module JS.

(** The result of a call that may throw. *)
Inductive outcome (A : Type) : Type :=
  | Returned (a : A)
  | Thrown (message : string).
Arguments Returned {A} a.
Arguments Thrown {A} message.

(** Truthiness of an optional string: [undefined] and [""] are falsy. *)
Definition truthy (s : option string) : bool :=
  match s with
  | Some s => negb (String.eqb s "")
  | None => false
  end.

(** [s || d] on optional strings. *)
Definition or_string (s : option string) (d : string) : string :=
  match s with
  | Some s => if String.eqb s "" then d else s
  | None => d
  end.

(** [a < b] on numbers. *)
Definition Qltb (a b : Q) : bool := negb (Qle_bool b a).

(** [Math.round]: the nearest integer, halves rounded up. *)
Definition Math_round (x : Q) : Z := Qfloor (x + (1 # 2)).

(** [new Date(t)] keeps the integral part of a time value (truncation
    towards zero). *)
Definition new_Date (t : Q) : Z :=
  if Qle_bool 0 t then Qfloor t else Qceiling t.

(** Decimal rendering of an integer, as in a template literal. *)
Definition decimal (z : Z) : string := NilZero.string_of_int (Z.to_int z).

Definition is_hex_digit (c : ascii) : bool :=
  let n := nat_of_ascii c in
  ((48 <=? n) && (n <=? 57) || (97 <=? n) && (n <=? 102)
   || (65 <=? n) && (n <=? 70))%nat.

Fixpoint all_chars (p : ascii -> bool) (s : string) : bool :=
  match s with
  | EmptyString => true
  | String c s' => p c && all_chars p s'
  end.

(** The regular expression [/^[a-f\d]{24}$/i]. *)
Definition hex24 (s : string) : bool :=
  (String.length s =? 24)%nat && all_chars is_hex_digit s.

Definition lower_char (c : ascii) : ascii :=
  let n := nat_of_ascii c in
  if ((65 <=? n) && (n <=? 90))%nat then ascii_of_nat (n + 32) else c.

Fixpoint toLowerCase (s : string) : string :=
  match s with
  | EmptyString => EmptyString
  | String c s' => String (lower_char c) (toLowerCase s')
  end.

(** *** Numbers: IEEE 754 binary64

    A number is [NaN], an infinity, or a finite value, given by its exact
    rational value.  An arithmetic operation computes the exact result and
    rounds it to the nearest binary64 value, ties to even ([binary64]).
    The sign of a zero is not kept: it shows only in a division by zero,
    and the handlers divide by constants. *)
Inductive number : Type :=
  | NaN
  | Inf (negative : bool)
  | Num (q : Q).

(** [floor (log2 (n / d))] *)
Definition ilog2 (n d : positive) : Z :=
  let k := (Z.log2 (Zpos n) - Z.log2 (Zpos d))%Z in
  if (if (0 <=? k)%Z then (Zpos n <? Zpos d * 2 ^ k)%Z
      else (Zpos n * 2 ^ (- k) <? Zpos d)%Z)
  then (k - 1)%Z else k.

(** [2 ^ e] for an integer [e] of either sign *)
Definition pow2 (e : Z) : Q := 2 ^ e.

(** The nearest integer, a tie going to the even one. *)
Definition nearest_even (x : Q) : Z :=
  let f := Qfloor x in
  match Qcompare (x - inject_Z f) (1 # 2) with
  | Lt => f
  | Gt => (f + 1)%Z
  | Eq => if Z.even f then f else (f + 1)%Z
  end.

(** Rounding of a positive rational: 53 significant bits, the least
    exponent -1074 (subnormal values), overflow at [2 ^ 1024]. *)
Definition round_pos (q : Q) : number :=
  let e := Z.max (ilog2 (Z.to_pos (Qnum q)) (Qden q) - 52) (-1074) in
  let m := nearest_even (q / pow2 e) in
  let v := Qred (inject_Z m * pow2 e) in
  if Qle_bool (pow2 1024) v then Inf false else Num v.

Definition opp (x : number) : number :=
  match x with
  | NaN => NaN
  | Inf s => Inf (negb s)
  | Num q => Num (Qred (- q))
  end.

(** The binary64 value nearest to a rational. *)
Definition binary64 (q : Q) : number :=
  match Qnum q with
  | Z0 => Num 0
  | Zpos _ => round_pos q
  | Zneg _ => opp (round_pos (- q))
  end.

(** [a + b] *)
Definition fadd (a b : number) : number :=
  match a, b with
  | NaN, _ => NaN
  | _, NaN => NaN
  | Inf s, Inf t => if Bool.eqb s t then Inf s else NaN
  | Inf s, Num _ => Inf s
  | Num _, Inf t => Inf t
  | Num p, Num q => binary64 (p + q)
  end.

(** [a * b] *)
Definition fmul (a b : number) : number :=
  match a, b with
  | NaN, _ => NaN
  | _, NaN => NaN
  | Inf s, Inf t => Inf (xorb s t)
  | Inf s, Num q =>
      if Qeq_bool q 0 then NaN else Inf (xorb s (Qltb q 0))
  | Num p, Inf t =>
      if Qeq_bool p 0 then NaN else Inf (xorb (Qltb p 0) t)
  | Num p, Num q => binary64 (p * q)
  end.

(** [a / b] *)
Definition fdiv (a b : number) : number :=
  match a, b with
  | NaN, _ => NaN
  | _, NaN => NaN
  | Inf _, Inf _ => NaN
  | Inf s, Num q => Inf (xorb s (Qltb q 0))
  | Num _, Inf _ => Num 0
  | Num p, Num q =>
      if Qeq_bool q 0 then
        if Qeq_bool p 0 then NaN else Inf (Qltb p 0)
      else binary64 (p / q)
  end.

(** A number that is not negative and not [NaN]. *)
Definition nonneg (x : number) : Prop :=
  match x with
  | NaN => False
  | Inf s => s = false
  | Num q => 0 <= q
  end.

(** Truthiness of a number: [NaN] and [0] are falsy. *)
Definition truthy_number (n : number) : bool :=
  match n with
  | NaN => false
  | Inf _ => true
  | Num q => negb (Qeq_bool q 0)
  end.

(** [n || d] on numbers. *)
Definition or_number (n d : number) : number :=
  if truthy_number n then n else d.

(** [a <= b] on numbers; a comparison with [NaN] is false. *)
Definition fle (a b : number) : bool :=
  match a, b with
  | NaN, _ => false
  | _, NaN => false
  | Inf true, _ => true
  | _, Inf false => true
  | Inf false, _ => false
  | _, Inf true => false
  | Num p, Num q => Qle_bool p q
  end.

(** [Math.max(a, b)] *)
Definition Math_max (a b : number) : number :=
  match a, b with
  | NaN, _ => NaN
  | _, NaN => NaN
  | _, _ => if fle a b then b else a
  end.

(** [Math.min(a, b)] *)
Definition Math_min (a b : number) : number :=
  match a, b with
  | NaN, _ => NaN
  | _, NaN => NaN
  | _, _ => if fle a b then a else b
  end.

(** [Math.round(x)] on a number: the nearest integer, halves rounded up;
    it is computed without a rounding error. *)
Definition Math_round_number (x : number) : number :=
  match x with
  | Num q => Num (inject_Z (Math_round q))
  | _ => x
  end.

(** The time value of [new Date(x)] for a number ([TimeClip]): the
    integral part of a finite [x] of magnitude at most 8.64e15, and
    nothing (an invalid date) otherwise. *)
Definition TimeClip (x : number) : option Z :=
  match x with
  | Num q =>
      let t := new_Date q in
      if (Z.abs t <=? 8640000000000000)%Z then Some t else None
  | _ => None
  end.

(** The value of a number that is finite. *)
Definition finite_value (x : number) : Q :=
  match x with
  | Num q => q
  | _ => 0
  end.

(** [d.getTime()] of a valid date. *)
Definition getTime (d : option Z) : Z :=
  match d with
  | Some t => t
  | None => 0%Z
  end.

(** *** [Number(text)]: the numeric value of a string

    Strings are UTF-8 texts.  Leading and trailing white space and line
    terminators are dropped; the empty text is 0; otherwise the text must
    be a decimal literal (optional sign, digits with an optional fraction
    and exponent, or [Infinity]) or an unsigned binary, octal or
    hexadecimal integer literal, and is [NaN] if it is not. *)

Definition bytes (l : list nat) : list ascii := map ascii_of_nat l.

(** WhiteSpace and LineTerminator code points, in UTF-8. *)
Definition StrWhiteSpaceChar : list (list ascii) :=
  map bytes
    [[9]; [10]; [11]; [12]; [13]; [32]; [194; 160]; [225; 154; 128];
     [226; 128; 128]; [226; 128; 129]; [226; 128; 130]; [226; 128; 131];
     [226; 128; 132]; [226; 128; 133]; [226; 128; 134]; [226; 128; 135];
     [226; 128; 136]; [226; 128; 137]; [226; 128; 138]; [226; 128; 168];
     [226; 128; 169]; [226; 128; 175]; [226; 129; 159]; [227; 128; 128];
     [239; 187; 191]]%nat.

Fixpoint strip_prefix (p l : list ascii) : option (list ascii) :=
  match p, l with
  | [], _ => Some l
  | a :: p', b :: l' => if Ascii.eqb a b then strip_prefix p' l' else None
  | _ :: _, [] => None
  end.

Fixpoint strip_any (ps : list (list ascii)) (l : list ascii)
  : option (list ascii) :=
  match ps with
  | [] => None
  | p :: ps' =>
      match strip_prefix p l with
      | Some r => Some r
      | None => strip_any ps' l
      end
  end.

Fixpoint trim_start (spaces : list (list ascii)) (fuel : nat)
    (l : list ascii) : list ascii :=
  match fuel with
  | O => l
  | S fuel' =>
      match strip_any spaces l with
      | Some r => trim_start spaces fuel' r
      | None => l
      end
  end.

Definition trim (l : list ascii) : list ascii :=
  let l := trim_start StrWhiteSpaceChar (List.length l) l in
  rev (trim_start (map (@rev ascii) StrWhiteSpaceChar) (List.length l)
         (rev l)).

Definition decimal_digit (c : ascii) : option Z :=
  let n := Z.of_nat (nat_of_ascii c) in
  if ((48 <=? n) && (n <=? 57))%Z then Some (n - 48)%Z else None.

Definition hex_digit (c : ascii) : option Z :=
  let n := Z.of_nat (nat_of_ascii c) in
  if ((48 <=? n) && (n <=? 57))%Z then Some (n - 48)%Z
  else if ((97 <=? n) && (n <=? 102))%Z then Some (n - 87)%Z
  else if ((65 <=? n) && (n <=? 70))%Z then Some (n - 55)%Z
  else None.

Definition octal_digit (c : ascii) : option Z :=
  let n := Z.of_nat (nat_of_ascii c) in
  if ((48 <=? n) && (n <=? 55))%Z then Some (n - 48)%Z else None.

Definition binary_digit (c : ascii) : option Z :=
  let n := Z.of_nat (nat_of_ascii c) in
  if ((48 <=? n) && (n <=? 49))%Z then Some (n - 48)%Z else None.

(** The longest run of digits at the start of a text, and the rest. *)
Fixpoint span (digit : ascii -> option Z) (l : list ascii)
  : list Z * list ascii :=
  match l with
  | [] => ([], [])
  | c :: l' =>
      match digit c with
      | Some d => let '(ds, r) := span digit l' in (d :: ds, r)
      | None => ([], l)
      end
  end.

Definition digits_value (base : Z) (ds : list Z) : Z :=
  fold_left (fun a d => (a * base + d)%Z) ds 0%Z.

(** [10 ^ e] for an integer [e] of either sign *)
Definition pow10 (e : Z) : Q := 10 ^ e.

(** The digits after [0x], [0o] or [0b], up to the end of the text. *)
Definition radix_literal (base : Z) (digit : ascii -> option Z)
    (l : list ascii) : number :=
  match span digit l with
  | (d :: ds, []) => binary64 (inject_Z (digits_value base (d :: ds)))
  | _ => NaN
  end.

(** An optional exponent part that ends the text. *)
Definition exponent_part (l : list ascii) : option Z :=
  match l with
  | [] => Some 0%Z
  | c :: l' =>
      if Ascii.eqb c "e" || Ascii.eqb c "E" then
        let '(neg, l'') :=
          match l' with
          | s :: r =>
              if Ascii.eqb s "+" then (false, r)
              else if Ascii.eqb s "-" then (true, r)
              else (false, l')
          | [] => (false, l')
          end in
        match span decimal_digit l'' with
        | (d :: ds, []) =>
            let e := digits_value 10 (d :: ds) in
            Some (if neg then (- e)%Z else e)
        | _ => None
        end
      else None
  end.

(** The exact value of an unsigned decimal literal that fills the text. *)
Definition unsigned_decimal (l : list ascii) : option Q :=
  let '(int, r) := span decimal_digit l in
  let '(frac, r) :=
    match r with
    | c :: r' => if Ascii.eqb c "." then span decimal_digit r' else ([], r)
    | [] => ([], r)
    end in
  match (int ++ frac)%list with
  | [] => None
  | ds =>
      match exponent_part r with
      | Some e =>
          Some (inject_Z (digits_value 10 ds)
                * pow10 (e - Z.of_nat (List.length frac)))
      | None => None
      end
  end.

Definition signed_decimal (neg : bool) (l : list ascii) : number :=
  if list_eq_dec Ascii.ascii_dec l (list_ascii_of_string "Infinity")
  then Inf neg
  else
    match unsigned_decimal l with
    | Some q => if neg then opp (binary64 q) else binary64 q
    | None => NaN
    end.

Definition StringToNumber (s : string) : number :=
  match trim (list_ascii_of_string s) with
  | [] => Num 0
  | c :: r =>
      if Ascii.eqb c "+" then signed_decimal false r
      else if Ascii.eqb c "-" then signed_decimal true r
      else
        match Ascii.eqb c "0", r with
        | true, x :: r' =>
            if Ascii.eqb x "x" || Ascii.eqb x "X" then
              radix_literal 16 hex_digit r'
            else if Ascii.eqb x "o" || Ascii.eqb x "O" then
              radix_literal 8 octal_digit r'
            else if Ascii.eqb x "b" || Ascii.eqb x "B" then
              radix_literal 2 binary_digit r'
            else signed_decimal false (c :: r)
        | _, _ => signed_decimal false (c :: r)
        end
  end.

(** *** Request fields read as numbers

    A field of a JSON body that a handler reads as a number: absent,
    [null], a boolean, a JSON number (by the exact value of its literal,
    which [JSON.parse] rounds to binary64), a text, or an array or object,
    given by the text that [String(value)] makes of it ([""] for [[]],
    ["90"] for [[90]], ["[object Object]"] for an object). *)
Inductive field : Type :=
  | Missing
  | NullField
  | BoolField (b : bool)
  | NumberField (q : Q)
  | TextField (s : string)
  | ObjectField (text : string).

(** [Number(f)]. *)
Definition Number (f : field) : number :=
  match f with
  | Missing => NaN
  | NullField => Num 0
  | BoolField b => if b then Num 1 else Num 0
  | NumberField q => binary64 q
  | TextField s => StringToNumber s
  | ObjectField text => StringToNumber text
  end.

(** Truthiness of a field: [undefined], [null], [false], [0] and the empty
    text are falsy; arrays and objects are truthy. *)
Definition truthy_field (f : field) : bool :=
  match f with
  | Missing => false
  | NullField => false
  | BoolField b => b
  | NumberField q => truthy_number (binary64 q)
  | TextField s => negb (String.eqb s "")
  | ObjectField _ => true
  end.

(** [parseInt(text, 10)]: white space at the start is dropped, then an
    optional sign and the longest run of decimal digits are read, whatever
    follows them; without a digit the result is [NaN]. *)
Definition parseInt (s : string) : number :=
  let l := list_ascii_of_string s in
  let l := trim_start StrWhiteSpaceChar (List.length l) l in
  let '(neg, l) :=
    match l with
    | c :: r =>
        if Ascii.eqb c "-" then (true, r)
        else if Ascii.eqb c "+" then (false, r)
        else (false, l)
    | [] => (false, l)
    end in
  match span decimal_digit l with
  | (d :: ds, _) =>
      let v := binary64 (inject_Z (digits_value 10 (d :: ds))) in
      if neg then opp v else v
  | ([], _) => NaN
  end.

(** A number that is an integer between 0 and 2^31 - 1. *)
Definition Int32 (x : number) : option Z :=
  match x with
  | Num q =>
      let z := Qfloor q in
      if Qeq_bool (inject_Z z) q && (0 <=? z)%Z && (z <=? 2147483647)%Z
      then Some z
      else None
  | _ => None
  end.


End JS.

(** ** The document store: lib/models *)

Module Store.
Import JS.

(** A value stored in a [Mixed] id path ([stationId], [portId] of a
    booking: [mongoose.Types.ObjectId | string]): an [ObjectId] (by its hex
    string) or a plain string.  A [Mixed] path is stored and queried as
    given, without a cast, and an ObjectId never equals a string in a
    query; the admin walk-in route therefore passes both forms
    ([$in: [portObjId, portId]]). *)
Inductive ident : Type :=
  | ObjectId (hex : string)
  | Str (s : string).

(** [String(id)]. *)
Definition toString (i : ident) : string :=
  match i with
  | ObjectId h => h
  | Str s => s
  end.

Definition ident_eqb (a b : ident) : bool :=
  match a, b with
  | ObjectId x, ObjectId y => String.eqb x y
  | Str x, Str y => String.eqb x y
  | _, _ => false
  end.

(** [mongoose.Types.ObjectId.isValid] on a string: 24 hex characters. *)
Definition ObjectId_isValid (s : string) : bool := hex24 s.

(** [new mongoose.Types.ObjectId(s)] for a valid [s], by its hex string. *)
Definition new_ObjectId (s : string) : string := toLowerCase s.

(** The cast that Mongoose applies to a value compared with an [ObjectId]
    path; a value that is not an ObjectId makes the query throw. *)
Definition castObjectId (i : ident) : outcome string :=
  match i with
  | ObjectId h => Returned h
  | Str s =>
      if ObjectId_isValid s then Returned (new_ObjectId s)
      else Thrown "Cast to ObjectId failed"
  end.

Inductive PortStatus : Type :=
  | available | occupied | maintenance | reserved.

Inductive BookingStatus : Type :=
  | pending | confirmed | active | completed | cancelled | no_show.

Inductive BookingSource : Type :=
  | online | walk_in_qr | walk_in_manual.

Inductive PaymentMethod : Type :=
  | khalti | cash | other.

Inductive Role : Type :=
  | role_user | role_admin | role_superadmin.

Definition PortStatus_eqb (a b : PortStatus) : bool :=
  match a, b with
  | available, available | occupied, occupied
  | maintenance, maintenance | reserved, reserved => true
  | _, _ => false
  end.

Definition BookingStatus_eqb (a b : BookingStatus) : bool :=
  match a, b with
  | pending, pending | confirmed, confirmed | active, active
  | completed, completed | cancelled, cancelled | no_show, no_show => true
  | _, _ => false
  end.

Definition BookingSource_eqb (a b : BookingSource) : bool :=
  match a, b with
  | online, online | walk_in_qr, walk_in_qr
  | walk_in_manual, walk_in_manual => true
  | _, _ => false
  end.

(** [list.includes(s)] on booking statuses. *)
Definition includes (l : list BookingStatus) (s : BookingStatus) : bool :=
  existsb (BookingStatus_eqb s) l.

(** The text of a port status, as interpolated in a message. *)
Definition PortStatus_text (s : PortStatus) : string :=
  match s with
  | available => "available"
  | occupied => "occupied"
  | maintenance => "maintenance"
  | reserved => "reserved"
  end.

Record LatLng : Type := { lat : Q; lng : Q }.

Record ETA : Type := { durationMinutes : Q; distanceKm : Q; updatedAt : Z }.

(** IChargingPort.  [p_id] is absent on the ports of file-based stations. *)
Record ChargingPort : Type := {
  p_id : option string;
  portNumber : string;
  connectorType : string;
  p_status : PortStatus;
  currentBookingId : option string
}.

(** IStationDocument, with the fields the handlers read.  [pricing] is
    [pricing.perHour] of the document as the handlers see it: a finite
    number, or nothing when the stored value is [null] or, for a station
    loaded from the file, absent.  A document stored without a price
    carries the schema default 0. *)
Record Station : Type := {
  s_id : string;
  name : string;
  adminId : option string;
  coordinates : option LatLng;
  chargingPorts : list ChargingPort;
  pricing : option Q
}.

(** IBookingDocument. *)
Record Booking : Type := {
  b_id : string;
  userId : string;
  userName : string;
  userEmail : string;
  stationId : ident;
  portId : ident;
  startTime : Z;
  estimatedDuration : Q;
  endTime : Z;
  status : BookingStatus;
  source : BookingSource;
  qrCode : option string;
  userLocation : option LatLng;
  eta : option ETA;
  khaltiPidx : option string;
  amountPaid : number;
  paymentMethod : PaymentMethod;
  customerName : string;
  customerPhone : string;
  vehicleNumber : string;
  vehicleType : string;
  notes : string
}.

Record User : Type := {
  clerkId : string;
  email : string;
  u_name : string;
  role : Role;
  phone : option string
}.

(** The collections. *)
Record DB : Type := {
  Stations : list Station;
  Bookings : list Booking;
  Users : list User
}.

Definition with_Bookings (db : DB) (bs : list Booking) : DB :=
  {| Stations := Stations db; Bookings := bs; Users := Users db |}.

Definition with_Stations (db : DB) (ss : list Station) : DB :=
  {| Stations := ss; Bookings := Bookings db; Users := Users db |}.

Definition with_Users (db : DB) (us : list User) : DB :=
  {| Stations := Stations db; Bookings := Bookings db; Users := us |}.

(** A booking document with the schema defaults for the optional paths. *)
Definition Booking_new (id uid uname uemail : string) (sid pid : ident)
    (start : Z) (duration : Q) (end_ : Z) : Booking :=
  {| b_id := id; userId := uid; userName := uname; userEmail := uemail;
     stationId := sid; portId := pid; startTime := start;
     estimatedDuration := duration; endTime := end_;
     status := pending; source := online; qrCode := None;
     userLocation := None; eta := None; khaltiPidx := None;
     amountPaid := Num 0; paymentMethod := khalti; customerName := "";
     customerPhone := ""; vehicleNumber := ""; vehicleType := "";
     notes := "" |}.

Definition set_status (b : Booking) (s : BookingStatus) : Booking :=
  {| b_id := b_id b; userId := userId b; userName := userName b;
     userEmail := userEmail b; stationId := stationId b; portId := portId b;
     startTime := startTime b; estimatedDuration := estimatedDuration b;
     endTime := endTime b; status := s; source := source b;
     qrCode := qrCode b; userLocation := userLocation b; eta := eta b;
     khaltiPidx := khaltiPidx b; amountPaid := amountPaid b;
     paymentMethod := paymentMethod b; customerName := customerName b;
     customerPhone := customerPhone b; vehicleNumber := vehicleNumber b;
     vehicleType := vehicleType b; notes := notes b |}.

(** The walk-in paths of a booking document. *)
Definition set_walk_in (b : Booking) (s : BookingStatus) (src : BookingSource)
    (amount : number) (cname cphone vnumber vtype : string) : Booking :=
  {| b_id := b_id b; userId := userId b; userName := userName b;
     userEmail := userEmail b; stationId := stationId b; portId := portId b;
     startTime := startTime b; estimatedDuration := estimatedDuration b;
     endTime := endTime b; status := s; source := src;
     qrCode := qrCode b; userLocation := userLocation b; eta := eta b;
     khaltiPidx := khaltiPidx b; amountPaid := amount;
     paymentMethod := cash; customerName := cname;
     customerPhone := cphone; vehicleNumber := vnumber;
     vehicleType := vtype; notes := notes b |}.

Definition set_notes_method (b : Booking) (m : PaymentMethod) (n : string)
  : Booking :=
  {| b_id := b_id b; userId := userId b; userName := userName b;
     userEmail := userEmail b; stationId := stationId b; portId := portId b;
     startTime := startTime b; estimatedDuration := estimatedDuration b;
     endTime := endTime b; status := status b; source := source b;
     qrCode := qrCode b; userLocation := userLocation b; eta := eta b;
     khaltiPidx := khaltiPidx b; amountPaid := amountPaid b;
     paymentMethod := m; customerName := customerName b;
     customerPhone := customerPhone b; vehicleNumber := vehicleNumber b;
     vehicleType := vehicleType b; notes := n |}.

(** The paths that the stop action assigns. *)
Definition set_completed (b : Booking) (end_ : Z) (duration : Q)
    (amount : number)
  : Booking :=
  {| b_id := b_id b; userId := userId b; userName := userName b;
     userEmail := userEmail b; stationId := stationId b; portId := portId b;
     startTime := startTime b; estimatedDuration := duration;
     endTime := end_; status := completed; source := source b;
     qrCode := qrCode b; userLocation := userLocation b; eta := eta b;
     khaltiPidx := khaltiPidx b; amountPaid := amount;
     paymentMethod := paymentMethod b; customerName := customerName b;
     customerPhone := customerPhone b; vehicleNumber := vehicleNumber b;
     vehicleType := vehicleType b; notes := notes b |}.

Definition set_location_eta (b : Booking) (loc : option LatLng)
    (e : option ETA) : Booking :=
  {| b_id := b_id b; userId := userId b; userName := userName b;
     userEmail := userEmail b; stationId := stationId b; portId := portId b;
     startTime := startTime b; estimatedDuration := estimatedDuration b;
     endTime := endTime b; status := status b; source := source b;
     qrCode := qrCode b; userLocation := loc; eta := e;
     khaltiPidx := khaltiPidx b; amountPaid := amountPaid b;
     paymentMethod := paymentMethod b; customerName := customerName b;
     customerPhone := customerPhone b; vehicleNumber := vehicleNumber b;
     vehicleType := vehicleType b; notes := notes b |}.

Definition set_qrCode (b : Booking) (qr : string) : Booking :=
  {| b_id := b_id b; userId := userId b; userName := userName b;
     userEmail := userEmail b; stationId := stationId b; portId := portId b;
     startTime := startTime b; estimatedDuration := estimatedDuration b;
     endTime := endTime b; status := status b; source := source b;
     qrCode := Some qr; userLocation := userLocation b; eta := eta b;
     khaltiPidx := khaltiPidx b; amountPaid := amountPaid b;
     paymentMethod := paymentMethod b; customerName := customerName b;
     customerPhone := customerPhone b; vehicleNumber := vehicleNumber b;
     vehicleType := vehicleType b; notes := notes b |}.

Definition set_payment (b : Booking) (pidx : string) (amount : number)
  : Booking :=
  {| b_id := b_id b; userId := userId b; userName := userName b;
     userEmail := userEmail b; stationId := stationId b; portId := portId b;
     startTime := startTime b; estimatedDuration := estimatedDuration b;
     endTime := endTime b; status := status b; source := source b;
     qrCode := qrCode b; userLocation := userLocation b; eta := eta b;
     khaltiPidx := Some pidx; amountPaid := amount;
     paymentMethod := paymentMethod b; customerName := customerName b;
     customerPhone := customerPhone b; vehicleNumber := vehicleNumber b;
     vehicleType := vehicleType b; notes := notes b |}.

Definition set_port (p : ChargingPort) (s : PortStatus)
    (cur : option string) : ChargingPort :=
  {| p_id := p_id p; portNumber := portNumber p;
     connectorType := connectorType p; p_status := s;
     currentBookingId := cur |}.

Definition set_chargingPorts (s : Station) (ps : list ChargingPort) : Station :=
  {| s_id := s_id s; name := name s; adminId := adminId s;
     coordinates := coordinates s; chargingPorts := ps;
     pricing := pricing s |}.

(** Replace the first element that passes [test]. *)
Fixpoint update_first {A : Type} (test : A -> bool) (f : A -> A)
    (l : list A) : list A :=
  match l with
  | [] => []
  | x :: l' => if test x then f x :: l' else x :: update_first test f l'
  end.

(** [Model.findById] on a string: the id is cast to an ObjectId first. *)
Definition Station_findById (db : DB) (id : string)
  : outcome (option Station) :=
  match castObjectId (Str id) with
  | Thrown m => Thrown m
  | Returned h => Returned (find (fun s => String.eqb (s_id s) h) (Stations db))
  end.

(** The stored booking with a given [_id]. *)
Definition storedBooking (db : DB) (h : string) : option Booking :=
  find (fun b => String.eqb (b_id b) h) (Bookings db).

Definition Booking_findById (db : DB) (id : string)
  : outcome (option Booking) :=
  match castObjectId (Str id) with
  | Thrown m => Thrown m
  | Returned h => Returned (storedBooking db h)
  end.

Definition User_findOne (db : DB) (clerk : string) : option User :=
  find (fun u => String.eqb (clerkId u) clerk) (Users db).

(** [Booking.create]. *)
Definition Booking_create (db : DB) (b : Booking) : DB :=
  with_Bookings db (Bookings db ++ [b]).

(** [booking.save()]: the stored document with this [_id] is replaced. *)
Definition Booking_save (db : DB) (b : Booking) : DB :=
  with_Bookings db
    (update_first (fun x => String.eqb (b_id x) (b_id b)) (fun _ => b)
       (Bookings db)).

(** The port part of an update filter. *)
Inductive PortFilter : Type :=
  | ByPortId (oid : string)          (* "chargingPorts._id" *)
  | ByPortNumber (number : string).  (* "chargingPorts.portNumber" *)

Definition port_matches (f : PortFilter) (p : ChargingPort) : bool :=
  match f with
  | ByPortId oid =>
      match p_id p with
      | Some h => String.eqb h oid
      | None => false
      end
  | ByPortNumber n => String.eqb (portNumber p) n
  end.

Definition station_matches (sid : string) (f : PortFilter) (s : Station)
  : bool :=
  String.eqb (s_id s) sid && existsb (port_matches f) (chargingPorts s).

(** [Station.updateOne({ _id, <port filter> }, { $set: "chargingPorts.$" })]:
    in the first station that matches, the first matching port is updated. *)
Definition Station_updateOne (db : DB) (sid : string) (f : PortFilter)
    (upd : ChargingPort -> ChargingPort) : DB :=
  with_Stations db
    (update_first (station_matches sid f)
       (fun s =>
          set_chargingPorts s
            (update_first (port_matches f) upd (chargingPorts s)))
       (Stations db)).

(** The port that such an update selects, if any. *)
Definition selectedPort (db : DB) (sid : string) (f : PortFilter)
  : option ChargingPort :=
  match find (station_matches sid f) (Stations db) with
  | Some s => find (port_matches f) (chargingPorts s)
  | None => None
  end.

(** The port of station [sid] whose [_id] or number is [pid]. *)
Definition portOf (db : DB) (sid pid : string) : option ChargingPort :=
  match find (fun s => String.eqb (s_id s) sid) (Stations db) with
  | Some s =>
      find (fun p => match p_id p with
                     | Some h => String.eqb h pid
                     | None => false
                     end || String.eqb (portNumber p) pid)
           (chargingPorts s)
  | None => None
  end.

(** The body of a JSON response. *)
Inductive Body : Type :=
  | Error (message : string)
  | Initiated (bookingId payment_url pidx : string) (amount : number)
  | Verified (verified : bool) (gateway_status : string)
             (booking : option Booking)
  | CheckedIn (booking : Booking) (stationName port : string)
              (amount : number)
  | Started (booking : Booking)
  | Stopped (booking : Booking) (amount : number) (durationMins : Z)
  | Logged (booking : Booking)
  | StationBody (station : Station)
  | StationList (stations : list Station)
  | BookingBody (booking : Booking)
  | BookingList (bookings : list Booking).

Record Response : Type := { code : Z; body : Body }.

Definition json (b : Body) (status_code : Z) : Response :=
  {| code := status_code; body := b |}.

End Store.

(** ** What a handler reads besides the request body and the store *)

Module Env.
Import JS Store.

(** The Clerk profile returned by [currentUser()]; [displayName] is the
    trimmed text of [firstName lastName]. *)
Record ClerkUser : Type := {
  emailAddress : option string;
  displayName : string
}.

Record QRData : Type := {
  qr_bookingId : string;
  qr_stationId : string;
  qr_portId : string;
  qr_startTime : Z;
  qr_endTime : Z
}.

Record KhaltiInitiateRequest : Type := {
  return_url : string;
  website_url : string;
  amount : number;
  purchase_order_id : string;
  purchase_order_name : string;
  customer_name : string;
  customer_email : string;
  customer_phone : option string;
  merchant_station_id : string;
  merchant_port_id : string
}.

Record KhaltiInitiateResponse : Type := {
  pidx : string;
  payment_url : string
}.

Record Env : Type := {
  (** [auth()]: the signed-in Clerk user id *)
  auth_userId : option string;
  currentUser : option ClerkUser;
  (** [process.env] *)
  KHALTI_SECRET_KEY : option string;
  NEXT_PUBLIC_APP_URL : option string;
  (** [Date.now()] in milliseconds *)
  now : Z;
  (** the [_id] that the driver gives to the document created next *)
  newObjectId : string;
  (** lib/stations *)
  loadStationFromFile : string -> option Station;
  loadAllStationsFromFile : list Station;
  (** lib/eta *)
  calculateETA : LatLng -> LatLng -> option ETA;
  getStationCoordinates : string -> option LatLng;
  (** qrcode *)
  QRCode_toDataURL : QRData -> string;
  (** lib/khalti *)
  khaltiInitiate : KhaltiInitiateRequest -> outcome KhaltiInitiateResponse;
  khaltiLookup : string -> outcome string;
  (** what the driver makes of a query with [.skip(skip).limit(limit)] when
      one of the two is not an integer between 0 and 2^31 - 1: an error, or
      the documents it returns *)
  find_skip_limit : number -> number -> outcome (list Booking)
}.

(** A non-empty string, or nothing: what passes an [if (!x)] guard. *)
Definition present (s : option string) : option string :=
  match s with
  | Some s => if String.eqb s "" then None else Some s
  | None => None
  end.

(** [loc?.lat && loc?.lng]. *)
Definition has_lat_lng (loc : option LatLng) : option LatLng :=
  match loc with
  | Some l =>
      if Qeq_bool (lat l) 0 || Qeq_bool (lng l) 0 then None else Some l
  | None => None
  end.

End Env.

(** ** app/api/payments/initiate/route.ts *)

Module PaymentsInitiate.
Import JS Store Env.
Local Open Scope string_scope.

Record Request : Type := {
  req_stationId : option string;
  req_portId : option string;
  (** the time value of [new Date(startTime)] *)
  req_startTime : option Z;
  req_estimatedDuration : field;
  req_userLocation : option LatLng
}.

(** [User.findOne], falling back to the Clerk profile and creating the
    user document.  [User.create] validates the document: [clerkId],
    [email] and [name] are required, and a required string must not be
    empty.  The handler passes [""] for a profile without an e-mail
    address, so the creation throws there; [clerkId] and [name] are never
    empty at this point. *)
Definition resolveUser (env : Env) (userId : string) (db : DB)
  : outcome (option (User * DB)) :=
  match User_findOne db userId with
  | Some u => Returned (Some (u, db))
  | None =>
      match currentUser env with
      | None => Returned None
      | Some clerkUser =>
          let u := {| clerkId := userId;
                      email := or_string (emailAddress clerkUser) "";
                      u_name := or_string (Some (displayName clerkUser)) "User";
                      role := role_user;
                      phone := None |} in
          if String.eqb (email u) "" then
            Thrown "User validation failed: email: Path `email` is required."
          else Returned (Some (u, with_Users db (Users db ++ [u])))
      end
  end.

(** [station.chargingPorts?.find(p => String(p._id || p.portNumber) === portId)] *)
Definition findPort (station : Station) (portId : string)
  : option ChargingPort :=
  find (fun p => String.eqb (or_string (p_id p) (portNumber p)) portId)
       (chargingPorts station).

(** [String(port._id || port.portNumber || portId)] *)
Definition canonicalPortId (port : ChargingPort) (portId : string) : string :=
  or_string (p_id port) (or_string (Some (portNumber port)) portId).

(** [station.pricing?.perHour ?? 200] *)
Definition perHourNPR (station : Station) : number :=
  match pricing station with
  | Some q => binary64 q
  | None => Num 200
  end.

(** The filter of the overlap query. *)
Definition overlaps (stationId canonical : string) (start end_ : Z)
    (b : Booking) : bool :=
  ident_eqb (Store.stationId b) (Str stationId)
  && ident_eqb (portId b) (Str canonical)
  && includes [pending; confirmed; active] (status b)
  && (startTime b <? end_)%Z
  && (endTime b >? start)%Z.

(** The transaction: the overlap query, then the insertion of the pending
    booking.  On a conflict it is aborted and the store is unchanged. *)
Definition transaction (env : Env) (user : User) (userId stationId canonical : string)
    (start : Z) (durationMinutes : Q) (end_ : Z) (db : DB)
  : option Booking * DB :=
  match find (overlaps stationId canonical start end_) (Bookings db) with
  | Some _ => (None, db)
  | None =>
      let booking :=
        Booking_new (newObjectId env) userId (u_name user) (email user)
          (Str stationId) (Str canonical) start durationMinutes end_ in
      (Some booking, Booking_create db booking)
  end.

(** The [catch] of the handler. *)
Definition caught (message : string) : Response :=
  json (Error (if String.eqb message "" then "Failed to initiate payment"
               else message)) 500.

(** What the handler has established when it opens the transaction. *)
Record Checked : Type := {
  c_userId : string;
  c_user : User;
  c_stationId : string;
  c_portId : string;
  c_station : Station;
  c_port : ChargingPort;
  c_canonical : string;
  c_durationMinutes : Q;
  c_totalAmountNPR : number;
  c_totalAmountPaisa : number;
  c_start : Z;
  c_end : Z
}.

(** The request sent to the gateway. *)
Definition khaltiRequest (env : Env) (c : Checked) (bookingId : string)
  : KhaltiInitiateRequest :=
  let origin := or_string (NEXT_PUBLIC_APP_URL env) "http://localhost:3000" in
  let returnUrl := origin ++ "/booking/confirmation/" ++ bookingId in
  {| return_url := returnUrl; website_url := origin;
     amount := c_totalAmountPaisa c;
     purchase_order_id := bookingId;
     purchase_order_name := "Charging – " ++ name (c_station c);
     customer_name := u_name (c_user c);
     customer_email := email (c_user c);
     customer_phone := present (phone (c_user c));
     merchant_station_id := c_stationId c;
     merchant_port_id := c_portId c |}.

(** Everything after the commit: ETA, QR code, gateway call, save. *)
Definition afterCommit (env : Env) (req : Request) (c : Checked)
    (booking : Booking) (db : DB) : Response * DB :=
  let booking :=
    match has_lat_lng (req_userLocation req) with
    | Some userLocation =>
        match has_lat_lng (coordinates (c_station c)) with
        | Some stationCoords =>
            match calculateETA env userLocation stationCoords with
            | Some e => set_location_eta booking (Some userLocation) (Some e)
            | None => booking
            end
        | None => booking
        end
    | None => booking
    end in
  let qrData := {| qr_bookingId := b_id booking;
                   qr_stationId := c_stationId c;
                   qr_portId := c_canonical c; qr_startTime := c_start c;
                   qr_endTime := c_end c |} in
  let booking := set_qrCode booking (QRCode_toDataURL env qrData) in
  match khaltiInitiate env (khaltiRequest env c (b_id booking)) with
  | Thrown m => (caught m, db)
  | Returned khaltiRes =>
      let booking :=
        set_payment booking (pidx khaltiRes) (c_totalAmountNPR c) in
      (json (Initiated (b_id booking) (payment_url khaltiRes)
               (pidx khaltiRes) (c_totalAmountNPR c)) 200,
       Booking_save db booking)
  end.

(** The handler up to the transaction: authentication, user, validation,
    gateway configuration, station, port, amounts and times. *)
Definition checks (env : Env) (req : Request) (db : DB)
  : (Response + Checked) * DB :=
  match present (auth_userId env) with
  | None => (inl (json (Error "Unauthorized") 401), db)
  | Some userId =>
  match resolveUser env userId db with
  | Thrown m => (inl (caught m), db)
  | Returned None => (inl (json (Error "User not found") 404), db)
  | Returned (Some (user, db)) =>
  match present (req_stationId req), present (req_portId req),
        req_startTime req, truthy_field (req_estimatedDuration req) with
  | Some stationId, Some portId, Some startTime, true =>
      if negb (truthy (KHALTI_SECRET_KEY env)) then
        (inl (json (Error "Payment gateway is not configured. Please contact the administrator.") 503), db)
      else
      let isFileBased := String.prefix "station-" stationId in
      match (if isFileBased then Returned (loadStationFromFile env stationId)
             else Station_findById db stationId) with
      | Thrown m => (inl (caught m), db)
      | Returned None => (inl (json (Error "Station not found") 404), db)
      | Returned (Some station) =>
      match findPort station portId with
      | None => (inl (json (Error "Port not found") 404), db)
      | Some port =>
          let canonical := canonicalPortId port portId in
          let durationMinutes := Number (req_estimatedDuration req) in
          let totalAmountNPR :=
            Math_round_number
              (fmul (perHourNPR station) (fdiv durationMinutes (Num 60))) in
          let totalAmountPaisa :=
            Math_round_number (fmul totalAmountNPR (Num 100)) in
          let start := startTime in
          let end_ :=
            TimeClip
              (fadd (Num (inject_Z start))
                 (fmul (fmul durationMinutes (Num 60)) (Num 1000))) in
          (* an invalid end date (a duration that is not a finite number,
             or a sum out of the range of Date) cannot be cast by
             the overlap query, whose error lands in the catch; its
             message is the driver's *)
          match durationMinutes, end_ with
          | Num d, Some end_ =>
              (inr {| c_userId := userId; c_user := user;
                      c_stationId := stationId; c_portId := portId;
                      c_station := station; c_port := port;
                      c_canonical := canonical;
                      c_durationMinutes := d;
                      c_totalAmountNPR := totalAmountNPR;
                      c_totalAmountPaisa := totalAmountPaisa;
                      c_start := start; c_end := end_ |}, db)
          | _, _ => (inl (caught "Cast to date failed"), db)
          end
      end
      end
  | _, _, _, _ =>
      (inl (json (Error "stationId, portId, startTime, and estimatedDuration are required") 400), db)
  end
  end
  end.

Definition POST (env : Env) (req : Request) (db : DB) : Response * DB :=
  match checks env req db with
  | (inl response, db) => (response, db)
  | (inr c, db) =>
      match transaction env (c_user c) (c_userId c) (c_stationId c)
              (c_canonical c) (c_start c) (c_durationMinutes c) (c_end c) db
      with
      | (None, db) =>
          (json (Error "Time slot is not available for this port") 409, db)
      | (Some booking, db) => afterCommit env req c booking db
      end
  end.

(** An existing booking that blocks the requested slot: same station and
    port as the query names them, a status that holds the port, and an
    interval that overlaps [[start, end)]. *)
Definition blocking (stationId canonical : string) (start end_ : Z)
    (b : Booking) : Prop :=
  Store.stationId b = Str stationId /\
  portId b = Str canonical /\
  In (status b) [pending; confirmed; active] /\
  (startTime b < end_)%Z /\ (endTime b > start)%Z.

End PaymentsInitiate.

(** ** app/api/payments/verify/route.ts *)

Module PaymentsVerify.
Import JS Store Env.
Local Open Scope string_scope.

Record Request : Type := {
  req_pidx : option string;
  req_bookingId : option string
}.

Definition caught : Response := json (Error "Failed to verify payment") 500.

(** The port filter of the reservation update. *)
Definition portFilter (booking : Booking) : outcome PortFilter :=
  let isOid := hex24 (toString (portId booking)) in
  if isOid then
    match castObjectId (portId booking) with
    | Returned h => Returned (ByPortId h)
    | Thrown m => Thrown m
    end
  else Returned (ByPortNumber (toString (portId booking))).

(** The branch for a payment that the gateway reports as completed. *)
Definition confirmBooking (booking : Booking) (db : DB) : Response * DB :=
  let booking := set_status booking confirmed in
  let db := Booking_save db booking in
  match castObjectId (stationId booking), portFilter booking with
  | Returned sid, Returned f =>
      (json (Verified true "Completed" (Some booking)) 200,
       Station_updateOne db sid f
         (fun p => set_port p reserved (Some (b_id booking))))
  | _, _ => (caught, db)
  end.

Definition cancelBooking (lookup_status : string) (booking : Booking)
    (db : DB) : Response * DB :=
  let booking := set_status booking cancelled in
  (json (Verified false lookup_status None) 200, Booking_save db booking).

(** The handler up to the status mapping: authentication, validation,
    gateway configuration, gateway lookup, booking and ownership.  It yields
    the gateway status and the booking. *)
Definition checks (env : Env) (req : Request) (db : DB)
  : Response + (string * Booking) :=
  match present (auth_userId env) with
  | None => inl (json (Error "Unauthorized") 401)
  | Some userId =>
  match present (req_pidx req), present (req_bookingId req) with
  | Some pidx, Some bookingId =>
      if negb (truthy (KHALTI_SECRET_KEY env)) then
        inl (json (Error "Payment gateway is not configured.") 503)
      else
      match khaltiLookup env pidx with
      | Thrown _ => inl caught
      | Returned lookup_status =>
      match Booking_findById db bookingId with
      | Thrown _ => inl caught
      | Returned None => inl (json (Error "Booking not found") 404)
      | Returned (Some booking) =>
          if negb (String.eqb (Store.userId booking) userId) then
            inl (json (Error "Forbidden") 403)
          else inr (lookup_status, booking)
      end
      end
  | _, _ => inl (json (Error "pidx and bookingId are required") 400)
  end
  end.

Definition POST (env : Env) (req : Request) (db : DB) : Response * DB :=
  match checks env req db with
  | inl response => (response, db)
  | inr (lookup_status, booking) =>
      if includes [confirmed; active; completed] (status booking) then
        (json (Verified true "Completed" (Some booking)) 200, db)
      else if String.eqb lookup_status "Completed" then
        confirmBooking booking db
      else if String.eqb lookup_status "User canceled"
              || String.eqb lookup_status "Expired" then
        cancelBooking lookup_status booking db
      else if String.eqb lookup_status "Refunded"
              || String.eqb lookup_status "Partially refunded" then
        cancelBooking lookup_status booking db
      else
        (json (Verified false lookup_status None) 200, db)
  end.

End PaymentsVerify.

(** ** app/api/payments/webhook/route.ts and the Stripe payment-intent route *)

Module StripeWebhook.
Import Store.
Local Open Scope string_scope.

Definition POST : Response :=
  json (Error "Stripe webhook is deprecated. Payment system has been consolidated to Khalti. See /api/payments/verify") 410.

End StripeWebhook.

Module StripeCreateIntent.
Import Store.
Local Open Scope string_scope.

Definition POST : Response :=
  json (Error "Stripe payment integration is deprecated. Use POST /api/payments/initiate for Khalti payments instead.") 410.

End StripeCreateIntent.

(** ** app/api/walk-in/checkin/route.ts: public QR check-in *)

Module WalkInCheckin.
Import JS Store Env.
Local Open Scope string_scope.

Record Request : Type := {
  req_stationId : option string;
  req_portId : option string;
  req_customerName : option string;
  req_customerPhone : option string;
  req_vehicleNumber : option string;
  req_vehicleType : option string;
  req_estimatedDuration : field
}.

(** [String(p._id)]; an absent [_id] prints as ["undefined"]. *)
Definition String_p_id (p : ChargingPort) : string :=
  match p_id p with
  | Some h => h
  | None => "undefined"
  end.

(** [station.chargingPorts.find(p => String(p._id) === portId || p.portNumber === portId)] *)
Definition findPort (station : Station) (portId : string)
  : option ChargingPort :=
  find (fun p => String.eqb (String_p_id p) portId
                 || String.eqb (portNumber p) portId)
       (chargingPorts station).

(** [Math.max(30, Math.min(Number(estimatedDuration) || 60, 480))] *)
Definition duration (estimatedDuration : field) : number :=
  Math_max (Num 30)
    (Math_min (or_number (Number estimatedDuration) (Num 60)) (Num 480)).

(** [station.pricing?.perHour ?? 200] *)
Definition perHour (station : Station) : number :=
  match pricing station with
  | Some q => binary64 q
  | None => Num 200
  end.

(** [Math.round((duration / 60) * perHour)] *)
Definition amount (station : Station) (d : number) : number :=
  Math_round_number (fmul (fdiv d (Num 60)) (perHour station)).

(** The document passed to [Booking.create].  The duration is a finite
    number between 30 and 480, and the clock is a time value far from the
    end of the range of [Date], so the end is a valid date. *)
Definition newBooking (env : Env) (req : Request) (station : Station)
    (port : ChargingPort) (customerName customerPhone : string) : Booking :=
  let d := duration (req_estimatedDuration req) in
  let start := now env in
  let end_ :=
    getTime (TimeClip (fadd (Num (inject_Z start)) (fmul d (Num 60000)))) in
  set_walk_in
    (Booking_new (newObjectId env) ("walk-in-qr-" ++ decimal (now env))
       customerName "" (Str (s_id station))
       (Str (or_string (p_id port) (portNumber port))) start
       (finite_value d) end_)
    active walk_in_qr (amount station d)
    customerName customerPhone
    (or_string (req_vehicleNumber req) "")
    (or_string (req_vehicleType req) "").

(** Mark the port occupied.  Mongoose gives every stored port an [_id];
    without one the filter selects nothing. *)
Definition markOccupied (station : Station) (port : ChargingPort)
    (booking : Booking) (db : DB) : DB :=
  match p_id port with
  | Some h =>
      Station_updateOne db (s_id station) (ByPortId h)
        (fun p => set_port p occupied (Some (b_id booking)))
  | None => db
  end.

(** The handler up to the availability test: validation, station, port. *)
Definition locate (env : Env) (req : Request) (db : DB)
  : Response + (Station * ChargingPort * string * string) :=
  match present (req_stationId req), present (req_portId req) with
  | Some stationId, Some portId =>
  match present (req_customerName req), present (req_customerPhone req) with
  | Some customerName, Some customerPhone =>
      match Station_findById db stationId with
      | Thrown _ =>
          inl (json (Error "Failed to check in. Please ask station staff for help.") 500)
      | Returned None => inl (json (Error "Station not found") 404)
      | Returned (Some station) =>
      match findPort station portId with
      | None => inl (json (Error "Port not found") 404)
      | Some port => inr (station, port, customerName, customerPhone)
      end
      end
  | _, _ => inl (json (Error "Name and phone number are required") 400)
  end
  | _, _ => inl (json (Error "Station and port are required") 400)
  end.

Definition POST (env : Env) (req : Request) (db : DB) : Response * DB :=
  match locate env req db with
  | inl response => (response, db)
  | inr (station, port, customerName, customerPhone) =>
      if negb (PortStatus_eqb (p_status port) available) then
        (json (Error ("Port is currently "
                      ++ PortStatus_text (p_status port)
                      ++ ". Please choose another port or wait.")) 409,
         db)
      else
        let booking :=
          newBooking env req station port customerName customerPhone in
        let db := Booking_create db booking in
        let db := markOccupied station port booking db in
        (json (CheckedIn booking (name station) (portNumber port)
                 (amount station (duration (req_estimatedDuration req))))
           201, db)
  end.

End WalkInCheckin.

(** ** app/api/admin/walk-in/route.ts: start, stop and legacy log *)

Module AdminWalkIn.
Import JS Store Env.
Local Open Scope string_scope.

Record Request : Type := {
  req_action : option string;
  req_stationId : option string;
  req_portId : option string;
  req_bookingId : option string;
  req_customerName : option string;
  req_customerPhone : option string;
  req_vehicleNumber : option string;
  req_vehicleType : option string;
  (** the time values of [new Date(startTime)] and [new Date(endTime)] *)
  req_startTime : option Z;
  req_endTime : option Z;
  req_amountPaid : field;
  req_paymentMethod : option string;
  req_notes : option string
}.

Definition caught : Response :=
  json (Error "Failed to process walk-in session") 500.

(** [ObjectId.isValid(s) ? new ObjectId(s) : null] *)
Definition toObjectId (s : string) : option string :=
  if ObjectId_isValid s then Some (new_ObjectId s) else None.

(** [objId ? await Station.findById(objId) : null] *)
Definition findStation (db : DB) (objId : option string) : option Station :=
  match objId with
  | Some h => find (fun s => String.eqb (s_id s) h) (Stations db)
  | None => None
  end.

Definition is_admin (u : User) : bool :=
  match role u with
  | role_admin => true
  | _ => false
  end.

Definition is_admin_or_superadmin (u : User) : bool :=
  match role u with
  | role_admin | role_superadmin => true
  | role_user => false
  end.

(** [station.adminId !== userId] *)
Definition not_owner (station : Station) (userId : string) : bool :=
  match adminId station with
  | Some a => negb (String.eqb a userId)
  | None => true
  end.

(** [{ $in: objId ? [objId, s] : [s] }] on a [Mixed] id. *)
Definition matches_id (objId : option string) (s : string) (stored : ident)
  : bool :=
  match objId with
  | Some h => ident_eqb stored (ObjectId h) || ident_eqb stored (Str s)
  | None => ident_eqb stored (Str s)
  end.

(** The filter of the active walk-in query. *)
Definition activeWalkIn (stationObjId : option string) (stationId : string)
    (portObjId : option string) (portId : string) (b : Booking) : bool :=
  matches_id stationObjId stationId (Store.stationId b)
  && matches_id portObjId portId (Store.portId b)
  && (BookingSource_eqb (source b) walk_in_manual
      || BookingSource_eqb (source b) walk_in_qr)
  && BookingStatus_eqb (status b) active.

(** [objId || s] stored in a [Mixed] path. *)
Definition mixed (objId : option string) (s : string) : ident :=
  match objId with
  | Some h => ObjectId h
  | None => Str s
  end.

(** The start action up to the session query: validation, station and
    ownership.  It yields the two ids and the station. *)
Definition startChecks (env : Env) (req : Request) (user : User)
    (userId : string) (db : DB) : Response + (string * string * Station) :=
  match present (req_stationId req), present (req_portId req) with
  | Some stationId, Some portId =>
      match findStation db (toObjectId stationId) with
      | None => inl (json (Error "Station not found in database") 404)
      | Some station =>
          if is_admin user && not_owner station userId then
            inl (json (Error "Not authorized for this station") 403)
          else inr (stationId, portId, station)
      end
  | _, _ => inl (json (Error "Station and port are required") 400)
  end.

(** The document passed to [Booking.create] by the start action. *)
Definition startBooking (env : Env) (stationId portId : string) : Booking :=
  let now_ := now env in
  set_walk_in
    (Booking_new (newObjectId env) ("walk-in-" ++ decimal (now env))
       "Walk-in" "" (mixed (toObjectId stationId) stationId)
       (mixed (toObjectId portId) portId) now_ 60 (now_ + 3600000)%Z)
    active walk_in_manual (Num 0) "Walk-in" "" "" "".

Definition start (env : Env) (req : Request) (user : User) (userId : string)
    (db : DB) : Response * DB :=
  match startChecks env req user userId db with
  | inl response => (response, db)
  | inr (stationId, portId, station) =>
      let stationObjId := toObjectId stationId in
      let portObjId := toObjectId portId in
      match find (activeWalkIn stationObjId stationId portObjId portId)
              (Bookings db) with
      | Some _ =>
          (json (Error "This port already has an active walk-in session")
             409, db)
      | None =>
          let booking := startBooking env stationId portId in
          let db := Booking_create db booking in
          let db :=
            match stationObjId, portObjId with
            | Some sid, Some pid =>
                Station_updateOne db sid (ByPortId pid)
                  (fun p => set_port p occupied (currentBookingId p))
            | _, _ => db
            end in
          (json (Started booking) 201, db)
      end
  end.

(** [Math.max(1, Math.round(durationMs / 60000))] *)
Definition durationMins (durationMs : Z) : Z :=
  Z.max 1 (Math_round (inject_Z durationMs / 60000)).

(** [station?.pricing?.perHour || 200] *)
Definition perHour (station : option Station) : number :=
  match station with
  | Some s =>
      match pricing s with
      | Some q => or_number (binary64 q) (Num 200)
      | None => Num 200
      end
  | None => Num 200
  end.

(** [Math.round((durationMs / 3600000) * perHour)] *)
Definition amount (durationMs : Z) (station : option Station) : number :=
  Math_round_number
    (fmul (fdiv (Num (inject_Z durationMs)) (Num 3600000))
       (perHour station)).

(** The stop action up to the computation: the booking id, the active
    booking, and the ownership test for a plain admin. *)
Definition stopChecks (env : Env) (req : Request) (user : User)
    (userId : string) (db : DB) : Response + Booking :=
  match present (req_bookingId req) with
  | None => inl (json (Error "Booking ID is required") 400)
  | Some bookingId =>
  match Booking_findById db bookingId with
  | Thrown _ => inl caught
  | Returned None => inl (json (Error "Active walk-in session not found") 404)
  | Returned (Some booking) =>
      if negb (BookingStatus_eqb (status booking) active) then
        inl (json (Error "Active walk-in session not found") 404)
      else
      let stObjId := toObjectId (toString (stationId booking)) in
      let station := findStation db stObjId in
      if is_admin user
         && match station with
            | Some s => not_owner s userId
            | None => true
            end
      then inl (json (Error "Not authorized") 403)
      else inr booking
  end
  end.

Definition stop (env : Env) (req : Request) (user : User) (userId : string)
    (db : DB) : Response * DB :=
  match stopChecks env req user userId db with
  | inl response => (response, db)
  | inr booking =>
      let now_ := now env in
      let durationMs := (now_ - startTime booking)%Z in
      let mins := durationMins durationMs in
      let stObjId := toObjectId (toString (stationId booking)) in
      let station := findStation db stObjId in
      let amt := amount durationMs station in
      let booking :=
        set_completed booking now_ (inject_Z mins) amt in
      let db := Booking_save db booking in
      let portObjId := toObjectId (toString (portId booking)) in
      let db :=
        match stObjId, portObjId with
        | Some sid, Some pid =>
            Station_updateOne db sid (ByPortId pid)
              (fun p => set_port p available (currentBookingId p))
        | _, _ => db
        end in
      (json (Stopped booking amt mins) 200, db)
  end.

(** The [paymentMethod] enum of the booking schema; any other text fails
    validation. *)
Definition PaymentMethod_of (s : string) : option PaymentMethod :=
  if String.eqb s "khalti" then Some khalti
  else if String.eqb s "cash" then Some cash
  else if String.eqb s "other" then Some other
  else None.

(** [amountPaid || 0], cast to the [Number] path of the schema: a boolean
    and a numeric text are converted; a text that is not numeric, an array
    and an object fail the cast. *)
Definition amountPaid_of (f : field) : option number :=
  match f with
  | ObjectField _ => None
  | _ =>
      if truthy_field f then
        match Number f with
        | NaN => None
        | n => Some n
        end
      else Some (Num 0)
  end.

Definition log (env : Env) (req : Request) (user : User) (userId : string)
    (db : DB) : Response * DB :=
  match present (req_stationId req), present (req_portId req),
        req_startTime req, req_endTime req with
  | Some stationId, Some portId, Some start_, Some end_ =>
      match (if is_admin user then Station_findById db stationId
             else Returned None) with
      | Thrown _ => (caught, db)
      | Returned station =>
          if is_admin user
             && match station with
                | Some s => not_owner s userId
                | None => true
                end
          then (json (Error "Station not found or not authorized") 403, db)
          else
            let durationMs := (end_ - start_)%Z in
            let estimated := durationMins durationMs in
            match amountPaid_of (req_amountPaid req),
                  PaymentMethod_of (or_string (req_paymentMethod req) "cash")
            with
            | Some paid, Some method =>
                let booking :=
                  set_notes_method
                    (set_walk_in
                       (Booking_new (newObjectId env)
                          ("walk-in-" ++ decimal (now env))
                          (or_string (req_customerName req) "Walk-in") ""
                          (Str stationId) (Str portId)
                          start_ (inject_Z estimated) end_)
                       completed walk_in_manual paid
                       (or_string (req_customerName req) "Walk-in")
                       (or_string (req_customerPhone req) "")
                       (or_string (req_vehicleNumber req) "")
                       (or_string (req_vehicleType req) ""))
                    method (or_string (req_notes req) "") in
                (json (Logged booking) 201, Booking_create db booking)
            | _, _ => (caught, db)
            end
      end
  | _, _, _, _ =>
      (json (Error "Station, port, start and end time are required") 400, db)
  end.

(** Authentication and the admin role. *)
Definition authorize (env : Env) (db : DB) : Response + (User * string) :=
  match present (auth_userId env) with
  | None => inl (json (Error "Unauthorized") 401)
  | Some userId =>
      match User_findOne db userId with
      | None => inl (json (Error "Forbidden") 403)
      | Some user =>
          if negb (is_admin_or_superadmin user) then
            inl (json (Error "Forbidden") 403)
          else inr (user, userId)
      end
  end.

Definition POST (env : Env) (req : Request) (db : DB) : Response * DB :=
  match authorize env db with
  | inl response => (response, db)
  | inr (user, userId) =>
      let action := or_string (req_action req) "log" in
      if String.eqb action "start" then start env req user userId db
      else if String.eqb action "stop" then stop env req user userId db
      else log env req user userId db
  end.

(** [source: { $in: ["walk-in-manual", "walk-in-qr"] }], restricted to the
    admin's own stations for a plain admin; at most 100, newest first. *)
Definition GET (env : Env) (db : DB) : Response * DB :=
  match present (auth_userId env) with
  | None => (json (Error "Unauthorized") 401, db)
  | Some userId =>
      match User_findOne db userId with
      | None => (json (Error "Forbidden") 403, db)
      | Some user =>
          if negb (is_admin_or_superadmin user) then
            (json (Error "Forbidden") 403, db)
          else
            let own (s : Station) :=
              match adminId s with
              | Some a => String.eqb a userId
              | None => false
              end in
            let stationIds := map s_id (filter own (Stations db)) in
            let walkin (b : Booking) :=
              (BookingSource_eqb (source b) walk_in_manual
               || BookingSource_eqb (source b) walk_in_qr)
              && (negb (is_admin user)
                  || existsb (String.eqb (toString (stationId b))) stationIds)
            in
            (json (BookingList
                     (firstn 100 (rev (filter walkin (Bookings db))))) 200,
             db)
      end
  end.

End AdminWalkIn.

(** ** app/api/admin/stations/[id]/ports/route.ts *)

Module AdminStationPorts.
Import JS Store Env.
Local Open Scope string_scope.

Record Request : Type := {
  req_portId : option string;
  req_status : option string
}.

(** [validStatuses.includes(status)] *)
Definition PortStatus_of (s : string) : option PortStatus :=
  if String.eqb s "available" then Some available
  else if String.eqb s "occupied" then Some occupied
  else if String.eqb s "maintenance" then Some maintenance
  else if String.eqb s "reserved" then Some reserved
  else None.

(** [p._id?.toString() === portId || p.portNumber === portId] *)
Definition isPort (portId : string) (p : ChargingPort) : bool :=
  match p_id p with
  | Some h => String.eqb h portId
  | None => false
  end
  || String.eqb (portNumber p) portId.

Definition setStatus (s : PortStatus) (p : ChargingPort) : ChargingPort :=
  set_port p s
    (if PortStatus_eqb s available then None else currentBookingId p).

(** [station.save()] *)
Definition Station_save (db : DB) (s : Station) : DB :=
  with_Stations db
    (update_first (fun x => String.eqb (s_id x) (s_id s)) (fun _ => s)
       (Stations db)).

Definition PATCH (env : Env) (id : string) (req : Request) (db : DB)
  : Response * DB :=
  match present (auth_userId env) with
  | None => (json (Error "Unauthorized") 401, db)
  | Some userId =>
  match User_findOne db userId with
  | None => (json (Error "Forbidden") 403, db)
  | Some user =>
      if negb (AdminWalkIn.is_admin_or_superadmin user) then
        (json (Error "Forbidden") 403, db)
      else
      match Station_findById db id with
      | Thrown _ => (json (Error "Failed to update port status") 500, db)
      | Returned None => (json (Error "Station not found") 404, db)
      | Returned (Some station) =>
          if match role user with role_superadmin => false | _ => true end
             && AdminWalkIn.not_owner station userId
          then (json (Error "You can only manage your own stations") 403, db)
          else
          match present (req_portId req), present (req_status req) with
          | Some portId, Some status_ =>
              match PortStatus_of status_ with
              | None =>
                  (json (Error "Invalid status. Must be one of: available, occupied, maintenance, reserved") 400, db)
              | Some st =>
                  if existsb (isPort portId) (chargingPorts station) then
                    let station :=
                      set_chargingPorts station
                        (update_first (isPort portId) (setStatus st)
                           (chargingPorts station)) in
                    (json (StationBody station) 200, Station_save db station)
                  else (json (Error "Port not found") 404, db)
              end
          | _, _ => (json (Error "portId and status are required") 400, db)
          end
      end
  end
  end.

End AdminStationPorts.

(** ** app/api/admin/stations/route.ts *)

Module AdminStations.
Import JS Store Env.
Local Open Scope string_scope.

(** The body of a station creation; [req_location] is the [location] object
    with its optional [coordinates]; the numbers are JSON numbers. *)
Record Request : Type := {
  req_name : option string;
  req_location : option (option LatLng);
  req_address : option string;
  req_city : option string;
  req_chargingPorts : list ChargingPort;
  req_pricing : option Q
}.

(** The validation of [Station.create] on the fields of the body: the
    required strings [location.address] and [location.city] are present and
    not empty, and so are [portNumber] and [connectorType] of every port. *)
Definition valid (req : Request) : bool :=
  match present (req_address req), present (req_city req) with
  | Some _, Some _ =>
      forallb (fun p => negb (String.eqb (portNumber p) "")
                        && negb (String.eqb (connectorType p) ""))
        (req_chargingPorts req)
  | _, _ => false
  end.

Definition GET (env : Env) (db : DB) : Response * DB :=
  match present (auth_userId env) with
  | None => (json (Error "Unauthorized") 401, db)
  | Some userId =>
      match User_findOne db userId with
      | None => (json (Error "Forbidden") 403, db)
      | Some user =>
          if negb (AdminWalkIn.is_admin_or_superadmin user) then
            (json (Error "Forbidden") 403, db)
          else
            let own (s : Station) :=
              match adminId s with
              | Some a => String.eqb a userId
              | None => false
              end in
            let dbStations :=
              rev (if AdminWalkIn.is_admin user then filter own (Stations db)
                   else Stations db) in
            let extra :=
              match role user with
              | role_superadmin =>
                  filter
                    (fun s => negb (existsb (String.eqb (name s))
                                      (map name dbStations)))
                    (loadAllStationsFromFile env)
              | _ => []
              end in
            (json (StationList (dbStations ++ extra)) 200, db)
      end
  end.

Definition POST (env : Env) (req : Request) (db : DB) : Response * DB :=
  match present (auth_userId env) with
  | None => (json (Error "Unauthorized") 401, db)
  | Some userId =>
  match User_findOne db userId with
  | None => (json (Error "Forbidden") 403, db)
  | Some user =>
      if negb (AdminWalkIn.is_admin_or_superadmin user) then
        (json (Error "Forbidden") 403, db)
      else
      match present (req_name req), req_location req with
      | Some name_, Some location =>
          match has_lat_lng location with
          | None =>
              (json (Error "Invalid location: must include coordinates with lat and lng") 400, db)
          | Some c =>
              if Qltb (lat c) (-90) || Qltb 90 (lat c) then
                (json (Error "Invalid latitude: must be between -90 and 90") 400, db)
              else if Qltb (lng c) (-180) || Qltb 180 (lng c) then
                (json (Error "Invalid longitude: must be between -180 and 180") 400, db)
              else if match req_pricing req with
                      | Some q => Qltb q 0
                      | None => false
                      end
              then (json (Error "Pricing per hour cannot be negative") 400, db)
              else
                if negb (valid req) then
                  (json (Error "Failed to create station") 500, db)
                else
                    let station :=
                      {| s_id := newObjectId env; name := name_;
                         adminId := Some userId; coordinates := Some c;
                         chargingPorts := req_chargingPorts req;
                         pricing :=
                           match req_pricing req with
                           | Some q => Some q
                           | None => Some 0
                           end |} in
                    (json (StationBody station) 201,
                     with_Stations db (Stations db ++ [station]))
          end
      | _, _ =>
          (json (Error "Missing required fields: name, location") 400, db)
      end
  end
  end.

End AdminStations.

(** ** app/api/bookings/[id]/refresh-eta/route.ts *)

Module RefreshEta.
Import JS Store Env.
Local Open Scope string_scope.

Definition POST (env : Env) (id : string) (userLocation : option LatLng)
    (db : DB) : Response * DB :=
  match present (auth_userId env) with
  | None => (json (Error "Unauthorized") 401, db)
  | Some userId =>
  match has_lat_lng userLocation with
  | None => (json (Error "User location (lat, lng) is required") 400, db)
  | Some loc =>
  match Booking_findById db id with
  | Thrown _ => (json (Error "Failed to refresh ETA") 500, db)
  | Returned None => (json (Error "Booking not found") 404, db)
  | Returned (Some booking) =>
      if negb (String.eqb (Store.userId booking) userId)
         && match User_findOne db userId with
            | Some user => negb (AdminWalkIn.is_admin_or_superadmin user)
            | None => true
            end
      then (json (Error "Forbidden") 403, db)
      else
      match getStationCoordinates env (toString (stationId booking)) with
      | None => (json (Error "Could not find station location") 400, db)
      | Some stationCoords =>
          match calculateETA env loc stationCoords with
          | None => (json (Error "Failed to calculate ETA") 500, db)
          | Some newETA =>
              let booking :=
                set_location_eta booking (Some loc) (Some newETA) in
              (json (BookingBody booking) 200, Booking_save db booking)
          end
      end
  end
  end
  end.

End RefreshEta.

(** ** app/api/bookings/route.ts *)

Module Bookings.
Import JS Store Env.
Local Open Scope string_scope.

Definition BookingStatus_text (s : BookingStatus) : string :=
  match s with
  | pending => "pending"
  | confirmed => "confirmed"
  | active => "active"
  | completed => "completed"
  | cancelled => "cancelled"
  | no_show => "no-show"
  end.

(** The query parameters that are present, as texts. *)
Record Request : Type := {
  req_status : option string;
  req_page : option string;
  req_limit : option string
}.

Definition GET (env : Env) (req : Request) (db : DB) : Response * DB :=
  match present (auth_userId env) with
  | None => (json (Error "Unauthorized") 401, db)
  | Some userId =>
      let page := Math_max (Num 1) (parseInt (or_string (req_page req) "1")) in
      let limit :=
        Math_min (Num 50)
          (Math_max (Num 1) (parseInt (or_string (req_limit req) "20"))) in
      let skip_ := fmul (fadd page (Num (-1))) limit in
      let selected (b : Booking) :=
        String.eqb (Store.userId b) userId
        && match present (req_status req) with
           | Some s => String.eqb (BookingStatus_text (status b)) s
           | None => true
           end in
      match Int32 skip_, Int32 limit with
      | Some s, Some l =>
          (json (BookingList
                   (firstn (Z.to_nat l)
                      (skipn (Z.to_nat s)
                         (rev (filter selected (Bookings db)))))) 200,
           db)
      | _, _ =>
          match find_skip_limit env skip_ limit with
          | Returned bookings => (json (BookingList bookings) 200, db)
          | Thrown _ => (json (Error "Failed to fetch bookings") 500, db)
          end
      end
  end.

Definition POST : Response :=
  json (Error "Bookings must be created through the payment gateway. Use POST /api/payments/initiate instead.") 403.

End Bookings.

(** ** The route table *)

Module Routes.
Import Store Env.

Inductive Call : Type :=
  | PaymentsInitiate_POST (req : PaymentsInitiate.Request)
  | StripeCreateIntent_POST
  | PaymentsVerify_POST (req : PaymentsVerify.Request)
  | StripeWebhook_POST
  | RefreshEta_POST (id : string) (userLocation : option LatLng)
  | Bookings_GET (req : Bookings.Request)
  | Bookings_POST
  | WalkInCheckin_POST (req : WalkInCheckin.Request)
  | AdminStationPorts_PATCH (id : string) (req : AdminStationPorts.Request)
  | AdminStations_GET
  | AdminStations_POST (req : AdminStations.Request)
  | AdminWalkIn_POST (req : AdminWalkIn.Request)
  | AdminWalkIn_GET.

Definition handle (env : Env) (c : Call) (db : DB) : Response * DB :=
  match c with
  | PaymentsInitiate_POST req => PaymentsInitiate.POST env req db
  | StripeCreateIntent_POST => (StripeCreateIntent.POST, db)
  | PaymentsVerify_POST req => PaymentsVerify.POST env req db
  | StripeWebhook_POST => (StripeWebhook.POST, db)
  | RefreshEta_POST id loc => RefreshEta.POST env id loc db
  | Bookings_GET req => Bookings.GET env req db
  | Bookings_POST => (Bookings.POST, db)
  | WalkInCheckin_POST req => WalkInCheckin.POST env req db
  | AdminStationPorts_PATCH id req => AdminStationPorts.PATCH env id req db
  | AdminStations_GET => AdminStations.GET env db
  | AdminStations_POST req => AdminStations.POST env req db
  | AdminWalkIn_POST req => AdminWalkIn.POST env req db
  | AdminWalkIn_GET => AdminWalkIn.GET env db
  end.



End Routes.

(** ** lib/auth.ts *)

Module Auth.
Import Store.

(** The admin user document, or nothing if the user is not an admin. *)
Definition verifyAdminRole (db : DB) (userId : string) : option User :=
  match User_findOne db userId with
  | Some user =>
      match role user with
      | role_admin | role_superadmin => Some user
      | role_user => None
      end
  | None => None
  end.

(** [user?.role === "superadmin"] *)
Definition isSuperAdmin (db : DB) (userId : string) : bool :=
  match User_findOne db userId with
  | Some user =>
      match role user with
      | role_superadmin => true
      | _ => false
      end
  | None => false
  end.

(** [user?.role === "admin" || user?.role === "superadmin"] *)
Definition isAdmin (db : DB) (userId : string) : bool :=
  match User_findOne db userId with
  | Some user =>
      match role user with
      | role_admin | role_superadmin => true
      | role_user => false
      end
  | None => false
  end.

End Auth.

(** ** lib/arrivalStatus.ts *)

Module ArrivalStatus.
Import JS.
Local Open Scope string_scope.

Inductive UrgencyLevel : Type :=
  | urgent | approaching | delayed | normal.

(** The ETA snapshot of a booking; [updatedAt] is the time value of the
    date it holds, absent when there is none or it is not a valid date. *)
Record Eta : Type := {
  durationMinutes : option Q;
  updatedAt : option Z
}.

Record ArrivalStatus : Type := {
  expectedArrivalTime : Z;
  minutesUntilArrival : Q;
  urgencyLevel : UrgencyLevel;
  isOverdue : bool;
  statusLabel : string;
  bgColor : string;
  textColor : string
}.

(** A date argument that is replaced by [new Date()] when it is not a valid
    date. *)
Definition orNow (d : option Z) (now : Z) : Z :=
  match d with
  | Some t => t
  | None => now
  end.

(** [!eta || !eta.durationMinutes] fails: the duration of a usable ETA. *)
Definition usable (eta : option Eta) : option (Eta * Q) :=
  match eta with
  | Some e =>
      match durationMinutes e with
      | Some d => if Qeq_bool d 0 then None else Some (e, d)
      | None => None
      end
  | None => None
  end.

(** [Math.round(Math.abs(x))] as text. *)
Definition roundAbs (x : Q) : string := decimal (Math_round (Qabs x)).

(** [calculateArrivalStatus], with the clock reading [now]; a date argument
    is the time value of a valid date or nothing.  The expected arrival is
    computed in binary64 arithmetic; the record holds its time value when
    it is a valid date. *)
Definition calculateArrivalStatus (now : Z) (bookingCreatedAt : option Z)
    (eta : option Eta) (bookingStartTime : option Z) : ArrivalStatus :=
  let createdTime := orNow bookingCreatedAt now in
  let startTime := orNow bookingStartTime now in
  match usable eta with
  | None =>
      {| expectedArrivalTime := startTime;
         minutesUntilArrival :=
           Qmax 0 (inject_Z (startTime - now) / (1000 * 60));
         urgencyLevel := normal;
         isOverdue := false;
         statusLabel := "No location data";
         bgColor := "bg-gray-100";
         textColor := "text-gray-700" |}
  | Some (e, d) =>
      let etaUpdatedTime := orNow (updatedAt e) now in
      let expected :=
        getTime
          (TimeClip
             (fadd (Num (inject_Z etaUpdatedTime))
                (fmul (fmul (binary64 d) (Num 60)) (Num 1000)))) in
      let minutes := inject_Z (expected - now) / (1000 * 60) in
      let overdue := Qltb minutes 0 in
      if overdue && Qltb 30 (Qabs minutes) then
        {| expectedArrivalTime := expected; minutesUntilArrival := minutes;
           urgencyLevel := delayed; isOverdue := overdue;
           statusLabel := roundAbs minutes ++ " mins overdue";
           bgColor := "bg-red-100"; textColor := "text-red-800" |}
      else if overdue then
        {| expectedArrivalTime := expected; minutesUntilArrival := minutes;
           urgencyLevel := urgent; isOverdue := overdue;
           statusLabel :=
             if overdue then "Overdue by " ++ roundAbs minutes ++ " mins"
             else "Arriving now";
           bgColor := "bg-orange-100"; textColor := "text-orange-800" |}
      else if Qle_bool minutes 5 then
        {| expectedArrivalTime := expected; minutesUntilArrival := minutes;
           urgencyLevel := urgent; isOverdue := overdue;
           statusLabel :=
             "Arrives in " ++ decimal (Math_round minutes) ++ " min"
             ++ (if (Math_round minutes =? 1)%Z then "" else "s");
           bgColor := "bg-red-100"; textColor := "text-red-800" |}
      else if Qle_bool minutes 15 then
        {| expectedArrivalTime := expected; minutesUntilArrival := minutes;
           urgencyLevel := approaching; isOverdue := overdue;
           statusLabel :=
             "Arrives in " ++ decimal (Math_round minutes) ++ " mins";
           bgColor := "bg-yellow-100"; textColor := "text-yellow-800" |}
      else
        {| expectedArrivalTime := expected; minutesUntilArrival := minutes;
           urgencyLevel := normal; isOverdue := overdue;
           statusLabel :=
             "Arrives in " ++ decimal (Math_round minutes) ++ " mins";
           bgColor := "bg-green-100"; textColor := "text-green-800" |}
  end.

End ArrivalStatus.

(** ** Relations between the store before and after a request *)

Module Invariant.
Import Store.

(** The bookings of [db'] are those of [db], in order and under the same
    [_id]s, followed by at most one new booking. *)
Definition keeps_bookings (db db' : DB) : Prop :=
  exists extra : list string,
    map b_id (Bookings db') = map b_id (Bookings db) ++ extra /\
    (List.length extra <= 1)%nat.

End Invariant.

(** ** A small store used in the examples: one station with two ports, an
    owner, two customers and a confirmed booking from 10:00 to 11:00. *)

Module Scenario.
Import JS Store Env.
Local Open Scope string_scope.

Definition stationHex : string := "64b000000000000000000001".
Definition portHex : string := "64b0000000000000000000a1".
Definition port2Hex : string := "64b0000000000000000000a2".
Definition bookingAHex : string := "64b0000000000000000000b1".
Definition freshHex : string := "64b0000000000000000000b2".

Definition port1 : ChargingPort :=
  {| p_id := Some portHex; portNumber := "P1"; connectorType := "type2";
     p_status := available; currentBookingId := None |}.

Definition port2 : ChargingPort :=
  {| p_id := Some port2Hex; portNumber := "P2"; connectorType := "ccssae";
     p_status := maintenance; currentBookingId := None |}.

Definition station : Station :=
  {| s_id := stationHex; name := "Durbar Marg"; adminId := Some "admin_1";
     coordinates := None; chargingPorts := [port1; port2];
     pricing := Some 200 |}.

Definition customer (id : string) : User :=
  {| clerkId := id; email := id ++ "@example.org"; u_name := id;
     role := role_user; phone := None |}.

Definition owner : User :=
  {| clerkId := "admin_1"; email := "admin_1@example.org"; u_name := "admin";
     role := role_admin; phone := None |}.

(** 10:00 to 11:00 on port P1, held by user_1. *)
Definition bookingA : Booking :=
  set_status
    (Booking_new bookingAHex "user_1" "user_1" "user_1@example.org"
       (Str stationHex) (Str portHex) 36000000 60 39600000)
    confirmed.

(** 12:00 to 13:00 on port P1, by user_1, not yet paid. *)
Definition bookingP : Booking :=
  Booking_new "64b0000000000000000000b3" "user_1" "user_1"
    "user_1@example.org" (Str stationHex) (Str portHex)
    43200000 60 46800000.

Definition dbP : DB :=
  {| Stations := [station]; Bookings := [bookingA; bookingP];
     Users := [customer "user_1"; customer "user_2"; owner] |}.

(** The verification request of [bookingP]. *)
Definition verifyP : PaymentsVerify.Request :=
  {| PaymentsVerify.req_pidx := Some "pidx_1";
     PaymentsVerify.req_bookingId := Some "64b0000000000000000000b3" |}.

Definition db0 : DB :=
  {| Stations := [station]; Bookings := [bookingA];
     Users := [customer "user_1"; customer "user_2"; owner] |}.

(** The environment of a request by [user] at time [t]; the gateway answers
    with [gateway] to a lookup and with [initiate] to an initiation. *)
Definition env_of (user : option string) (key : option string) (t : Z)
    (initiate : outcome KhaltiInitiateResponse) (gateway : outcome string)
  : Env :=
  {| auth_userId := user; currentUser := None;
     KHALTI_SECRET_KEY := key; NEXT_PUBLIC_APP_URL := None;
     now := t; newObjectId := freshHex;
     loadStationFromFile := fun _ => None;
     loadAllStationsFromFile := [];
     calculateETA := fun _ _ => None;
     getStationCoordinates := fun _ => None;
     QRCode_toDataURL := fun _ => "data:image/png;base64,";
     khaltiInitiate := fun _ => initiate;
     khaltiLookup := fun _ => gateway;
     find_skip_limit := fun _ _ => Thrown "Failed to parse" |}.

(** The environment of a request that does not reach the gateway. *)
Definition env_at (user : option string) (t : Z) : Env :=
  env_of user (Some "key") t (Thrown "unused") (Thrown "unused").

Definition khaltiOk : outcome KhaltiInitiateResponse :=
  Returned {| pidx := "pidx_1"; payment_url := "https://pay.example/pidx_1" |}.

(** A request by user_2 for port P1 starting at [start] for 60 minutes. *)
Definition slot (start : Z) : PaymentsInitiate.Request :=
  {| PaymentsInitiate.req_stationId := Some stationHex;
     PaymentsInitiate.req_portId := Some portHex;
     PaymentsInitiate.req_startTime := Some start;
     PaymentsInitiate.req_estimatedDuration := NumberField 60;
     PaymentsInitiate.req_userLocation := None |}.

(** A QR check-in on port P1 for [d] minutes. *)
Definition checkin (d : field) : WalkInCheckin.Request :=
  {| WalkInCheckin.req_stationId := Some stationHex;
     WalkInCheckin.req_portId := Some portHex;
     WalkInCheckin.req_customerName := Some "Asha";
     WalkInCheckin.req_customerPhone := Some "9800000000";
     WalkInCheckin.req_vehicleNumber := None;
     WalkInCheckin.req_vehicleType := None;
     WalkInCheckin.req_estimatedDuration := d |}.

(** An admin walk-in request. *)
Definition walkin (action : string) (port booking : option string)
  : AdminWalkIn.Request :=
  {| AdminWalkIn.req_action := Some action;
     AdminWalkIn.req_stationId := Some stationHex;
     AdminWalkIn.req_portId := port;
     AdminWalkIn.req_bookingId := booking;
     AdminWalkIn.req_customerName := None;
     AdminWalkIn.req_customerPhone := None;
     AdminWalkIn.req_vehicleNumber := None;
     AdminWalkIn.req_vehicleType := None;
     AdminWalkIn.req_startTime := None;
     AdminWalkIn.req_endTime := None;
     AdminWalkIn.req_amountPaid := Missing;
     AdminWalkIn.req_paymentMethod := None;
     AdminWalkIn.req_notes := None |}.

Definition walkinHex : string := "64b0000000000000000000c1".

(** The same environment with another [_id] for the next document. *)
Definition with_newObjectId (env : Env) (id : string) : Env :=
  {| auth_userId := auth_userId env; currentUser := currentUser env;
     KHALTI_SECRET_KEY := KHALTI_SECRET_KEY env;
     NEXT_PUBLIC_APP_URL := NEXT_PUBLIC_APP_URL env;
     now := now env; newObjectId := id;
     loadStationFromFile := loadStationFromFile env;
     loadAllStationsFromFile := loadAllStationsFromFile env;
     calculateETA := calculateETA env;
     getStationCoordinates := getStationCoordinates env;
     QRCode_toDataURL := QRCode_toDataURL env;
     khaltiInitiate := khaltiInitiate env;
     khaltiLookup := khaltiLookup env;
     find_skip_limit := find_skip_limit env |}.

(** The store after the owner starts, at time [t], a walk-in session on the
    port that the request names. *)
Definition dbStarted (port : string) (t : Z) : DB :=
  snd (AdminWalkIn.POST (with_newObjectId (env_at (Some "admin_1") t) walkinHex)
         (walkin "start" (Some port) None) db0).

(** The owner's request to stop that session at time [t]. *)
Definition stopAt (t : Z) : Env * AdminWalkIn.Request :=
  (env_at (Some "admin_1") t, walkin "stop" None (Some walkinHex)).


(** A request to set the status of port P1. *)
Definition patch (status_ : string) : AdminStationPorts.Request :=
  {| AdminStationPorts.req_portId := Some portHex;
     AdminStationPorts.req_status := Some status_ |}.

End Scenario.

(* ================================================================== *)
(** * Part II. Theorems *)
(* ================================================================== *)

(** Case analysis on the scrutinee of the first [match] or [if] of the goal. *)
Ltac split_match :=
  match goal with
  | |- context [match ?x with _ => _ end] => destruct x eqn:?
  | |- context [if ?x then _ else _] => destruct x eqn:?
  end.

(** ** Binary64 arithmetic *)

Section NumberFacts.
Import JS.
Local Open Scope Q_scope.

Lemma pow2_pos (e : Z) : 0 < pow2 e.
Proof. apply Qpower_0_lt. reflexivity. Qed.

Lemma pow2_add (a b : Z) : pow2 (a + b) == pow2 a * pow2 b.
Proof. apply Qpower_plus. discriminate. Qed.

Lemma pow2_inject_Z (e : Z) : (0 <= e)%Z -> pow2 e == inject_Z (2 ^ e).
Proof. intros H. unfold pow2. now rewrite Zpower_Qpower. Qed.

Lemma nearest_even_inject_Z (x : Q) (n : Z) :
  x == inject_Z n -> nearest_even x = n.
Proof.
  intros H. unfold nearest_even.
  assert (Hf : Qfloor x = n) by (rewrite (Qfloor_comp _ _ H); apply Qfloor_Z).
  rewrite Hf.
  assert (Hc : Qcompare (x - inject_Z n) (1 # 2) = Lt).
  { rewrite H. rewrite <- Qlt_alt. Lqa.lra. }
  now rewrite Hc.
Qed.

Lemma nearest_even_bounds (x : Q) :
  inject_Z (nearest_even x) <= x + (1 # 2) /\
  x - (1 # 2) <= inject_Z (nearest_even x).
Proof.
  unfold nearest_even.
  pose proof (Qfloor_le x) as Hl. pose proof (Qlt_floor x) as Hu.
  rewrite inject_Z_plus in Hu. change (inject_Z 1) with 1 in Hu.
  destruct (Qcompare (x - inject_Z (Qfloor x)) (1 # 2)) eqn:E.
  - apply Qeq_alt in E.
    destruct (Z.even (Qfloor x)); rewrite ?inject_Z_plus;
      change (inject_Z 1) with 1; split; Lqa.lra.
  - apply Qlt_alt in E. split; Lqa.lra.
  - apply Qgt_alt in E. rewrite inject_Z_plus. change (inject_Z 1) with 1.
    split; Lqa.lra.
Qed.

Lemma ilog2_lower (n d : positive) :
  pow2 (ilog2 n d) * inject_Z (Zpos d) <= inject_Z (Zpos n).
Proof.
  unfold ilog2.
  set (ln := Z.log2 (Zpos n)). set (ld := Z.log2 (Zpos d)).
  assert (Hln : (0 <= ln)%Z) by apply Z.log2_nonneg.
  assert (Hld : (0 <= ld)%Z) by apply Z.log2_nonneg.
  assert (Hn : pow2 ln <= inject_Z (Zpos n)).
  { rewrite pow2_inject_Z by exact Hln. rewrite <- Zle_Qle.
    apply Z.log2_spec. reflexivity. }
  assert (Hd : inject_Z (Zpos d) < pow2 (ld + 1)).
  { rewrite pow2_inject_Z by lia. rewrite <- Zlt_Qlt.
    replace (ld + 1)%Z with (Z.succ ld) by lia.
    apply Z.log2_spec. reflexivity. }
  match goal with
  | |- context [if ?c then _ else _] => destruct c eqn:E
  end.
  - (* below the estimate *)
    apply Qlt_le_weak.
    apply Qlt_le_trans with (pow2 (ln - ld - 1) * pow2 (ld + 1)).
    + apply Qmult_lt_l; [apply pow2_pos | exact Hd].
    + rewrite <- pow2_add. replace (ln - ld - 1 + (ld + 1))%Z with ln by lia.
      exact Hn.
  - destruct (0 <=? ln - ld)%Z eqn:Ek.
    + apply Z.leb_le in Ek. apply Z.ltb_ge in E.
      rewrite pow2_inject_Z by exact Ek.
      rewrite <- inject_Z_mult, <- Zle_Qle. lia.
    + apply Z.leb_gt in Ek. apply Z.ltb_ge in E.
      rewrite Zle_Qle in E. rewrite inject_Z_mult in E.
      rewrite <- pow2_inject_Z in E by lia.
      assert (H1 : pow2 (ln - ld) * pow2 (- (ln - ld)) == 1).
      { rewrite <- pow2_add. replace (ln - ld + - (ln - ld))%Z with 0%Z by lia.
        reflexivity. }
      pose proof (pow2_pos (ln - ld)) as Hp.
      apply Qle_trans with
        (pow2 (ln - ld) * (inject_Z (Z.pos n) * pow2 (- (ln - ld)))).
      * apply Qmult_le_l; [exact Hp | exact E].
      * setoid_replace (pow2 (ln - ld) *
                        (inject_Z (Z.pos n) * pow2 (- (ln - ld))))
          with (inject_Z (Z.pos n) * (pow2 (ln - ld) * pow2 (- (ln - ld))))
          by ring.
        rewrite H1. Lqa.lra.
Qed.

Lemma Qred_Num_eq (v w : Q) : v == w -> Num (Qred v) = Num (Qred w).
Proof. intros H. f_equal. now apply Qred_complete. Qed.

(** The rounding of a positive rational: the result is not negative, and
    within half a unit in the last place of the argument. *)
Lemma round_pos_spec (q : Q) :
  0 < q ->
  exists v : Q,
    0 <= v /\
    Qabs (v - q) <= q * pow2 (-53) + pow2 (-1075) /\
    (round_pos q = Num (Qred v) /\ v < pow2 1024 \/
     round_pos q = Inf false /\ pow2 1024 <= v).
Proof.
  intros Hq. unfold round_pos.
  set (L := ilog2 (Z.to_pos (Qnum q)) (Qden q)).
  set (e := Z.max (L - 52) (-1074)).
  set (p := pow2 e). set (m := nearest_even (q / p)).
  assert (Hp : 0 < p) by apply pow2_pos.
  assert (HL : pow2 L <= q).
  { pose proof (ilog2_lower (Z.to_pos (Qnum q)) (Qden q)) as H. fold L in H.
    assert (Hnum : (0 < Qnum q)%Z).
    { destruct q as [n d]. unfold Qlt in Hq. simpl in *. lia. }
    rewrite Z2Pos.id in H by exact Hnum.
    destruct q as [n d]. simpl in H, Hnum. rewrite (Qmake_Qdiv n d).
    apply Qle_shift_div_l; [reflexivity | exact H]. }
  assert (H3 : p * (1 # 2) <= q * pow2 (-53) + pow2 (-1075)).
  { assert (E53 : pow2 (-52) * (1 # 2) == pow2 (-53)) by reflexivity.
    assert (E75 : pow2 (-1074) * (1 # 2) == pow2 (-1075)) by reflexivity.
    pose proof (pow2_pos (-53)) as P53. pose proof (pow2_pos (-1075)) as P75.
    pose proof (pow2_pos (-52)) as P52.
    unfold p, e. destruct (Z.max_spec (L - 52) (-1074)) as [[_ ->] | [_ ->]].
    - rewrite <- E75.
      assert (0 <= q * pow2 (-53)) by (apply Qmult_le_0_compat; Lqa.lra).
      Lqa.lra.
    - replace (L - 52)%Z with (L + -52)%Z by lia. rewrite pow2_add.
      assert (pow2 L * pow2 (-52) <= q * pow2 (-52))
        by (apply Qmult_le_compat_r; Lqa.lra).
      rewrite <- E53.
      setoid_replace (q * (pow2 (-52) * (1 # 2)))
        with (q * pow2 (-52) * (1 # 2)) by ring.
      Lqa.lra. }
  destruct (nearest_even_bounds (q / p)) as [Hu Hl]. fold m in Hu, Hl.
  assert (Hx : q / p * p == q) by (field; Lqa.lra).
  assert (H1 : inject_Z m * p <= q + p * (1 # 2)).
  { apply Qle_trans with ((q / p + (1 # 2)) * p).
    - apply Qmult_le_compat_r; Lqa.lra.
    - rewrite Qmult_plus_distr_l, Hx. Lqa.lra. }
  assert (H2 : q - p * (1 # 2) <= inject_Z m * p).
  { apply Qle_trans with ((q / p - (1 # 2)) * p).
    - setoid_replace ((q / p - (1 # 2)) * p) with (q / p * p - p * (1 # 2))
        by ring.
      rewrite Hx. Lqa.lra.
    - apply Qmult_le_compat_r; Lqa.lra. }
  assert (Hm : (0 <= m)%Z).
  { assert (0 < q / p) by (apply Qlt_shift_div_l; Lqa.lra).
    assert (Hlt : inject_Z (-1) < inject_Z m)
      by (change (inject_Z (-1)) with (-(1)); Lqa.lra).
    rewrite <- Zlt_Qlt in Hlt. lia. }
  exists (inject_Z m * p). split; [| split].
  - apply Qmult_le_0_compat; [| Lqa.lra].
    change 0 with (inject_Z 0). now rewrite <- Zle_Qle.
  - apply Qabs_Qle_condition. split; Lqa.lra.
  - destruct (Qle_bool (pow2 1024) (Qred (inject_Z m * p))) eqn:E.
    + right. split; [reflexivity |].
      apply Qle_bool_iff in E. now rewrite Qred_correct in E.
    + left. split; [reflexivity |].
      apply Qnot_le_lt. intros H. rewrite <- (Qred_correct (inject_Z m * p)) in H.
      apply Qle_bool_iff in H. congruence.
Qed.

Lemma Qred_inject_Z (z : Z) : Qred (inject_Z z) = inject_Z z.
Proof.
  unfold Qred, inject_Z.
  pose proof (Z.ggcd_gcd z 1) as Hg.
  pose proof (Z.ggcd_correct_divisors z 1) as Hd.
  destruct (Z.ggcd z 1) as [g [a b]]. simpl in *.
  rewrite Z.gcd_1_r in Hg. subst g. destruct Hd as [Ha Hb].
  rewrite Z.mul_1_l in Ha, Hb. subst a b. reflexivity.
Qed.

Lemma binary64_nonneg (q : Q) : 0 <= q -> nonneg (binary64 q).
Proof.
  intros Hq. unfold binary64. destruct (Qnum q) eqn:En.
  - simpl. Lqa.lra.
  - assert (H0 : 0 < q).
    { destruct q as [n d]. simpl in En. subst n. reflexivity. }
    destruct (round_pos_spec q H0) as (v & Hv & _ & [[-> _] | [-> _]]).
    + simpl. now rewrite Qred_correct.
    + reflexivity.
  - exfalso. destruct q as [n d]. simpl in En. subst n.
    unfold Qle in Hq. simpl in Hq. lia.
Qed.

Lemma binary64_error (q r : Q) :
  binary64 q = Num r ->
  Qabs (r - q) <= Qabs q * pow2 (-53) + pow2 (-1075).
Proof.
  unfold binary64. destruct (Qnum q) eqn:En.
  - intros [= <-].
    assert (E : q == 0) by (destruct q as [n d]; simpl in En; now subst n).
    rewrite E. vm_compute. discriminate.
  - assert (H0 : 0 < q).
    { destruct q as [n d]. simpl in En. subst n. reflexivity. }
    destruct (round_pos_spec q H0) as (v & _ & He & [[-> _] | [-> _]]);
      [| discriminate].
    intros [= <-]. rewrite Qred_correct.
    rewrite (Qabs_pos q) by Lqa.lra. exact He.
  - assert (H0 : 0 < - q).
    { destruct q as [n d]. simpl in En. subst n. reflexivity. }
    destruct (round_pos_spec (- q) H0) as (v & _ & He & [[-> _] | [-> _]]);
      [| discriminate].
    unfold opp. intros [= <-].
    assert (E : Qred (- Qred v) == - v)
      by (rewrite (Qred_correct (- Qred v)), (Qred_correct v); reflexivity).
    rewrite E.
    rewrite (Qabs_neg q) by Lqa.lra.
    setoid_replace (- v - q) with (- (v - - q)) by ring.
    rewrite Qabs_opp. exact He.
Qed.

Lemma binary64_finite (q : Q) :
  Qabs q < pow2 1023 -> exists r, binary64 q = Num r.
Proof.
  assert (Hover : forall x v, 0 < x -> x < pow2 1023 ->
             Qabs (v - x) <= x * pow2 (-53) + pow2 (-1075) ->
             pow2 1024 <= v -> False).
  { intros x v Hx Hb He Hv.
    apply Qabs_Qle_condition in He. destruct He as [_ He].
    assert (E24 : pow2 1024 == 2 * pow2 1023) by reflexivity.
    assert (E53 : pow2 (-53) <= 1 # 4) by (vm_compute; discriminate).
    assert (E75 : pow2 (-1075) <= 1 # 4) by (vm_compute; discriminate).
    assert (E23 : 1 <= pow2 1023) by (vm_compute; discriminate).
    assert (x * pow2 (-53) <= x * (1 # 4))
      by (apply Qmult_le_l; [exact Hx | exact E53]).
    Lqa.lra. }
  intros Hq. unfold binary64. destruct (Qnum q) eqn:En.
  - eauto.
  - assert (H0 : 0 < q).
    { destruct q as [n d]. simpl in En. subst n. reflexivity. }
    rewrite (Qabs_pos q) in Hq by Lqa.lra.
    destruct (round_pos_spec q H0) as (v & _ & He & [[-> _] | [_ Hv]]);
      [eauto |].
    destruct (Hover q v H0 Hq He Hv).
  - assert (H0 : 0 < - q).
    { destruct q as [n d]. simpl in En. subst n. reflexivity. }
    rewrite (Qabs_neg q) in Hq by Lqa.lra.
    destruct (round_pos_spec (- q) H0) as (v & _ & He & [[-> _] | [_ Hv]]);
      [simpl; eauto |].
    destruct (Hover (- q) v H0 Hq He Hv).
Qed.

Lemma round_pos_inject_Z (z : Z) :
  (0 < z < 2 ^ 53)%Z -> round_pos (inject_Z z) = Num (inject_Z z).
Proof.
  intros Hz. unfold round_pos. simpl Qnum. simpl Qden.
  assert (HL : ilog2 (Z.to_pos z) 1 = Z.log2 z).
  { unfold ilog2. rewrite Z2Pos.id by lia. simpl (Z.log2 1).
    rewrite Z.sub_0_r.
    pose proof (Z.log2_nonneg z) as H0.
    pose proof (proj1 (Z.log2_spec z (proj1 Hz))) as H1.
    destruct (0 <=? Z.log2 z)%Z eqn:E; [| apply Z.leb_gt in E; lia].
    rewrite Z.mul_1_l.
    destruct (z <? 2 ^ Z.log2 z)%Z eqn:E'; [| reflexivity].
    apply Z.ltb_lt in E'. lia. }
  rewrite HL.
  assert (Hl : (Z.log2 z < 53)%Z) by (apply Z.log2_lt_pow2; lia).
  set (e := Z.max (Z.log2 z - 52) (-1074)).
  assert (He : (-1074 <= e <= 0)%Z) by (unfold e; lia).
  assert (Hp : pow2 (- e) * pow2 e == 1).
  { rewrite <- pow2_add. replace (- e + e)%Z with 0%Z by lia. reflexivity. }
  pose proof (pow2_pos e) as Hpe.
  assert (Hx : inject_Z z / pow2 e == inject_Z (z * 2 ^ (- e))).
  { rewrite inject_Z_mult, <- pow2_inject_Z by lia.
    unfold Qdiv, pow2. now rewrite <- Qpower_opp. }
  rewrite (nearest_even_inject_Z _ _ Hx).
  assert (Hv : inject_Z (z * 2 ^ (- e)) * pow2 e == inject_Z z).
  { rewrite inject_Z_mult, <- pow2_inject_Z by lia.
    rewrite <- Qmult_assoc, Hp. ring. }
  rewrite (Qred_complete _ _ Hv), Qred_inject_Z.
  destruct (Qle_bool (pow2 1024) (inject_Z z)) eqn:E; [| reflexivity].
  apply Qle_bool_iff in E. rewrite pow2_inject_Z in E by lia.
  rewrite <- Zle_Qle in E.
  assert ((2 ^ 53 < 2 ^ 1024)%Z) by (apply Z.pow_lt_mono_r; lia). lia.
Qed.

(** An integer of magnitude below [2 ^ 53] is a binary64 value. *)
Lemma binary64_inject_Z (z : Z) :
  (Z.abs z < 2 ^ 53)%Z -> binary64 (inject_Z z) = Num (inject_Z z).
Proof.
  intros Hz. unfold binary64. simpl Qnum. destruct z as [| p | p].
  - reflexivity.
  - apply round_pos_inject_Z. lia.
  - change (- inject_Z (Z.neg p)) with (inject_Z (Z.pos p)).
    rewrite round_pos_inject_Z by lia. unfold opp. f_equal.
    change (- inject_Z (Z.pos p)) with (inject_Z (Z.neg p)).
    apply Qred_inject_Z.
Qed.
Lemma Math_round_nonneg (x : Q) : 0 <= x -> (0 <= Math_round x)%Z.
Proof.
  intros H. unfold Math_round.
  change 0%Z with (Qfloor 0). apply Qfloor_resp_le.
  apply Qle_trans with x; [exact H |].
  rewrite <- (Qplus_0_r x) at 1. apply Qplus_le_r. discriminate.
Qed.

(** [Math.round] moves by at most 1 when its argument moves by at most
    one half. *)
Lemma Math_round_close (x y : Q) :
  Qabs (x - y) <= 1 # 2 -> (Z.abs (Math_round x - Math_round y) <= 1)%Z.
Proof.
  intros H. apply Qabs_Qle_condition in H. destruct H as [Hl Hu].
  unfold Math_round.
  assert (Hmono : forall a b, a <= b + 1 -> (Qfloor a <= Qfloor b + 1)%Z).
  { intros a b Hab.
    pose proof (Qfloor_le a) as H1. pose proof (Qlt_floor b) as H2.
    rewrite inject_Z_plus in H2. change (inject_Z 1) with 1 in H2.
    assert (Hlt : inject_Z (Qfloor a) < inject_Z (Qfloor b + 2)).
    { rewrite inject_Z_plus. change (inject_Z 2) with 2. Lqa.lra. }
    rewrite <- Zlt_Qlt in Hlt. lia. }
  pose proof (Hmono (x + (1 # 2)) (y + (1 # 2))) as H1.
  pose proof (Hmono (y + (1 # 2)) (x + (1 # 2))) as H2.
  assert (Ha : x + (1 # 2) <= y + (1 # 2) + 1) by Lqa.lra.
  assert (Hb : y + (1 # 2) <= x + (1 # 2) + 1) by Lqa.lra.
  specialize (H1 Ha). specialize (H2 Hb). lia.
Qed.

(** The charge [round((u / c) * rate)] in binary64 arithmetic: for a charge
    and a rate up to [2 ^ 50] the two roundings of the product lose less
    than one half, so the amount is the exactly rounded charge or next to
    it. *)
Lemma product_accuracy (x1 rate : Q) :
  0 <= x1 -> 0 <= rate ->
  x1 <= pow2 50 -> rate <= pow2 50 -> x1 * rate <= pow2 50 ->
  exists r1 : Q,
    binary64 x1 = Num r1 /\ 0 <= r1 /\
    (exists r2, binary64 (r1 * rate) = Num r2 /\ 0 <= r2 /\
                Qabs (r2 - x1 * rate) <= 1 # 2) /\
    (exists r2, binary64 (rate * r1) = Num r2 /\ 0 <= r2 /\
                Qabs (r2 - x1 * rate) <= 1 # 2).
Proof.
  intros Hx Hr Bx Br BT.
  assert (E50 : pow2 50 == 1125899906842624) by reflexivity.
  assert (E53 : pow2 (-53) == 1 # 9007199254740992) by reflexivity.
  assert (E75 : pow2 (-1075) <= 1 # 1267650600228229401496703205376)
    by (vm_compute; discriminate).
  assert (P75 : 0 < pow2 (-1075)) by apply pow2_pos.
  assert (E23 : pow2 60 <= pow2 1023) by (vm_compute; discriminate).
  assert (E60 : pow2 60 == 1152921504606846976) by reflexivity.
  rewrite E50 in Bx, Br, BT.
  destruct (binary64_finite x1) as [r1 H1].
  { rewrite Qabs_pos by exact Hx. Lqa.lra. }
  pose proof (binary64_nonneg x1 Hx) as N1. rewrite H1 in N1. simpl in N1.
  pose proof (binary64_error x1 r1 H1) as Er1.
  rewrite (Qabs_pos x1) in Er1 by exact Hx. rewrite E53 in Er1.
  apply Qabs_Qle_condition in Er1. destruct Er1 as [Er1l Er1u].
  set (h := pow2 (-1075)) in *.
  (* the products that enter the bounds *)
  assert (Hh : h * rate <= (1 # 1267650600228229401496703205376) * rate)
    by (apply Qmult_le_compat_r; Lqa.lra).
  assert (Pu : r1 * rate
               <= x1 * rate + x1 * rate * (1 # 9007199254740992) + h * rate).
  { setoid_replace
      (x1 * rate + x1 * rate * (1 # 9007199254740992) + h * rate)
      with ((x1 + x1 * (1 # 9007199254740992) + h) * rate) by ring.
    apply Qmult_le_compat_r; Lqa.lra. }
  assert (Pl : x1 * rate - x1 * rate * (1 # 9007199254740992) - h * rate
               <= r1 * rate).
  { setoid_replace
      (x1 * rate - x1 * rate * (1 # 9007199254740992) - h * rate)
      with ((x1 - x1 * (1 # 9007199254740992) - h) * rate) by ring.
    apply Qmult_le_compat_r; Lqa.lra. }
  assert (P0 : 0 <= r1 * rate) by (apply Qmult_le_0_compat; assumption).
  assert (T0 : 0 <= x1 * rate) by (apply Qmult_le_0_compat; assumption).
  assert (Main : forall P, P == r1 * rate ->
            exists r2, binary64 P = Num r2 /\ 0 <= r2 /\
                       Qabs (r2 - x1 * rate) <= 1 # 2).
  { intros P EP.
    destruct (binary64_finite P) as [r2 H2].
    { rewrite EP, Qabs_pos by exact P0. Lqa.lra. }
    exists r2. split; [exact H2 |].
    assert (N2 : nonneg (binary64 P)) by (apply binary64_nonneg; Lqa.lra).
    rewrite H2 in N2. simpl in N2. split; [exact N2 |].
    pose proof (binary64_error P r2 H2) as Er2.
    rewrite EP in Er2. rewrite (Qabs_pos (r1 * rate)) in Er2 by exact P0.
    rewrite E53 in Er2. fold h in Er2.
    apply Qabs_Qle_condition in Er2. destruct Er2 as [Er2l Er2u].
    apply Qabs_Qle_condition. split; Lqa.lra. }
  exists r1. split; [exact H1 | split; [exact N1 | split]].
  - apply Main. reflexivity.
  - apply Main. apply Qmult_comm.
Qed.

(** The amount [Math.round((u / c) * rate)], in either order of the
    product. *)
Lemma charge_amount (u c rate : Q) :
  0 <= u -> 0 < c -> 0 <= rate ->
  u / c <= pow2 50 -> rate <= pow2 50 -> u / c * rate <= pow2 50 ->
  (exists a : Z,
      Math_round_number (fmul (fdiv (Num u) (Num c)) (Num rate))
      = Num (inject_Z a) /\
      (0 <= a)%Z /\ (Z.abs (a - Math_round (u / c * rate)) <= 1)%Z) /\
  (exists a : Z,
      Math_round_number (fmul (Num rate) (fdiv (Num u) (Num c)))
      = Num (inject_Z a) /\
      (0 <= a)%Z /\ (Z.abs (a - Math_round (u / c * rate)) <= 1)%Z).
Proof.
  intros Hu Hc Hr Bx Br BT.
  assert (Hx : 0 <= u / c).
  { apply Qle_shift_div_l; [exact Hc | Lqa.lra]. }
  assert (Ec : Qeq_bool c 0 = false).
  { destruct (Qeq_bool c 0) eqn:E; [| reflexivity].
    apply Qeq_bool_iff in E. Lqa.lra. }
  destruct (product_accuracy (u / c) rate Hx Hr Bx Br BT)
    as (r1 & H1 & _ & (r2 & H2 & N2 & A2) & (r3 & H3 & N3 & A3)).
  unfold fdiv. rewrite Ec, H1. unfold fmul. split.
  - exists (Math_round r2). rewrite H2. simpl. split; [reflexivity |].
    split; [now apply Math_round_nonneg | now apply Math_round_close].
  - exists (Math_round r3). rewrite H3. simpl. split; [reflexivity |].
    split; [now apply Math_round_nonneg | now apply Math_round_close].
Qed.

Lemma ilog2_upper (n d : positive) :
  inject_Z (Zpos n) < pow2 (ilog2 n d + 1) * inject_Z (Zpos d).
Proof.
  unfold ilog2.
  set (ln := Z.log2 (Zpos n)). set (ld := Z.log2 (Zpos d)).
  assert (Hln : (0 <= ln)%Z) by apply Z.log2_nonneg.
  assert (Hld : (0 <= ld)%Z) by apply Z.log2_nonneg.
  assert (Hn : inject_Z (Zpos n) < pow2 (ln + 1)).
  { rewrite pow2_inject_Z by lia. rewrite <- Zlt_Qlt.
    replace (ln + 1)%Z with (Z.succ ln) by lia.
    apply Z.log2_spec. reflexivity. }
  assert (Hd : pow2 ld <= inject_Z (Zpos d)).
  { rewrite pow2_inject_Z by exact Hld. rewrite <- Zle_Qle.
    apply Z.log2_spec. reflexivity. }
  match goal with
  | |- context [if ?c then _ else _] => destruct c eqn:E
  end.
  - replace (ln - ld - 1 + 1)%Z with (ln - ld)%Z by lia.
    destruct (0 <=? ln - ld)%Z eqn:Ek.
    + apply Z.leb_le in Ek. apply Z.ltb_lt in E.
      rewrite pow2_inject_Z by exact Ek.
      rewrite <- inject_Z_mult, <- Zlt_Qlt. lia.
    + apply Z.leb_gt in Ek. apply Z.ltb_lt in E.
      rewrite Zlt_Qlt in E. rewrite inject_Z_mult in E.
      rewrite <- pow2_inject_Z in E by lia.
      assert (H1 : pow2 (ln - ld) * pow2 (- (ln - ld)) == 1).
      { rewrite <- pow2_add. replace (ln - ld + - (ln - ld))%Z with 0%Z by lia.
        reflexivity. }
      pose proof (pow2_pos (ln - ld)) as Hp.
      apply Qle_lt_trans with
        (pow2 (ln - ld) * (inject_Z (Z.pos n) * pow2 (- (ln - ld)))).
      * setoid_replace (pow2 (ln - ld) *
                        (inject_Z (Z.pos n) * pow2 (- (ln - ld))))
          with (inject_Z (Z.pos n) * (pow2 (ln - ld) * pow2 (- (ln - ld))))
          by ring.
        rewrite H1. Lqa.lra.
      * apply Qmult_lt_l; [exact Hp | exact E].
  - apply Qlt_le_trans with (pow2 (ln - ld + 1) * pow2 ld).
    + rewrite <- pow2_add. replace (ln - ld + 1 + ld)%Z with (ln + 1)%Z by lia.
      exact Hn.
    + apply Qmult_le_l; [apply pow2_pos | exact Hd].
Qed.

Lemma pow2_le (a b : Z) : (a <= b)%Z -> pow2 a <= pow2 b.
Proof. intros H. apply Qpower_le_compat_l; [exact H | discriminate]. Qed.

(** [ilog2] depends on the rational only. *)
Lemma ilog2_comp (n n' d d' : positive) :
  Zpos n # d == Zpos n' # d' -> ilog2 n d = ilog2 n' d'.
Proof.
  intros H.
  assert (Hb : forall n d, pow2 (ilog2 n d) <= Zpos n # d /\
                           Zpos n # d < pow2 (ilog2 n d + 1)).
  { intros a b. rewrite (Qmake_Qdiv (Zpos a) b). split.
    - apply Qle_shift_div_l; [reflexivity | apply ilog2_lower].
    - apply Qlt_shift_div_r; [reflexivity | apply ilog2_upper]. }
  destruct (Hb n d) as [L1 U1]. destruct (Hb n' d') as [L2 U2].
  rewrite H in L1, U1.
  destruct (Z.lt_trichotomy (ilog2 n d) (ilog2 n' d')) as [Hlt | [He | Hgt]];
    [| exact He |]; exfalso.
  - assert (pow2 (ilog2 n d + 1) <= pow2 (ilog2 n' d')) by (apply pow2_le; lia).
    Lqa.lra.
  - assert (pow2 (ilog2 n' d' + 1) <= pow2 (ilog2 n d)) by (apply pow2_le; lia).
    Lqa.lra.
Qed.

Lemma nearest_even_comp (x y : Q) : x == y -> nearest_even x = nearest_even y.
Proof.
  intros H. unfold nearest_even.
  rewrite (Qfloor_comp _ _ H).
  assert (E : Qcompare (x - inject_Z (Qfloor y)) (1 # 2)
              = Qcompare (y - inject_Z (Qfloor y)) (1 # 2))
    by now rewrite H.
  now rewrite E.
Qed.

Lemma round_pos_comp (x y : Q) :
  0 < x -> x == y -> round_pos x = round_pos y.
Proof.
  intros Hx H. unfold round_pos.
  assert (Hy : 0 < y) by now rewrite <- H.
  assert (EL : ilog2 (Z.to_pos (Qnum x)) (Qden x)
               = ilog2 (Z.to_pos (Qnum y)) (Qden y)).
  { apply ilog2_comp.
    destruct x as [a b], y as [a' b']. simpl.
    unfold Qlt in Hx, Hy. simpl in Hx, Hy.
    rewrite !Z2Pos.id by lia. exact H. }
  rewrite EL.
  set (e := Z.max _ _).
  assert (Em : nearest_even (x / pow2 e) = nearest_even (y / pow2 e))
    by (apply nearest_even_comp; now rewrite H).
  now rewrite Em.
Qed.

(** Rounding depends on the rational only. *)
Lemma binary64_comp (x y : Q) : x == y -> binary64 x = binary64 y.
Proof.
  intros H. unfold binary64.
  destruct x as [a b], y as [a' b']. simpl Qnum.
  unfold Qeq in H. simpl in H.
  destruct a as [| p | p], a' as [| p' | p']; try reflexivity; try lia.
  - apply round_pos_comp; [reflexivity | exact H].
  - f_equal. apply round_pos_comp; [reflexivity |].
    unfold Qeq, Qopp. simpl. lia.
Qed.

(** Sums and products of integers are exact below [2 ^ 53]. *)
Lemma binary64_exact (x : Q) (z : Z) :
  x == inject_Z z -> (Z.abs z < 2 ^ 53)%Z -> binary64 x = Num (inject_Z z).
Proof.
  intros H Hz. rewrite (binary64_comp _ _ H). now apply binary64_inject_Z.
Qed.

End NumberFacts.

(** ** Distances *)

Section GeoFacts.
Import Geo.
Local Open Scope R_scope.

Lemma sin_half_sq_swap (x y : R) :
  sin (((x - y) * PI) / 180 / 2) * sin (((x - y) * PI) / 180 / 2) =
  sin (((y - x) * PI) / 180 / 2) * sin (((y - x) * PI) / 180 / 2).
Proof.
  replace (((x - y) * PI) / 180 / 2) with (- (((y - x) * PI) / 180 / 2))
    by lra.
  rewrite sin_neg. ring.
Qed.

Lemma haversine_sym (lat1 lng1 lat2 lng2 : R) :
  haversineDistance lat1 lng1 lat2 lng2 = haversineDistance lat2 lng2 lat1 lng1.
Proof.
  unfold haversineDistance. cbv zeta.
  rewrite (sin_half_sq_swap lat2 lat1).
  replace (cos (lat1 * PI / 180) * cos (lat2 * PI / 180) *
           sin ((lng2 - lng1) * PI / 180 / 2) *
           sin ((lng2 - lng1) * PI / 180 / 2))
    with (cos (lat2 * PI / 180) * cos (lat1 * PI / 180) *
          (sin ((lng2 - lng1) * PI / 180 / 2) *
           sin ((lng2 - lng1) * PI / 180 / 2))) by ring.
  rewrite (sin_half_sq_swap lng2 lng1).
  replace (cos (lat2 * PI / 180) * cos (lat1 * PI / 180) *
           (sin ((lng1 - lng2) * PI / 180 / 2) *
            sin ((lng1 - lng2) * PI / 180 / 2)))
    with (cos (lat2 * PI / 180) * cos (lat1 * PI / 180) *
          sin ((lng1 - lng2) * PI / 180 / 2) *
          sin ((lng1 - lng2) * PI / 180 / 2)) by ring.
  reflexivity.
Qed.

Lemma atan2_0_1 : atan2 0 1 = 0.
Proof.
  unfold atan2. destruct (Rlt_dec 0 1) as [_ | H]; [| lra].
  replace (0 / 1) with 0 by lra. apply atan_0.
Qed.

Lemma haversine_same (lat lng : R) : haversineDistance lat lng lat lng = 0.
Proof.
  unfold haversineDistance. cbv zeta.
  replace ((lat - lat) * PI / 180 / 2) with 0 by lra.
  replace ((lng - lng) * PI / 180 / 2) with 0 by lra.
  rewrite sin_0.
  replace (0 * 0 + cos (lat * PI / 180) * cos (lat * PI / 180) * 0 * 0)
    with 0 by ring.
  rewrite sqrt_0. replace (1 - 0) with 1 by lra. rewrite sqrt_1.
  rewrite atan2_0_1. ring.
Qed.

(** C7. [haversineDistance] is a function of its four arguments that is
    symmetric in the two points, and it is 0 when the two points are the
    same. *)
Theorem haversineDistance_symmetric_and_zero :
  (forall lat1 lng1 lat2 lng2 : R,
      haversineDistance lat1 lng1 lat2 lng2 =
      haversineDistance lat2 lng2 lat1 lng1) /\
  (forall lat lng : R, haversineDistance lat lng lat lng = 0).
Proof.
  split.
  - exact haversine_sym.
  - exact haversine_same.
Qed.

Lemma lt_dist_step_le (d : R) (acc : dist) :
  le_dist (if lt_dist d acc then Finite d else acc) d.
Proof.
  destruct acc as [m |]; simpl.
  - destruct (Rlt_dec d m); simpl; lra.
  - lra.
Qed.

(** The loop never raises the running minimum, stays below every segment it
    visits, and ends on the initial value or on one of the segments. *)
Lemma routeLoop_spec (lat lng : R) (coords : list (R * R)) :
  forall acc : dist,
    (forall m, le_dist acc m -> le_dist (routeLoop lat lng coords acc) m) /\
    (forall i, (i + 1 < List.length coords)%nat ->
               le_dist (routeLoop lat lng coords acc)
                       (segmentAt lat lng coords i)) /\
    (routeLoop lat lng coords acc = acc \/
     exists i, (i + 1 < List.length coords)%nat /\
               routeLoop lat lng coords acc =
               Finite (segmentAt lat lng coords i)).
Proof.
  induction coords as [| [aLng aLat] rest IH]; intros acc.
  - simpl. repeat split; auto. intros i Hi. inversion Hi.
  - destruct rest as [| [bLng bLat] rest'].
    + simpl. repeat split; auto. intros i Hi. simpl in Hi. lia.
    + set (d := pointToSegmentDistance lat lng aLat aLng bLat bLng).
      set (acc' := if lt_dist d acc then Finite d else acc).
      change (routeLoop lat lng ((aLng, aLat) :: (bLng, bLat) :: rest') acc)
        with (routeLoop lat lng ((bLng, bLat) :: rest') acc').
      destruct (IH acc') as (Hmono & Hall & Hatt).
      split; [| split].
      * intros m Hm. apply Hmono. subst acc'.
        destruct acc as [x |]; simpl in *; [| tauto].
        destruct (Rlt_dec d x); simpl; lra.
      * intros [| i] Hi.
        -- change (segmentAt lat lng ((aLng, aLat) :: (bLng, bLat) :: rest') 0)
             with d.
           apply Hmono. subst acc'. apply lt_dist_step_le.
        -- change (segmentAt lat lng ((aLng, aLat) :: (bLng, bLat) :: rest')
                     (S i))
             with (segmentAt lat lng ((bLng, bLat) :: rest') i).
           apply Hall. simpl in Hi |- *. lia.
      * destruct Hatt as [Heq | (i & Hi & Heq)].
        -- rewrite Heq. subst acc'. destruct (lt_dist d acc).
           ++ right. exists 0%nat. split; [simpl; lia | reflexivity].
           ++ left. reflexivity.
        -- right. exists (S i). split; [simpl in Hi |- *; lia |].
           rewrite Heq. reflexivity.
Qed.

Lemma norm_positive (dx dy : R) :
  Reqb dx 0 && Reqb dy 0 = false -> dx * dx + dy * dy <> 0.
Proof.
  unfold Reqb. intros H.
  assert (Hsq : forall z : R, 0 <= z * z) by (intros z; nra).
  destruct (Req_dec_T dx 0) as [-> | Hdx].
  - destruct (Req_dec_T dy 0) as [-> | Hdy]; [discriminate |].
    assert (0 < dy * dy) by nra. lra.
  - assert (0 < dx * dx) by nra. pose proof (Hsq dy). lra.
Qed.

Lemma segment_end_points_zero (ax ay bx by_ : R) :
  pointToSegmentDistance ax ay ax ay bx by_ = 0 /\
  pointToSegmentDistance bx by_ ax ay bx by_ = 0.
Proof.
  unfold pointToSegmentDistance. cbv zeta.
  destruct (Reqb (bx - ax) 0 && Reqb (by_ - ay) 0) eqn:E.
  - split; [apply haversine_same |].
    apply andb_true_iff in E. destruct E as [Ex Ey]. unfold Reqb in Ex, Ey.
    destruct (Req_dec_T (bx - ax) 0) as [Hx |]; [| discriminate].
    destruct (Req_dec_T (by_ - ay) 0) as [Hy |]; [| discriminate].
    replace bx with ax by lra. replace by_ with ay by lra.
    apply haversine_same.
  - pose proof (norm_positive _ _ E) as Hn. split.
    + replace (((ax - ax) * (bx - ax) + (ay - ay) * (by_ - ay)) /
               ((bx - ax) * (bx - ax) + (by_ - ay) * (by_ - ay)))
        with 0 by (field; exact Hn).
      rewrite (Rmin_right 1 0) by lra. rewrite (Rmax_left 0 0) by lra.
      replace (ax + 0 * (bx - ax)) with ax by ring.
      replace (ay + 0 * (by_ - ay)) with ay by ring.
      apply haversine_same.
    + replace (((bx - ax) * (bx - ax) + (by_ - ay) * (by_ - ay)) /
               ((bx - ax) * (bx - ax) + (by_ - ay) * (by_ - ay)))
        with 1 by (field; exact Hn).
      rewrite (Rmin_left 1 1) by lra. rewrite (Rmax_right 0 1) by lra.
      replace (ax + 1 * (bx - ax)) with bx by ring.
      replace (ay + 1 * (by_ - ay)) with by_ by ring.
      apply haversine_same.
Qed.

(** On distances that are numbers the loop is the one above. *)
Lemma routeLoop_On (lat lng : R) (coords : list (R * R)) (acc : dist) :
  routeLoop lat lng coords acc
  = routeLoopOn
      (fun a b =>
         Some (pointToSegmentDistance lat lng (snd a) (fst a) (snd b) (fst b)))
      coords acc.
Proof.
  revert acc. induction coords as [| [aLng aLat] rest IH]; intros acc;
    [reflexivity |].
  destruct rest as [| [bLng bLat] rest']; [reflexivity |].
  change (routeLoop lat lng ((aLng, aLat) :: (bLng, bLat) :: rest') acc)
    with (routeLoop lat lng ((bLng, bLat) :: rest')
            (if lt_dist (pointToSegmentDistance lat lng aLat aLng bLat bLng)
                  acc
             then Finite (pointToSegmentDistance lat lng aLat aLng bLat bLng)
             else acc)).
  rewrite IH. reflexivity.
Qed.

Lemma segmentOn_cons {C : Type} (distance : C -> C -> option R) (a : C)
    (coords : list C) (i : nat) :
  segmentOn distance (a :: coords) (S i) = segmentOn distance coords i.
Proof. reflexivity. Qed.

(** The loop never raises the running minimum, stays below every segment
    distance that is a number, and ends on the initial value or on one of
    these distances. *)
Lemma routeLoopOn_spec {C : Type} (distance : C -> C -> option R)
    (coords : list C) :
  forall acc : dist,
    (forall m, le_dist acc m -> le_dist (routeLoopOn distance coords acc) m) /\
    (forall i x, segmentOn distance coords i = Some x ->
                 le_dist (routeLoopOn distance coords acc) x) /\
    (routeLoopOn distance coords acc = acc \/
     exists i d, segmentOn distance coords i = Some d /\
                 routeLoopOn distance coords acc = Finite d).
Proof.
  induction coords as [| a rest IH]; intros acc.
  - simpl. repeat split; auto. intros [| i] x H; discriminate H.
  - destruct rest as [| b rest'].
    + simpl. repeat split; auto. intros [| i] x H; [discriminate H |].
      destruct i; discriminate H.
    + set (acc' := match distance a b with
                   | Some d => if lt_dist d acc then Finite d else acc
                   | None => acc
                   end).
      change (routeLoopOn distance (a :: b :: rest') acc)
        with (routeLoopOn distance (b :: rest') acc').
      destruct (IH acc') as (Hmono & Hall & Hatt).
      assert (Hacc : forall m, le_dist acc m -> le_dist acc' m).
      { intros m Hm. subst acc'. destruct (distance a b) as [d |]; [| exact Hm].
        destruct acc as [x |]; simpl in *; [| tauto].
        destruct (Rlt_dec d x); simpl; lra. }
      split; [| split].
      * intros m Hm. apply Hmono, Hacc, Hm.
      * intros [| i] x Hx.
        -- change (distance a b = Some x) in Hx.
           apply Hmono. subst acc'. rewrite Hx. apply lt_dist_step_le.
        -- rewrite segmentOn_cons in Hx. exact (Hall i x Hx).
      * destruct Hatt as [Heq | (i & d & Hi & Heq)].
        -- rewrite Heq. subst acc'.
           destruct (distance a b) as [d |] eqn:Ed; [| left; reflexivity].
           destruct (lt_dist d acc); [| left; reflexivity].
           right. exists 0%nat, d. split; [exact Ed | reflexivity].
        -- right. exists (S i), d. split; [| exact Heq].
           rewrite segmentOn_cons. exact Hi.
Qed.

(** A route of two coordinates whose segment distance is [NaN] gives
    [Infinity], which is not the minimum of the segment distances: here the
    point has the latitude [NaN]. *)
Lemma pointToRouteDistance_NaN_segment :
  let route := [(Some 85, Some 27); (Some 86, Some 28)] in
  let distance := pointToSegmentDistanceNaN None (Some 85) in
  List.length route = 2%nat /\
  segmentOn distance route 0 = None /\
  pointToRouteDistanceOn distance route = Infinity.
Proof. repeat split. Qed.

(** C10, amended.  [pointToRouteDistance] returns the minimum of the
    segment distances that are numbers, taken over the consecutive
    coordinate pairs of the polyline: the result is below each of them and
    equal to one of them.  It returns [Infinity] exactly when no segment
    distance is a number, in particular for a polyline with fewer than two
    coordinates. *)
Theorem pointToRouteDistance_minimum_of_numbers {C : Type}
    (distance : C -> C -> option R) (routeCoords : list C) :
  let result := pointToRouteDistanceOn distance routeCoords in
  ((List.length routeCoords < 2)%nat -> result = Infinity) /\
  (result = Infinity <->
   forall i, segmentOn distance routeCoords i = None) /\
  (forall d : R,
      result = Finite d <->
      (exists i, segmentOn distance routeCoords i = Some d) /\
      (forall i x, segmentOn distance routeCoords i = Some x -> d <= x)).
Proof.
  intros result. subst result. unfold pointToRouteDistanceOn.
  destruct (routeLoopOn_spec distance routeCoords Infinity)
    as (_ & Hall & Hatt).
  assert (Hinf : routeLoopOn distance routeCoords Infinity = Infinity <->
                 forall i, segmentOn distance routeCoords i = None).
  { split.
    - intros Heq i. destruct (segmentOn distance routeCoords i) as [x |] eqn:E;
        [| reflexivity].
      specialize (Hall i x E). rewrite Heq in Hall. contradiction.
    - intros Hnone. destruct Hatt as [Heq | (i & d & Hi & _)]; [exact Heq |].
      rewrite Hnone in Hi. discriminate. }
  assert (Hfin : forall d,
             routeLoopOn distance routeCoords Infinity = Finite d ->
             (exists i, segmentOn distance routeCoords i = Some d) /\
             (forall i x, segmentOn distance routeCoords i = Some x ->
                          d <= x)).
  { intros d Hd. split.
    - destruct Hatt as [Heq | (i & d' & Hi & Heq)]; [congruence |].
      exists i. congruence.
    - intros i x Hx. specialize (Hall i x Hx). rewrite Hd in Hall.
      exact Hall. }
  split; [| split; [exact Hinf |]].
  - intros Hlen. apply Hinf. intros i. unfold segmentOn.
    destruct routeCoords as [| a [| b rest]]; simpl in Hlen; try lia.
    + destruct i; reflexivity.
    + destruct i as [| i]; [reflexivity |]. destruct i; reflexivity.
  - intros d. split; [apply Hfin |].
    intros [(i & Hi) Hmin].
    destruct (routeLoopOn distance routeCoords Infinity) as [d' |] eqn:E.
    + destruct (Hfin d' eq_refl) as [(j & Hj) Hmin'].
      pose proof (Hmin j d' Hj). pose proof (Hmin' i d Hi).
      f_equal. lra.
    + rewrite (proj1 Hinf eq_refl i) in Hi. discriminate.
Qed.

(** The statement of C10 for the point (27, 85) and a route that starts at
    it and ends in a coordinate that is [NaN]: the first segment is at
    distance 0 and the second at [NaN]; and for a route of one
    coordinate. *)
Lemma pointToRouteDistance_minimum_of_numbers_witness :
  pointToRouteDistanceOn (pointToSegmentDistanceNaN (Some 27) (Some 85))
    [(Some 85, Some 27); (Some 86, Some 28); (None, None)]
  = Finite 0 /\
  pointToRouteDistanceOn (pointToSegmentDistanceNaN (Some 27) (Some 85))
    [(Some 85, Some 27)]
  = Infinity.
Proof.
  split.
  - destruct (pointToRouteDistance_minimum_of_numbers
                (pointToSegmentDistanceNaN (Some 27) (Some 85))
                [(Some 85, Some 27); (Some 86, Some 28); (None, None)])
      as (_ & _ & H).
    apply H.
    assert (E0 : pointToSegmentDistance 27 85 27 85 28 86 = 0)
      by apply segment_end_points_zero.
    split.
    + exists 0%nat. unfold segmentOn, pointToSegmentDistanceNaN. simpl.
      now rewrite E0.
    + intros [| [| i]] x; unfold segmentOn, pointToSegmentDistanceNaN.
      * simpl. rewrite E0. intros [= <-]. lra.
      * simpl. intros Hx. discriminate Hx.
      * replace (S (S i) + 1)%nat with (S (S (S i))) by lia.
        destruct i as [| [| i]]; simpl; intros Hx; discriminate Hx.
  - destruct (pointToRouteDistance_minimum_of_numbers
                (pointToSegmentDistanceNaN (Some 27) (Some 85))
                [(Some 85, Some 27)]) as (H & _).
    apply H. simpl. lia.
Defined.

End GeoFacts.

(** ** Facts about the store *)

Section StoreFacts.
Import JS Store.

Lemma ident_eqb_eq (a b : ident) : ident_eqb a b = true <-> a = b.
Proof.
  destruct a as [x | x], b as [y | y]; simpl;
    try (split; [discriminate | discriminate]);
    rewrite String.eqb_eq; split; congruence.
Qed.

Lemma BookingStatus_eqb_eq (a b : BookingStatus) :
  BookingStatus_eqb a b = true <-> a = b.
Proof. destruct a, b; simpl; split; congruence. Qed.

Lemma includes_In (l : list BookingStatus) (s : BookingStatus) :
  includes l s = true <-> In s l.
Proof.
  unfold includes. rewrite existsb_exists. split.
  - intros (x & Hin & Heq). apply BookingStatus_eqb_eq in Heq. now subst.
  - intros Hin. exists s. split; [exact Hin | now apply BookingStatus_eqb_eq].
Qed.

Lemma length_update_first {A : Type} (test : A -> bool) (f : A -> A)
    (l : list A) :
  List.length (update_first test f l) = List.length l.
Proof.
  induction l as [| x l IH]; simpl; [reflexivity |].
  destruct (test x); simpl; congruence.
Qed.

Lemma update_first_none {A : Type} (test : A -> bool) (f : A -> A)
    (l : list A) :
  find test l = None -> update_first test f l = l.
Proof.
  induction l as [| x l IH]; simpl; [reflexivity |].
  destruct (test x); [discriminate |]. intros H. now rewrite IH.
Qed.

(** After an update that keeps the tested key, the first match is the
    updated document. *)
Lemma find_update_first {A : Type} (test : A -> bool) (f : A -> A)
    (l : list A) (x : A) :
  find test l = Some x -> test (f x) = true ->
  find test (update_first test f l) = Some (f x).
Proof.
  induction l as [| y l IH]; simpl; [discriminate |].
  destruct (test y) eqn:E.
  - intros [= ->] Hf. simpl. now rewrite Hf.
  - intros Hx Hf. simpl. rewrite E. now apply IH.
Qed.

End StoreFacts.

(** ** Booking creation and payment initiation *)

Section InitiateFacts.
Import JS Store Env PaymentsInitiate.

Lemma overlaps_blocking (stationId canonical : string) (start end_ : Z)
    (b : Booking) :
  overlaps stationId canonical start end_ b = true <->
  blocking stationId canonical start end_ b.
Proof.
  unfold overlaps, blocking.
  rewrite !andb_true_iff, !ident_eqb_eq, includes_In, Z.ltb_lt, Z.gtb_gt.
  tauto.
Qed.

Lemma find_overlaps_iff (stationId canonical : string) (start end_ : Z)
    (bs : list Booking) :
  (exists b, In b bs /\ blocking stationId canonical start end_ b) <->
  find (overlaps stationId canonical start end_) bs <> None.
Proof.
  split.
  - intros (b & Hin & Hb) Hnone.
    apply (find_none _ _ Hnone) in Hin.
    apply overlaps_blocking in Hb. congruence.
  - destruct (find _ bs) as [b |] eqn:E; [| congruence].
    intros _. apply find_some in E. exists b.
    split; [tauto | apply overlaps_blocking; tauto].
Qed.

Lemma resolveUser_collections (env : Env) (userId : string) (db db1 : DB)
    (user : User) :
  resolveUser env userId db = Returned (Some (user, db1)) ->
  Bookings db1 = Bookings db /\ Stations db1 = Stations db.
Proof.
  unfold resolveUser.
  destruct (User_findOne db userId); [intros [= _ <-]; auto |].
  destruct (currentUser env); [| discriminate].
  split_match; [discriminate | intros [= _ <-]; auto].
Qed.

(** The checks before the transaction read the store and may add the
    caller's user document; bookings and stations are untouched. *)
Lemma checks_collections (env : Env) (req : Request) (db db1 : DB)
    (r : Response + Checked) :
  checks env req db = (r, db1) ->
  Bookings db1 = Bookings db /\ Stations db1 = Stations db.
Proof.
  unfold checks.
  destruct (present (auth_userId env)) as [userId |];
    [| intros [= _ <-]; auto].
  destruct (resolveUser env userId db) as [[[user db2] |] | m] eqn:Hu;
    [| intros [= _ <-]; auto | intros [= _ <-]; auto].
  apply resolveUser_collections in Hu.
  repeat split_match; intros [= _ <-]; exact Hu.
Qed.

(** What a passed check records about the request. *)
Lemma checks_passed (env : Env) (req : Request) (db db1 : DB) (c : Checked) :
  checks env req db = (inr c, db1) ->
  present (auth_userId env) = Some (c_userId c) /\
  present (req_stationId req) = Some (c_stationId c) /\
  present (req_portId req) = Some (c_portId c) /\
  req_startTime req = Some (c_start c) /\
  Number (req_estimatedDuration req) = Num (c_durationMinutes c) /\
  findPort (c_station c) (c_portId c) = Some (c_port c) /\
  c_canonical c = canonicalPortId (c_port c) (c_portId c) /\
  TimeClip
    (fadd (Num (inject_Z (c_start c)))
       (fmul (fmul (Num (c_durationMinutes c)) (Num 60)) (Num 1000)))
  = Some (c_end c) /\
  c_totalAmountNPR c
  = Math_round_number
      (fmul (perHourNPR (c_station c))
         (fdiv (Num (c_durationMinutes c)) (Num 60))) /\
  c_totalAmountPaisa c
  = Math_round_number (fmul (c_totalAmountNPR c) (Num 100)).
Proof.
  unfold checks.
  repeat split_match; try discriminate; intros [= <- _];
    cbn [c_userId c_user c_stationId c_portId c_station c_port c_canonical
         c_durationMinutes c_totalAmountNPR c_totalAmountPaisa c_start c_end];
    repeat split; congruence.
Qed.

End InitiateFacts.

Section InitiateClaims.
Import JS Store Env PaymentsInitiate.

Lemma afterCommit_collections (env : Env) (req : Request) (c : Checked)
    (booking : Booking) (db : DB) :
  (code (fst (afterCommit env req c booking db)) = 500%Z \/
   code (fst (afterCommit env req c booking db)) = 200%Z) /\
  List.length (Bookings (snd (afterCommit env req c booking db))) =
    List.length (Bookings db) /\
  Stations (snd (afterCommit env req c booking db)) = Stations db.
Proof.
  unfold afterCommit.
  destruct (khaltiInitiate env _); simpl.
  - rewrite length_update_first. auto.
  - auto.
Qed.

(** The overlap contract as the query implements it.  For every
    booking-creation request that reaches the transaction, the handler
    answers 409 and inserts no booking if and only if some stored booking
    whose station and port ids are the request's strings, with status
    pending, confirmed or active, satisfies [startTime < newEnd] and
    [endTime > newStart]; otherwise exactly one booking is inserted.  A
    booking that ends when the new one starts does not block it. *)
Theorem initiate_conflict_iff_overlap
    (env : Env) (req : Request) (db db1 : DB) (c : Checked) :
  checks env req db = (inr c, db1) ->
  let conflict :=
    exists b, In b (Bookings db) /\
              blocking (c_stationId c) (c_canonical c) (c_start c) (c_end c) b
  in
  (conflict <->
   code (fst (POST env req db)) = 409%Z /\
   Bookings (snd (POST env req db)) = Bookings db) /\
  (~ conflict ->
   code (fst (POST env req db)) <> 409%Z /\
   List.length (Bookings (snd (POST env req db))) =
     S (List.length (Bookings db))) /\
  (forall b, endTime b = c_start c ->
             ~ blocking (c_stationId c) (c_canonical c) (c_start c) (c_end c) b).
Proof.
  intros Hc conflict.
  destruct (checks_collections _ _ _ _ _ Hc) as [HB _].
  assert (Hfind : conflict <->
            find (overlaps (c_stationId c) (c_canonical c) (c_start c)
                    (c_end c)) (Bookings db1) <> None).
  { rewrite HB. apply find_overlaps_iff. }
  unfold POST. rewrite Hc. unfold transaction.
  destruct (find _ (Bookings db1)) as [b0 |] eqn:E.
  - simpl. split; [| split].
    + split; [intros _; split; [reflexivity | exact HB] | intros _].
      apply Hfind. discriminate.
    + intros Hn. exfalso. apply Hn, Hfind. discriminate.
    + intros b Hend (_ & _ & _ & _ & Hgt). lia.
  - set (booking := Booking_new _ _ _ _ _ _ _ _ _).
    destruct (afterCommit_collections env req c booking
                (Booking_create db1 booking)) as (Hcode & Hlen & _).
    simpl in Hlen. rewrite length_app, HB in Hlen. simpl in Hlen.
    split; [| split].
    + split.
      * intros Hconf. apply Hfind in Hconf. congruence.
      * intros [H409 _]. exfalso. destruct Hcode as [H | H];
          rewrite H in H409; discriminate.
    + intros _. split.
      * destruct Hcode as [H | H]; rewrite H; discriminate.
      * rewrite Hlen. lia.
    + intros b Hend (_ & _ & _ & _ & Hgt). lia.
Qed.

(** C6. The transaction either leaves the store as it was or inserts the
    pending booking; when the gateway call that follows fails, the handler
    answers 500 and the store keeps that booking, still pending and without
    a payment reference. *)
Theorem initiate_gateway_failure_keeps_pending
    (env : Env) (req : Request) (db db1 : DB) (c : Checked) (m : string) :
  checks env req db = (inr c, db1) ->
  (~ exists b, In b (Bookings db) /\
               blocking (c_stationId c) (c_canonical c) (c_start c) (c_end c) b) ->
  khaltiInitiate env (khaltiRequest env c (newObjectId env)) = Thrown m ->
  exists booking,
    transaction env (c_user c) (c_userId c) (c_stationId c) (c_canonical c)
      (c_start c) (c_durationMinutes c) (c_end c) db1
    = (Some booking, Booking_create db1 booking) /\
    POST env req db = (caught m, Booking_create db1 booking) /\
    code (caught m) = 500%Z /\
    Bookings (snd (POST env req db)) = Bookings db ++ [booking] /\
    Stations (snd (POST env req db)) = Stations db /\
    b_id booking = newObjectId env /\
    status booking = pending /\
    khaltiPidx booking = None /\
    stationId booking = Str (c_stationId c) /\
    portId booking = Str (c_canonical c) /\
    startTime booking = c_start c /\
    endTime booking = c_end c.
Proof.
  intros Hc Hfree Hfail.
  destruct (checks_collections _ _ _ _ _ Hc) as [HB HS].
  assert (E : find (overlaps (c_stationId c) (c_canonical c) (c_start c)
                      (c_end c)) (Bookings db1) = None).
  { destruct (find _ (Bookings db1)) eqn:E; [| reflexivity].
    exfalso. apply Hfree. rewrite <- HB. apply find_overlaps_iff.
    congruence. }
  eexists. split.
  - unfold transaction. rewrite E. reflexivity.
  - unfold POST. rewrite Hc. unfold transaction. rewrite E.
    unfold afterCommit.
    assert (Hid : forall b0 : Booking, b_id b0 = newObjectId env ->
              khaltiInitiate env (khaltiRequest env c (b_id b0)) = Thrown m).
    { intros b0 ->. exact Hfail. }
    rewrite Hid.
    + simpl. rewrite HB, HS. repeat split; reflexivity.
    + repeat split_match; reflexivity.
Qed.

(** On the example store: user_2 asks for port P1, booked 10:00 to 11:00.
    The slot 10:30 to 11:30 is refused with 409 and nothing is stored; the
    slot 11:00 to 12:00 is taken. *)
Lemma initiate_conflict_iff_overlap_witness :
  let env :=
    Scenario.env_of (Some "user_2"%string) (Some "key"%string) 0
      Scenario.khaltiOk (Returned "Completed"%string) in
  (code (fst (POST env (Scenario.slot 37800000) Scenario.db0)) = 409%Z /\
   Bookings (snd (POST env (Scenario.slot 37800000) Scenario.db0)) =
     Bookings Scenario.db0) /\
  (code (fst (POST env (Scenario.slot 39600000) Scenario.db0)) <> 409%Z /\
   List.length (Bookings (snd (POST env (Scenario.slot 39600000) Scenario.db0)))
     = 2%nat).
Proof.
  intros env. split.
  - eassert (Hc : checks env (Scenario.slot 37800000) Scenario.db0
                  = (inr _, _)) by (vm_compute; reflexivity).
    destruct (initiate_conflict_iff_overlap env _ _ _ _ Hc) as (H & _ & _).
    apply H. exists Scenario.bookingA. split; [vm_compute; auto |].
    vm_compute. repeat split; auto; discriminate.
  - eassert (Hc : checks env (Scenario.slot 39600000) Scenario.db0
                  = (inr _, _)) by (vm_compute; reflexivity).
    destruct (initiate_conflict_iff_overlap env _ _ _ _ Hc) as (_ & H & _).
    apply H. intros (b & [<- | []] & (_ & _ & _ & _ & Hgt)).
    vm_compute in Hgt. discriminate.
Defined.

(** On the example store: the gateway is down when user_2 books the free
    slot 11:00 to 12:00; the answer is 500 and the pending booking stays. *)
Lemma initiate_gateway_failure_keeps_pending_witness :
  let env :=
    Scenario.env_of (Some "user_2"%string) (Some "key"%string) 0
      (Thrown "Khalti is unreachable"%string) (Returned "Completed"%string) in
  exists booking,
    code (fst (POST env (Scenario.slot 39600000) Scenario.db0)) = 500%Z /\
    Bookings (snd (POST env (Scenario.slot 39600000) Scenario.db0)) =
      [Scenario.bookingA; booking] /\
    status booking = pending /\ khaltiPidx booking = None.
Proof.
  intros env.
  eassert (Hc : checks env (Scenario.slot 39600000) Scenario.db0
                = (inr _, _)) by (vm_compute; reflexivity).
  destruct (initiate_gateway_failure_keeps_pending env _ _ _ _
              "Khalti is unreachable"%string Hc)
    as (booking & _ & HP & _ & HB & _ & _ & Hs & Hk & _).
  - intros (b & [<- | []] & (_ & _ & _ & _ & Hgt)).
    vm_compute in Hgt. discriminate.
  - reflexivity.
  - exists booking. rewrite HP. repeat split; auto.
Defined.

End InitiateClaims.

(** ** Payment verification *)

Section VerifyFacts.
Import JS Store Env PaymentsVerify.

Lemma storedBooking_id (db : DB) (h : string) (b : Booking) :
  storedBooking db h = Some b -> b_id b = h.
Proof.
  unfold storedBooking. intros H. apply find_some in H.
  now apply String.eqb_eq.
Qed.

(** Saving a document makes it the stored one under its [_id]. *)
Lemma storedBooking_save (db : DB) (b b' : Booking) :
  storedBooking db (b_id b) = Some b -> b_id b' = b_id b ->
  storedBooking (Booking_save db b') (b_id b) = Some b'.
Proof.
  unfold storedBooking, Booking_save. simpl. intros H Hid. rewrite Hid.
  apply (find_update_first _ (fun _ => b') _ b H).
  rewrite Hid. apply String.eqb_refl.
Qed.

Lemma find_existsb {A : Type} (test : A -> bool) (l : list A) (x : A) :
  find test l = Some x -> existsb test l = true.
Proof.
  intros H. apply find_some in H. apply existsb_exists. now exists x.
Qed.

(** The port selected by an update carries the update afterwards, provided
    the update keeps the port's [_id] and number. *)
Lemma selectedPort_updateOne (db : DB) (sid : string) (f : PortFilter)
    (upd : ChargingPort -> ChargingPort) (p : ChargingPort) :
  (forall q, port_matches f (upd q) = port_matches f q) ->
  selectedPort db sid f = Some p ->
  selectedPort (Station_updateOne db sid f upd) sid f = Some (upd p).
Proof.
  intros Hupd. unfold selectedPort, Station_updateOne. simpl.
  destruct (find (station_matches sid f) (Stations db)) as [s |] eqn:Es;
    [| discriminate].
  intros Hp.
  assert (Hp' : find (port_matches f)
                  (update_first (port_matches f) upd (chargingPorts s))
                = Some (upd p)).
  { apply find_update_first; [exact Hp |].
    rewrite Hupd. apply find_some in Hp. tauto. }
  rewrite (find_update_first _ _ _ s Es).
  - simpl. exact Hp'.
  - unfold station_matches. simpl.
    apply find_some in Es. destruct Es as [_ Es].
    unfold station_matches in Es. apply andb_true_iff in Es.
    destruct Es as [Es _]. rewrite Es. simpl.
    now apply find_existsb with (x := upd p).
Qed.

Lemma port_matches_set_port (f : PortFilter) (s : PortStatus)
    (cur : option string) (q : ChargingPort) :
  port_matches f (set_port q s cur) = port_matches f q.
Proof. destruct f; reflexivity. Qed.

(** A booking that passes the checks is the stored one under its [_id]. *)
Lemma checks_stored (env : Env) (req : Request) (db : DB) (s : string)
    (booking : Booking) :
  checks env req db = inr (s, booking) ->
  storedBooking db (b_id booking) = Some booking /\
  (exists bookingId, present (req_bookingId req) = Some bookingId /\
                     Booking_findById db bookingId = Returned (Some booking)) /\
  present (auth_userId env) = Some (userId booking).
Proof.
  unfold checks.
  destruct (present (auth_userId env)) as [uid |]; [| discriminate].
  destruct (present (req_pidx req)) as [pidx |]; [| discriminate].
  destruct (present (req_bookingId req)) as [bookingId |]; [| discriminate].
  destruct (negb (truthy (KHALTI_SECRET_KEY env))); [discriminate |].
  destruct (khaltiLookup env pidx) as [s0 |]; [| discriminate].
  destruct (Booking_findById db bookingId) as [[b |] |] eqn:Ef;
    try discriminate.
  destruct (String.eqb (userId b) uid) eqn:Eu; simpl; [| discriminate].
  intros [= -> ->].
  apply String.eqb_eq in Eu. subst uid.
  split; [| split; [exists bookingId; auto | reflexivity]].
  unfold Booking_findById in Ef.
  destruct (castObjectId (Str bookingId)) as [h |]; [| discriminate].
  injection Ef as Ef. rewrite (storedBooking_id _ _ _ Ef). exact Ef.
Qed.

End VerifyFacts.

Section VerifyClaims.
Import JS Store Env PaymentsVerify.
Local Open Scope string_scope.

Lemma confirmBooking_Bookings (booking : Booking) (db : DB) :
  Bookings (snd (confirmBooking booking db)) =
  Bookings (Booking_save db (set_status booking confirmed)).
Proof.
  unfold confirmBooking.
  destruct (castObjectId (stationId (set_status booking confirmed)));
    [destruct (portFilter (set_status booking confirmed)) |]; reflexivity.
Qed.

(** C2 as stated fails: a gateway status other than "Completed",
    "User canceled", "Expired" and "Refunded" does not always leave the
    booking as it was.  On the example store the status
    "Partially refunded" cancels the pending booking. *)
Lemma verify_other_status_not_always_unchanged :
  ~ (forall (env : Env) (req : Request) (db : DB) (s : string)
            (booking : Booking),
        checks env req db = inr (s, booking) ->
        status booking = pending ->
        s <> "Completed" -> s <> "User canceled" -> s <> "Expired" ->
        s <> "Refunded" ->
        snd (POST env req db) = db).
Proof.
  intros H.
  specialize (H (Scenario.env_of (Some "user_1") (Some "key") 0
                   Scenario.khaltiOk (Returned "Partially refunded"))
                Scenario.verifyP Scenario.dbP "Partially refunded"
                Scenario.bookingP eq_refl eq_refl).
  assert (E : snd (POST (Scenario.env_of (Some "user_1") (Some "key") 0
                           Scenario.khaltiOk (Returned "Partially refunded"))
                        Scenario.verifyP Scenario.dbP) = Scenario.dbP).
  { apply H; discriminate. }
  vm_compute in E. discriminate E.
Qed.

(** C2, amended.  For a verification that reaches the status mapping with a
    booking that is not yet confirmed, active or completed: "Completed"
    stores the booking as confirmed and sets the port selected by the
    booking's station and port ids to reserved with [currentBookingId] the
    booking; "User canceled", "Expired", "Refunded" and
    "Partially refunded" store the booking as cancelled and touch no
    station; every other status leaves the whole store as it was. *)
Theorem verify_status_mapping
    (env : Env) (req : Request) (db : DB) (s : string) (booking : Booking) :
  checks env req db = inr (s, booking) ->
  includes [confirmed; active; completed] (status booking) = false ->
  (s = "Completed" ->
   storedBooking (snd (POST env req db)) (b_id booking)
     = Some (set_status booking confirmed) /\
   forall sid f p,
     castObjectId (stationId booking) = Returned sid ->
     portFilter booking = Returned f ->
     selectedPort db sid f = Some p ->
     fst (POST env req db)
       = json (Verified true "Completed"
                 (Some (set_status booking confirmed))) 200 /\
     selectedPort (snd (POST env req db)) sid f
       = Some (set_port p reserved (Some (b_id booking)))) /\
  (s = "User canceled" \/ s = "Expired" \/ s = "Refunded"
   \/ s = "Partially refunded" ->
   fst (POST env req db) = json (Verified false s None) 200 /\
   storedBooking (snd (POST env req db)) (b_id booking)
     = Some (set_status booking cancelled) /\
   Stations (snd (POST env req db)) = Stations db) /\
  (s <> "Completed" -> s <> "User canceled" -> s <> "Expired" ->
   s <> "Refunded" -> s <> "Partially refunded" ->
   POST env req db = (json (Verified false s None) 200, db)).
Proof.
  intros Hc Hst.
  destruct (checks_stored _ _ _ _ _ Hc) as (Hstored & _ & _).
  unfold POST. rewrite Hc, Hst.
  split; [| split].
  - intros ->. simpl String.eqb. cbv iota. split.
    + unfold storedBooking. rewrite confirmBooking_Bookings.
      apply (storedBooking_save db booking); [exact Hstored | reflexivity].
    + intros sid f p Hsid Hf Hp. unfold confirmBooking.
      change (stationId (set_status booking confirmed))
        with (stationId booking).
      change (portFilter (set_status booking confirmed))
        with (portFilter booking).
      rewrite Hsid, Hf. simpl fst. simpl snd. split; [reflexivity |].
      apply (selectedPort_updateOne
               (Booking_save db (set_status booking confirmed)) sid f
               (fun q => set_port q reserved (Some (b_id booking))) p);
        [intros q; apply port_matches_set_port | exact Hp].
  - intros Hs.
    assert (Hbranch :
      (if String.eqb s "Completed" then confirmBooking booking db
       else if String.eqb s "User canceled" || String.eqb s "Expired"
            then cancelBooking s booking db
       else if String.eqb s "Refunded" || String.eqb s "Partially refunded"
            then cancelBooking s booking db
       else (json (Verified false s None) 200, db))
      = cancelBooking s booking db).
    { destruct Hs as [-> | [-> | [-> | ->]]]; reflexivity. }
    rewrite Hbranch. unfold cancelBooking. simpl. split; [reflexivity |].
    split; [| reflexivity].
    apply (storedBooking_save db booking); [exact Hstored | reflexivity].
  - intros H1 H2 H3 H4 H5.
    apply String.eqb_neq in H1, H2, H3, H4, H5.
    rewrite H1, H2, H3, H4, H5. reflexivity.
Qed.

(** On the example store: user_1 verifies the pending booking; "Completed"
    confirms it and reserves port P1 for it, "Partially refunded" cancels
    it, "Pending" changes nothing. *)
Lemma verify_status_mapping_witness :
  let run (s : string) :=
    POST (Scenario.env_of (Some "user_1") (Some "key") 0 Scenario.khaltiOk
            (Returned s)) Scenario.verifyP Scenario.dbP in
  selectedPort (snd (run "Completed")) Scenario.stationHex
    (ByPortId Scenario.portHex)
    = Some (set_port Scenario.port1 reserved (Some (b_id Scenario.bookingP)))
  /\ storedBooking (snd (run "Partially refunded")) (b_id Scenario.bookingP)
    = Some (set_status Scenario.bookingP cancelled)
  /\ run "Pending" = (json (Verified false "Pending" None) 200, Scenario.dbP).
Proof.
  intros run. split; [| split].
  - apply (verify_status_mapping
             (Scenario.env_of (Some "user_1") (Some "key") 0 Scenario.khaltiOk
                (Returned "Completed"))
             Scenario.verifyP Scenario.dbP "Completed" Scenario.bookingP
             eq_refl eq_refl); reflexivity.
  - apply (verify_status_mapping
             (Scenario.env_of (Some "user_1") (Some "key") 0 Scenario.khaltiOk
                (Returned "Partially refunded"))
             Scenario.verifyP Scenario.dbP "Partially refunded"
             Scenario.bookingP eq_refl eq_refl); auto.
  - apply (verify_status_mapping
             (Scenario.env_of (Some "user_1") (Some "key") 0 Scenario.khaltiOk
                (Returned "Pending"))
             Scenario.verifyP Scenario.dbP "Pending" Scenario.bookingP
             eq_refl eq_refl); discriminate.
Defined.

(** C3. A verification that reaches the status check with a booking already
    confirmed, active or completed answers success and leaves the store as
    it is.  Hence after a run that handled "Completed", any further run of
    the same request leaves the store, and with it the port's status and
    [currentBookingId], exactly as the first run left them, and answers
    success whenever it reaches the status check. *)
Theorem verify_idempotent
    (env : Env) (req : Request) (db : DB) (s : string) (booking : Booking) :
  checks env req db = inr (s, booking) ->
  (includes [confirmed; active; completed] (status booking) = true ->
   POST env req db
     = (json (Verified true "Completed" (Some booking)) 200, db)) /\
  (includes [confirmed; active; completed] (status booking) = false ->
   s = "Completed" ->
   forall env2 : Env,
     snd (POST env2 req (snd (POST env req db))) = snd (POST env req db) /\
     (forall x, checks env2 req (snd (POST env req db)) = inr x ->
                fst (POST env2 req (snd (POST env req db)))
                  = json (Verified true "Completed"
                            (Some (set_status booking confirmed))) 200)).
Proof.
  intros Hc. split.
  - intros Hst. unfold POST. rewrite Hc, Hst. reflexivity.
  - intros Hst -> env2.
    destruct (checks_stored _ _ _ _ _ Hc)
      as (Hstored & (bookingId & Hbid & Hfind) & _).
    set (db1 := snd (POST env req db)).
    assert (Hb1 : Bookings db1
                  = Bookings (Booking_save db (set_status booking confirmed))).
    { subst db1. unfold POST. rewrite Hc, Hst. simpl String.eqb. cbv iota.
      apply confirmBooking_Bookings. }
    assert (Hs1 : storedBooking db1 (b_id booking)
                  = Some (set_status booking confirmed)).
    { unfold storedBooking. rewrite Hb1.
      apply (storedBooking_save db booking); [exact Hstored | reflexivity]. }
    assert (Hsecond : forall s2 b2, checks env2 req db1 = inr (s2, b2) ->
                        b2 = set_status booking confirmed).
    { intros s2 b2 Hc2.
      destruct (checks_stored _ _ _ _ _ Hc2)
        as (_ & (bookingId2 & Hbid2 & Hfind2) & _).
      rewrite Hbid in Hbid2. injection Hbid2 as <-.
      unfold Booking_findById in Hfind, Hfind2.
      destruct (castObjectId (Str bookingId)) as [h |]; [| discriminate].
      injection Hfind as Hfind. injection Hfind2 as Hfind2.
      rewrite <- (storedBooking_id _ _ _ Hfind) in Hfind2.
      congruence. }
    unfold POST.
    destruct (checks env2 req db1) as [r | [s2 b2]] eqn:Hc2.
    + split; [reflexivity | intros x Hx; discriminate].
    + rewrite (Hsecond _ _ eq_refl). simpl. split; [reflexivity |].
      intros _ _. reflexivity.
Qed.

(** On the example store: two verifications of the same completed payment
    leave the store as the first one did, with port P1 reserved once, for
    this booking. *)
Lemma verify_idempotent_witness :
  let env := Scenario.env_of (Some "user_1") (Some "key") 0 Scenario.khaltiOk
               (Returned "Completed") in
  let db1 := snd (POST env Scenario.verifyP Scenario.dbP) in
  snd (POST env Scenario.verifyP db1) = db1 /\
  fst (POST env Scenario.verifyP db1)
    = json (Verified true "Completed"
              (Some (set_status Scenario.bookingP confirmed))) 200 /\
  selectedPort db1 Scenario.stationHex (ByPortId Scenario.portHex)
    = Some (set_port Scenario.port1 reserved (Some (b_id Scenario.bookingP))).
Proof.
  intros env db1.
  destruct (verify_idempotent env Scenario.verifyP Scenario.dbP "Completed"
              Scenario.bookingP eq_refl) as [_ H].
  destruct (H eq_refl eq_refl env) as [H1 H2].
  split; [exact H1 | split].
  - apply (H2 ("Completed", set_status Scenario.bookingP confirmed)).
    reflexivity.
  - reflexivity.
Defined.

End VerifyClaims.

(** ** Walk-in check-in, start and stop *)

Section WalkInFacts.
Import JS Store Env.

Lemma new_Date_comp (x y : Q) : x == y -> new_Date x = new_Date y.
Proof.
  intros H. unfold new_Date.
  assert (E : Qle_bool 0 x = Qle_bool 0 y).
  { destruct (Qle_bool 0 x) eqn:Ex, (Qle_bool 0 y) eqn:Ey; try reflexivity.
    - apply Qle_bool_iff in Ex. rewrite H in Ex. apply Qle_bool_iff in Ex.
      congruence.
    - apply Qle_bool_iff in Ey. rewrite <- H in Ey. apply Qle_bool_iff in Ey.
      congruence. }
  rewrite E, (Qfloor_comp _ _ H), (Qceiling_comp _ _ H). reflexivity.
Qed.

Lemma new_Date_inject_Z (z : Z) : new_Date (inject_Z z) = z.
Proof.
  unfold new_Date. rewrite Qfloor_Z, Qceiling_Z.
  now destruct (Qle_bool 0 (inject_Z z)).
Qed.

(** A whole number of minutes added to a whole time value. *)
Lemma new_Date_minutes (t m : Z) (d : Q) :
  d == inject_Z m ->
  new_Date (inject_Z t + d * 60000) = (t + m * 60000)%Z.
Proof.
  intros H. rewrite <- (new_Date_inject_Z (t + m * 60000)).
  apply new_Date_comp. rewrite H, inject_Z_plus, inject_Z_mult. reflexivity.
Qed.

(** [Math.max(30, Math.min(n, 480))] for every number [n]. *)
Lemma clamp_spec (n : number) :
  match n with
  | NaN => Math_max (Num 30) (Math_min n (Num 480)) = NaN
  | Inf true => Math_max (Num 30) (Math_min n (Num 480)) = Num 30
  | Inf false => Math_max (Num 30) (Math_min n (Num 480)) = Num 480
  | Num x =>
      exists q, Math_max (Num 30) (Math_min n (Num 480)) = Num q /\
                30 <= q /\ q <= 480 /\ q == Qmax 30 (Qmin x 480) /\
                (30 <= x -> x <= 480 -> q = x)
  end.
Proof.
  destruct n as [| [|] | x]; try reflexivity.
  pose proof (Q.max_spec 30 (Qmin x 480)) as M.
  pose proof (Q.min_spec x 480) as N.
  unfold Math_min, Math_max, fle.
  destruct (Qle_bool x 480) eqn:E1.
  - apply Qle_bool_iff in E1. destruct (Qle_bool 30 x) eqn:E2.
    + apply Qle_bool_iff in E2. exists x.
      split; [reflexivity |]. split; [exact E2 |]. split; [exact E1 |].
      split; [| reflexivity].
      destruct M as [[? ?] | [? ?]]; destruct N as [[? ?] | [? ?]];
        Lqa.lra.
    + assert (x < 30).
      { apply Qnot_le_lt. intros H. apply Qle_bool_iff in H. congruence. }
      exists 30. split; [reflexivity |]. repeat split; try discriminate.
      * destruct M as [[? ?] | [? ?]]; destruct N as [[? ?] | [? ?]];
          Lqa.lra.
      * intros. exfalso. Lqa.lra.
  - assert (480 < x).
    { apply Qnot_le_lt. intros H. apply Qle_bool_iff in H. congruence. }
    change (Qle_bool 30 480) with true. cbv iota.
    exists 480. split; [reflexivity |]. repeat split; try discriminate.
    + destruct M as [[? ?] | [? ?]]; destruct N as [[? ?] | [? ?]];
        Lqa.lra.
    + intros. exfalso. Lqa.lra.
Qed.

Lemma duration_bounds (f : field) :
  exists q, WalkInCheckin.duration f = Num q /\ 30 <= q /\ q <= 480.
Proof.
  unfold WalkInCheckin.duration, or_number.
  destruct (truthy_number (Number f)) eqn:E.
  - pose proof (clamp_spec (Number f)) as H.
    destruct (Number f) as [| [|] | x]; try discriminate;
      try (rewrite H; eexists; split; [reflexivity |]; split; discriminate).
    destruct H as (q & -> & H1 & H2 & _). eauto.
  - exists 60. split; [reflexivity | split; discriminate].
Qed.

(** A whole number of minutes added to a time value: the product and the
    sum are exact, and the result is a valid date. *)
Lemma end_time_exact (t m : Z) (d : Q) :
  d == inject_Z m ->
  (Z.abs m <= 100000000000)%Z ->
  (Z.abs (t + m * 60000) <= 8640000000000000)%Z ->
  TimeClip (fadd (Num (inject_Z t)) (fmul (Num d) (Num 60000)))
  = Some (t + m * 60000)%Z /\
  TimeClip (fadd (Num (inject_Z t))
              (fmul (fmul (Num d) (Num 60)) (Num 1000)))
  = Some (t + m * 60000)%Z.
Proof.
  intros Hd Hm Ht.
  assert (E1 : binary64 (d * 60000) = Num (inject_Z (m * 60000))).
  { apply binary64_exact; [| lia].
    rewrite Hd, inject_Z_mult. reflexivity. }
  assert (E2 : binary64 (d * 60) = Num (inject_Z (m * 60))).
  { apply binary64_exact; [| lia].
    rewrite Hd, inject_Z_mult. reflexivity. }
  assert (E3 : binary64 (inject_Z (m * 60) * 1000)
               = Num (inject_Z (m * 60000))).
  { apply binary64_exact; [| lia].
    rewrite !inject_Z_mult. change (inject_Z 60000) with (60 * 1000).
    change (inject_Z 60) with 60. ring. }
  assert (E4 : binary64 (inject_Z t + inject_Z (m * 60000))
               = Num (inject_Z (t + m * 60000))).
  { apply binary64_exact; [| lia]. now rewrite inject_Z_plus. }
  assert (E5 : TimeClip (Num (inject_Z (t + m * 60000)))
               = Some (t + m * 60000)%Z).
  { unfold TimeClip. rewrite new_Date_inject_Z.
    destruct (Z.abs (t + m * 60000) <=? 8640000000000000)%Z eqn:E;
      [reflexivity | apply Z.leb_gt in E; lia]. }
  unfold fmul, fadd. rewrite E1, E2, E3, E4. split; exact E5.
Qed.

Lemma pow2_53_small : pow2 (-53) <= 12 # 100000000000000000.
Proof. apply Qle_bool_iff. vm_compute. reflexivity. Qed.

Lemma pow2_1075_small : pow2 (-1075) <= 1 # 100.
Proof. apply Qle_bool_iff. vm_compute. reflexivity. Qed.

(** A rounding error of less than 1 below 2^53 / 1.2. *)
Lemma binary64_within_one (x r : Q) :
  Qabs x <= 8100000000000000 -> binary64 x = Num r -> Qabs (r - x) <= 99 # 100.
Proof.
  intros Hx Hr. pose proof (binary64_error _ _ Hr) as E.
  pose proof pow2_53_small as P. pose proof pow2_1075_small as P'.
  assert (P0 : 0 <= pow2 (-53)) by (apply Qlt_le_weak, pow2_pos).
  assert (M : Qabs x * pow2 (-53)
              <= 8100000000000000 * (12 # 100000000000000000)).
  { apply Qle_trans with (8100000000000000 * pow2 (-53)).
    - apply Qmult_le_compat_r; assumption.
    - apply Qmult_le_l; [reflexivity | exact P]. }
  assert (N : 8100000000000000 * (12 # 100000000000000000) == 972 # 1000)
    by reflexivity.
  rewrite N in M. Lqa.lra.
Qed.

Lemma binary64_finite_small (x : Q) :
  Qabs x <= 8100000000000000 -> exists r, binary64 x = Num r.
Proof.
  intros Hx. apply binary64_finite.
  apply Qle_lt_trans with 8100000000000000; [exact Hx |].
  apply Qlt_alt. vm_compute. reflexivity.
Qed.

(** The end of a check-in is a valid date after its start. *)
Lemma end_time_valid (t : Z) (q : Q) :
  (Z.abs t <= 8000000000000000)%Z -> 30 <= q -> q <= 480 ->
  exists e : Z,
    TimeClip (fadd (Num (inject_Z t)) (fmul (Num q) (Num 60000))) = Some e /\
    (t < e)%Z.
Proof.
  intros Ht H30 H480.
  assert (Ht' : - 8000000000000000 <= inject_Z t /\
                inject_Z t <= 8000000000000000).
  { split.
    - change (- 8000000000000000) with (inject_Z (- 8000000000000000)).
      rewrite <- Zle_Qle. lia.
    - change 8000000000000000 with (inject_Z 8000000000000000).
      rewrite <- Zle_Qle. lia. }
  destruct Ht' as [T0 T1].
  assert (Aq : Qabs (q * 60000) <= 8100000000000000).
  { apply Qabs_Qle_condition. split; Lqa.lra. }
  destruct (binary64_finite_small _ Aq) as [p Hp].
  pose proof (binary64_within_one _ _ Aq Hp) as Ep.
  apply Qabs_Qle_condition in Ep. destruct Ep as [Ep0 Ep1].
  assert (As : Qabs (inject_Z t + p) <= 8100000000000000).
  { apply Qabs_Qle_condition. split; Lqa.lra. }
  destruct (binary64_finite_small _ As) as [r Hr].
  pose proof (binary64_within_one _ _ As Hr) as Er.
  apply Qabs_Qle_condition in Er. destruct Er as [Er0 Er1].
  unfold fmul, fadd. rewrite Hp, Hr. unfold TimeClip.
  assert (Lo : inject_Z (t + 1799998) <= r).
  { rewrite inject_Z_plus. change (inject_Z 1799998) with 1799998.
    Lqa.lra. }
  assert (Hi : r <= inject_Z (t + 28800002)).
  { rewrite inject_Z_plus. change (inject_Z 28800002) with 28800002.
    Lqa.lra. }
  assert (F0 : (t + 1799998 <= Qfloor r)%Z).
  { rewrite <- (Qfloor_Z (t + 1799998)). now apply Qfloor_resp_le. }
  assert (C1 : (Qceiling r <= t + 28800002)%Z).
  { rewrite <- (Qceiling_Z (t + 28800002)). now apply Qceiling_resp_le. }
  pose proof (Qle_ceiling r) as Hc. pose proof (Qfloor_le r) as Hf.
  assert (FC : (Qfloor r <= Qceiling r)%Z).
  { rewrite Zle_Qle. now apply Qle_trans with r. }
  assert (Hd : (t + 1799998 <= new_Date r <= t + 28800002)%Z).
  { unfold new_Date. destruct (Qle_bool 0 r); lia. }
  exists (new_Date r). split; [| lia].
  destruct (Z.abs (new_Date r) <=? 8640000000000000)%Z eqn:E;
    [reflexivity | apply Z.leb_gt in E; lia].
Qed.

Lemma findStation_id (db : DB) (h : string) (station : Station) :
  AdminWalkIn.findStation db (Some h) = Some station -> s_id station = h.
Proof.
  simpl. intros H. apply find_some in H. now apply String.eqb_eq.
Qed.

Lemma PortStatus_eqb_eq (a b : PortStatus) :
  PortStatus_eqb a b = true <-> a = b.
Proof. destruct a, b; simpl; split; congruence. Qed.

End WalkInFacts.

Section CheckinClaims.
Import JS Store Env WalkInCheckin.
Local Open Scope string_scope.

(** C9 as stated fails: a numeric duration is not always clamped into
    [[30, 480]]; the number 0 yields 60, not 30. *)
Lemma checkin_zero_duration_not_clamped :
  ~ (forall (f : field) (x : Q),
        Number f = Num x ->
        finite_value (duration f) == Qmax 30 (Qmin x 480)).
Proof.
  intros H. specialize (H (NumberField 0) 0 eq_refl).
  vm_compute in H. discriminate H.
Qed.

(** The amount is computed in binary64 arithmetic: for 73 minutes at 150
    per hour the product is 182.49999999999997 and the amount 182, where
    the exact charge 182.5 rounds to 183. *)
Lemma checkin_amount_rounds_the_double :
  Math_round_number (fmul (fdiv (Num 73) (Num 60)) (Num 150)) = Num 182 /\
  Math_round (73 / 60 * 150) = 183%Z.
Proof. split; vm_compute; reflexivity. Qed.

(** A numeric text counts as its number. *)
Lemma checkin_duration_of_text :
  duration (TextField "90") = Num 90 /\
  duration (TextField " 1e2 ") = Num 100 /\
  duration (TextField "ninety") = Num 60.
Proof. repeat split; vm_compute; reflexivity. Qed.

(** C9, amended.  The check-in duration is [Number(estimatedDuration) || 60]
    clamped into [[30, 480]]: 60 when the number is [NaN] or 0, the
    clamped number otherwise.  The booking created by an accepted check-in
    is active, starts now, ends at [new Date(start + duration * 60000)],
    a valid date after the start for a clock that is not within the last
    years of the range of [Date] (a whole number of minutes is added
    exactly), and stores
    [Math.round((duration / 60) * perHour)] computed in binary64
    arithmetic, which is the exactly rounded charge or next to it; the
    rate is the stored one (0, the schema's default, for a station stored
    without a price), and 200 only when the stored rate is null. *)
Theorem checkin_duration_and_amount
    (env : Env) (req : Request) (db : DB) (station : Station)
    (port : ChargingPort) (customerName customerPhone : string) :
  locate env req db = inr (station, port, customerName, customerPhone) ->
  p_status port = available ->
  (Z.abs (now env) <= 8000000000000000)%Z ->
  let n := Number (req_estimatedDuration req) in
  let b := newBooking env req station port customerName customerPhone in
  let rate := match pricing station with
              | Some perHour => binary64 perHour
              | None => Num 200
              end in
  (exists q : Q,
      duration (req_estimatedDuration req) = Num q /\
      estimatedDuration b = q /\
      30 <= q /\ q <= 480 /\
      (truthy_number n = false -> q = 60) /\
      (forall x, n = Num x -> ~ x == 0 -> q == Qmax 30 (Qmin x 480)) /\
      (n = Inf false -> q = 480) /\
      (n = Inf true -> q = 30) /\
      TimeClip (fadd (Num (inject_Z (startTime b)))
                  (fmul (Num q) (Num 60000)))
      = Some (endTime b) /\
      (startTime b < endTime b)%Z /\
      (forall m : Z,
          q == inject_Z m -> endTime b = (startTime b + m * 60000)%Z) /\
      amountPaid b
      = Math_round_number (fmul (fdiv (Num q) (Num 60)) rate) /\
      (forall r : Q,
          rate = Num r -> 0 <= r -> r <= 1099511627776 ->
          exists a : Z,
            amountPaid b = Num (inject_Z a) /\
            (0 <= a)%Z /\
            (Z.abs (a - Math_round (q / 60 * r)) <= 1)%Z)) /\
  fst (POST env req db)
    = json (CheckedIn b (name station) (portNumber port) (amountPaid b))
        201 /\
  Bookings (snd (POST env req db)) = (Bookings db ++ [b])%list /\
  status b = active /\
  source b = walk_in_qr /\
  startTime b = now env.
Proof.
  intros Hl Hav Hclock n b rate.
  assert (Hrate : perHour station = rate) by reflexivity.
  split.
  - destruct (duration_bounds (req_estimatedDuration req))
      as (q & Hq & H30 & H480).
    exists q. split; [exact Hq |].
    assert (Hb : b = newBooking env req station port customerName
                       customerPhone) by reflexivity.
    unfold newBooking, amount in Hb. rewrite Hq, Hrate in Hb.
    cbv zeta in Hb. rewrite Hb.
    cbn [estimatedDuration endTime startTime amountPaid set_walk_in
         Booking_new finite_value].
    split; [reflexivity |]. split; [exact H30 |]. split; [exact H480 |].
    pose proof (clamp_spec n) as Hclamp.
    unfold duration, or_number in Hq. fold n in Hq.
    destruct (end_time_valid (now env) q Hclock H30 H480)
      as (e & Hvalid & Hlt).
    rewrite Hvalid. cbn [getTime].
    split; [| split; [| split; [| split; [| split; [| split; [| split;
                                                              [| split]]]]]]].
    + intros Hf. rewrite Hf in Hq. vm_compute in Hq. congruence.
    + intros x Hx Hnz. rewrite Hx in Hq, Hclamp.
      assert (Ht : truthy_number (Num x) = true).
      { simpl. destruct (Qeq_bool x 0) eqn:E; [| reflexivity].
        apply Qeq_bool_iff in E. contradiction. }
      rewrite Ht in Hq. destruct Hclamp as (q' & Hq' & _ & _ & He & _).
      congruence.
    + intros Hi. rewrite Hi in Hq. vm_compute in Hq. congruence.
    + intros Hi. rewrite Hi in Hq. vm_compute in Hq. congruence.
    + reflexivity.
    + exact Hlt.
    + intros m Hm.
      assert (Hm' : (30 <= m <= 480)%Z).
      { rewrite Hm in H30, H480.
        change 30 with (inject_Z 30) in H30.
        change 480 with (inject_Z 480) in H480.
        rewrite <- Zle_Qle in H30, H480. lia. }
      destruct (end_time_exact (now env) m q Hm) as [E _]; [lia | lia |].
      congruence.
    + reflexivity.
    + intros r Hr R0 R1. rewrite Hr.
      assert (Bq : q / 60 <= 8).
      { apply Qle_shift_div_r; [reflexivity | Lqa.lra]. }
      assert (Bq0 : 0 <= q / 60).
      { apply Qle_shift_div_l; [reflexivity | Lqa.lra]. }
      assert (E50 : pow2 50 == 1125899906842624) by reflexivity.
      destruct (charge_amount q 60 r) as [(a & Ha & Ha0 & Ha1) _];
        try Lqa.lra; try (rewrite E50; Lqa.lra).
      * rewrite E50.
        apply Qle_trans with (8 * r); [| Lqa.lra].
        apply Qmult_le_compat_r; assumption.
      * exists a. auto.
  - unfold POST. rewrite Hl, Hav. simpl negb. cbv iota.
    repeat split.
    unfold markOccupied. destruct (p_id port); reflexivity.
Qed.

(** On the example store: a check-in on port P1 at time 1000 for 45
    minutes at the rate 200, and one with the duration 0. *)
Lemma checkin_duration_and_amount_witness :
  let created (f : field) :=
    newBooking (Scenario.env_at None 1000) (Scenario.checkin f)
      Scenario.station Scenario.port1 "Asha" "9800000000" in
  Bookings (snd (POST (Scenario.env_at None 1000)
                   (Scenario.checkin (NumberField 45)) Scenario.db0))
    = [Scenario.bookingA; created (NumberField 45)] /\
  endTime (created (NumberField 45)) = (1000 + 45 * 60000)%Z /\
  amountPaid (created (NumberField 45)) = Num 150 /\
  estimatedDuration (created (NumberField 0)) = 60.
Proof.
  intros created.
  assert (Hl : forall f,
             locate (Scenario.env_at None 1000) (Scenario.checkin f)
               Scenario.db0
             = inr (Scenario.station, Scenario.port1, "Asha", "9800000000"))
    by (intros f; vm_compute; reflexivity).
  assert (Hclock : (Z.abs (now (Scenario.env_at None 1000))
                    <= 8000000000000000)%Z) by (vm_compute; discriminate).
  pose proof (checkin_duration_and_amount (Scenario.env_at None 1000)
                (Scenario.checkin (NumberField 45)) Scenario.db0
                Scenario.station Scenario.port1 "Asha" "9800000000"
                (Hl _) eq_refl Hclock) as H45.
  pose proof (checkin_duration_and_amount (Scenario.env_at None 1000)
                (Scenario.checkin (NumberField 0)) Scenario.db0
                Scenario.station Scenario.port1 "Asha" "9800000000"
                (Hl _) eq_refl Hclock) as H0.
  cbv zeta in H45, H0.
  destruct H45 as ((q & Hq & Hd & _ & _ & _ & _ & _ & _ & _ & _ & Hend & Hamt
                    & _) & _ & HB & _).
  destruct H0 as ((q0 & _ & Hd0 & _ & _ & Hdef & _) & _).
  assert (E45 : q = 45) by (vm_compute in Hq; congruence).
  unfold created.
  split; [exact HB | split; [| split]].
  - apply (Hend 45%Z). rewrite E45. reflexivity.
  - rewrite Hamt, E45. vm_compute. reflexivity.
  - rewrite Hd0. apply Hdef. vm_compute. reflexivity.
Defined.

End CheckinClaims.

Section WalkInClaims.
Import JS Store Env.
Local Open Scope string_scope.

(** C4 as stated fails: the public check-in does not create a booking with
    zero payment.  On the example store a 60-minute check-in at a rate of
    200 stores 200 as the amount paid. *)
Lemma checkin_booking_not_zero_payment :
  ~ (forall (env : Env) (req : WalkInCheckin.Request) (db : DB)
            (station : Station) (port : ChargingPort) (cn cp : string),
        WalkInCheckin.locate env req db = inr (station, port, cn, cp) ->
        p_status port = available ->
        forall b, In b (Bookings (snd (WalkInCheckin.POST env req db))) ->
                  ~ In b (Bookings db) ->
                  status b = active /\ amountPaid b = Num 0).
Proof.
  intros H.
  specialize (H (Scenario.env_at None 1000)
                (Scenario.checkin (NumberField 60)) Scenario.db0
                Scenario.station Scenario.port1 "Asha" "9800000000"
                eq_refl eq_refl
                (WalkInCheckin.newBooking (Scenario.env_at None 1000)
                   (Scenario.checkin (NumberField 60)) Scenario.station
                   Scenario.port1 "Asha" "9800000000")).
  destruct H as [_ H].
  - right. left. reflexivity.
  - intros [E | []]. vm_compute in E. discriminate E.
  - vm_compute in H. discriminate H.
Qed.

Lemma startChecks_station (env : Env) (req : AdminWalkIn.Request)
    (user : User) (userId : string) (db : DB) (stationId portId : string)
    (station : Station) :
  AdminWalkIn.startChecks env req user userId db
    = inr (stationId, portId, station) ->
  AdminWalkIn.toObjectId stationId = Some (s_id station).
Proof.
  unfold AdminWalkIn.startChecks.
  destruct (present (AdminWalkIn.req_stationId req)) as [sid |];
    [| discriminate].
  destruct (present (AdminWalkIn.req_portId req)) as [pid |];
    [| discriminate].
  destruct (AdminWalkIn.toObjectId sid) as [h |] eqn:Eh;
    [| simpl; discriminate].
  destruct (AdminWalkIn.findStation db (Some h)) as [st |] eqn:Es;
    [| discriminate].
  destruct (AdminWalkIn.is_admin user && AdminWalkIn.not_owner st userId);
    [discriminate |].
  intros [= <- _ <-]. rewrite Eh. f_equal. symmetry.
  now apply findStation_id with (db := db).
Qed.

(** C4, amended.  The public check-in answers 409 unless the port's status
    is available; otherwise it creates an active booking that stores the
    estimated charge [Math.round((duration / 60) * perHour)] and sets the
    port to occupied with the booking as [currentBookingId].  The admin
    start action does not look at the port's status: it answers 409 when an
    active walk-in booking is stored under the station id and the port id
    of the request, each as the string given or as the ObjectId made from
    it (a session stored under another name of the same port does not
    count), and otherwise creates an active booking with zero payment and,
    when the port id is an ObjectId, sets the port it selects to
    occupied. *)
Theorem walkin_start_contract :
  (forall (env : Env) (req : WalkInCheckin.Request) (db : DB)
          (station : Station) (port : ChargingPort) (cn cp : string),
      WalkInCheckin.locate env req db = inr (station, port, cn, cp) ->
      (p_status port <> available ->
       code (fst (WalkInCheckin.POST env req db)) = 409%Z /\
       snd (WalkInCheckin.POST env req db) = db) /\
      (p_status port = available ->
       let b := WalkInCheckin.newBooking env req station port cn cp in
       code (fst (WalkInCheckin.POST env req db)) = 201%Z /\
       Bookings (snd (WalkInCheckin.POST env req db))
         = (Bookings db ++ [b])%list /\
       status b = active /\
       amountPaid b
         = Math_round_number
             (fmul (fdiv (WalkInCheckin.duration
                            (WalkInCheckin.req_estimatedDuration req))
                      (Num 60))
                (WalkInCheckin.perHour station)) /\
       forall h, p_id port = Some h ->
                 selectedPort db (s_id station) (ByPortId h) = Some port ->
                 selectedPort (snd (WalkInCheckin.POST env req db))
                   (s_id station) (ByPortId h)
                 = Some (set_port port occupied (Some (b_id b))))) /\
  (forall (env : Env) (req : AdminWalkIn.Request) (db : DB) (user : User)
          (userId stationId portId : string) (station : Station),
      AdminWalkIn.authorize env db = inr (user, userId) ->
      or_string (AdminWalkIn.req_action req) "log" = "start" ->
      AdminWalkIn.startChecks env req user userId db
        = inr (stationId, portId, station) ->
      let held :=
        find (AdminWalkIn.activeWalkIn (AdminWalkIn.toObjectId stationId)
                stationId (AdminWalkIn.toObjectId portId) portId)
             (Bookings db) in
      (held <> None ->
       code (fst (AdminWalkIn.POST env req db)) = 409%Z /\
       snd (AdminWalkIn.POST env req db) = db) /\
      (held = None ->
       let b := AdminWalkIn.startBooking env stationId portId in
       fst (AdminWalkIn.POST env req db) = json (Started b) 201 /\
       Bookings (snd (AdminWalkIn.POST env req db))
         = (Bookings db ++ [b])%list /\
       status b = active /\
       amountPaid b = Num 0 /\
       (forall pid p,
           AdminWalkIn.toObjectId portId = Some pid ->
           selectedPort db (s_id station) (ByPortId pid) = Some p ->
           selectedPort (snd (AdminWalkIn.POST env req db)) (s_id station)
             (ByPortId pid)
           = Some (set_port p occupied (currentBookingId p))) /\
       (AdminWalkIn.toObjectId portId = None ->
        Stations (snd (AdminWalkIn.POST env req db)) = Stations db))).
Proof.
  split.
  - intros env req db station port cn cp Hl. unfold WalkInCheckin.POST.
    rewrite Hl. split.
    + intros Hna.
      destruct (PortStatus_eqb (p_status port) available) eqn:E.
      * apply PortStatus_eqb_eq in E. contradiction.
      * simpl. auto.
    + intros Hav. rewrite Hav. simpl negb. cbv iota zeta.
      split; [reflexivity |].
      split; [unfold WalkInCheckin.markOccupied; destruct (p_id port);
              reflexivity |].
      split; [reflexivity |]. split; [reflexivity |].
      intros h Hh Hsel. simpl snd. unfold WalkInCheckin.markOccupied.
        rewrite Hh.
        apply (selectedPort_updateOne
                 (Booking_create db
                    (WalkInCheckin.newBooking env req station port cn cp))
                 (s_id station) (ByPortId h)
                 (fun q => set_port q occupied
                             (Some (b_id (WalkInCheckin.newBooking env req
                                            station port cn cp)))) port);
          [intros q; apply port_matches_set_port | exact Hsel].
  - intros env req db user userId stationId portId station Ha Hact Hs held.
    pose proof (startChecks_station _ _ _ _ _ _ _ _ Hs) as Hsid.
    unfold AdminWalkIn.POST. rewrite Ha, Hact. simpl String.eqb. cbv iota.
    unfold AdminWalkIn.start. rewrite Hs. fold held. split.
    + intros Hheld. destruct held; [simpl; auto | congruence].
    + intros ->. cbv zeta. rewrite Hsid.
      repeat split.
      * destruct (AdminWalkIn.toObjectId portId); reflexivity.
      * intros pid p Hpid Hsel. rewrite Hpid. simpl snd.
        apply (selectedPort_updateOne
                 (Booking_create db
                    (AdminWalkIn.startBooking env stationId portId))
                 (s_id station) (ByPortId pid)
                 (fun q => set_port q occupied (currentBookingId q)) p);
          [intros q; apply port_matches_set_port | exact Hsel].
      * intros ->. reflexivity.
Qed.

(** On the example store: a check-in on the available port P1 is accepted
    and the port becomes occupied; the owner starts a session on port P2,
    which is in maintenance, and the port becomes occupied. *)
Lemma walkin_start_contract_witness :
  selectedPort
    (snd (WalkInCheckin.POST (Scenario.env_at None 1000)
            (Scenario.checkin (NumberField 60)) Scenario.db0))
    Scenario.stationHex (ByPortId Scenario.portHex)
  = Some (set_port Scenario.port1 occupied (Some Scenario.freshHex)) /\
  selectedPort (Scenario.dbStarted Scenario.port2Hex 0)
    Scenario.stationHex (ByPortId Scenario.port2Hex)
  = Some (set_port Scenario.port2 occupied None).
Proof.
  destruct walkin_start_contract as [Hqr Hadmin]. split.
  - destruct (Hqr (Scenario.env_at None 1000)
                (Scenario.checkin (NumberField 60)) Scenario.db0
                Scenario.station Scenario.port1 "Asha" "9800000000" eq_refl)
      as [_ H].
    destruct (H eq_refl) as (_ & _ & _ & _ & Hport).
    apply (Hport Scenario.portHex); reflexivity.
  - destruct (Hadmin
                (Scenario.with_newObjectId
                   (Scenario.env_at (Some "admin_1") 0) Scenario.walkinHex)
                (Scenario.walkin "start" (Some Scenario.port2Hex) None)
                Scenario.db0 Scenario.owner "admin_1" Scenario.stationHex
                Scenario.port2Hex Scenario.station
                eq_refl eq_refl eq_refl)
      as [_ H].
    destruct (H eq_refl) as (_ & _ & _ & _ & Hport & _).
    apply (Hport Scenario.port2Hex); reflexivity.
Defined.

End WalkInClaims.

Section StopClaims.
Import JS Store Env AdminWalkIn.
Local Open Scope string_scope.

(** C5 as stated fails: a stop does not always leave the booked port
    available.  On the example store the owner starts a session naming the
    port by its number P2; the port, in maintenance, is not touched by the
    start nor by the stop ten minutes later. *)
Lemma walkin_stop_port_not_always_available :
  ~ (forall (env : Env) (req : Request) (db : DB) (user : User)
            (userId : string) (booking : Booking),
        authorize env db = inr (user, userId) ->
        or_string (req_action req) "log" = "stop" ->
        stopChecks env req user userId db = inr booking ->
        forall p,
          portOf (snd (POST env req db)) (toString (stationId booking))
            (toString (portId booking)) = Some p ->
          p_status p = available).
Proof.
  intros H.
  specialize (H (fst (Scenario.stopAt 600000)) (snd (Scenario.stopAt 600000))
                (Scenario.dbStarted "P2" 0) Scenario.owner "admin_1"
                (startBooking
                   (Scenario.with_newObjectId
                      (Scenario.env_at (Some "admin_1") 0) Scenario.walkinHex)
                   Scenario.stationHex "P2")
                eq_refl eq_refl eq_refl Scenario.port2 eq_refl).
  discriminate H.
Qed.

(** The amount is not clamped: a stop whose clock reads one hour less than
    the booking's start bills a negative amount. *)
Lemma walkin_stop_amount_before_start :
  fst (POST (fst (Scenario.stopAt 3600000)) (snd (Scenario.stopAt 3600000))
         (Scenario.dbStarted Scenario.portHex 7200000))
  = json (Stopped
            (set_completed
               (startBooking
                  (Scenario.with_newObjectId
                     (Scenario.env_at (Some "admin_1") 7200000)
                     Scenario.walkinHex)
                  Scenario.stationHex Scenario.portHex)
               3600000 1 (Num (-200)))
            (Num (-200)) 1) 200.
Proof. vm_compute. reflexivity. Qed.

(** The amount is computed in binary64 arithmetic: for 261000 ms at 200 per
    hour the product is 14.499999999999998 and the amount 14, where the
    exact charge 14.5 rounds to 15. *)
Lemma walkin_stop_amount_rounds_the_double :
  Math_round_number (fmul (fdiv (Num 261000) (Num 3600000)) (Num 200))
  = Num 14 /\
  Math_round (261000 / 3600000 * 200) = 15%Z.
Proof. split; vm_compute; reflexivity. Qed.

Lemma stopChecks_stored (env : Env) (req : Request) (user : User)
    (userId : string) (db : DB) (booking : Booking) :
  stopChecks env req user userId db = inr booking ->
  storedBooking db (b_id booking) = Some booking /\ status booking = active.
Proof.
  unfold stopChecks.
  destruct (present (req_bookingId req)) as [bookingId |]; [| discriminate].
  destruct (Booking_findById db bookingId) as [[b |] |] eqn:Ef;
    try discriminate.
  destruct (BookingStatus_eqb (status b) active) eqn:Ea; simpl;
    [| discriminate].
  destruct (is_admin user && _); [discriminate |].
  intros [= ->]. split; [| now apply BookingStatus_eqb_eq].
  unfold Booking_findById in Ef.
  destruct (castObjectId (Str bookingId)) as [h |]; [| discriminate].
  injection Ef as Ef. rewrite (storedBooking_id _ _ _ Ef). exact Ef.
Qed.

(** [station?.pricing?.perHour || 200] is never 0 or [NaN]. *)
Lemma perHour_truthy (station : option Station) :
  truthy_number (perHour station) = true.
Proof.
  unfold perHour, or_number.
  destruct station as [s |]; [| reflexivity].
  destruct (pricing s) as [q |]; [| reflexivity].
  destruct (truthy_number (binary64 q)) eqn:E; [exact E | reflexivity].
Qed.

Lemma amount_nonneg (durationMs : Z) (rate : Q) :
  (0 <= durationMs)%Z -> 0 <= rate -> ~ rate == 0 ->
  nonneg (Math_round_number
            (fmul (fdiv (Num (inject_Z durationMs)) (Num 3600000))
               (Num rate))).
Proof.
  intros Hms Hrate Hnz.
  assert (Hq : 0 <= inject_Z durationMs / 3600000).
  { apply Qle_shift_div_l; [reflexivity |].
    change (0 * 3600000) with (inject_Z 0). now rewrite <- Zle_Qle. }
  change (fdiv (Num (inject_Z durationMs)) (Num 3600000))
    with (binary64 (inject_Z durationMs / 3600000)).
  pose proof (binary64_nonneg _ Hq) as N1.
  destruct (binary64 (inject_Z durationMs / 3600000)) as [| s | r];
    [contradiction | |].
  - simpl in N1. subst s. unfold fmul.
    destruct (Qeq_bool rate 0) eqn:E;
      [apply Qeq_bool_iff in E; contradiction |].
    unfold Qltb.
    assert (E' : Qle_bool 0 rate = true) by now apply Qle_bool_iff.
    rewrite E'. reflexivity.
  - simpl in N1. unfold fmul.
    assert (Hp : 0 <= r * rate) by now apply Qmult_le_0_compat.
    pose proof (binary64_nonneg _ Hp) as N2.
    destruct (binary64 (r * rate)) as [| s | r2]; simpl in *; auto.
    change 0 with (inject_Z 0). rewrite <- Zle_Qle.
    now apply Math_round_nonneg.
Qed.

(** C5, amended.  A stop that reaches the computation records a duration of
    at least one minute, [max(1, round(ms / 60000))] of the elapsed
    [ms = now - startTime], and bills
    [Math.round((ms / 3600000) * perHour)], computed in binary64
    arithmetic, where the rate is the stored one and 200 when the station
    is not found or its rate is null or 0.  For a finite rate that is not
    negative, the amount is not negative whenever the stop is not earlier
    than the start, and it is the exactly rounded charge or next to it.  The
    booking is stored as completed; the port is set to available when the
    booking's station and port ids are ObjectIds that select a port, and no
    station is touched when either is not. *)
Theorem walkin_stop_contract
    (env : Env) (req : Request) (db : DB) (user : User) (userId : string)
    (booking : Booking) :
  authorize env db = inr (user, userId) ->
  or_string (req_action req) "log" = "stop" ->
  stopChecks env req user userId db = inr booking ->
  let durationMs := (now env - startTime booking)%Z in
  let station := findStation db (toObjectId (toString (stationId booking))) in
  let mins := Z.max 1 (Math_round (inject_Z durationMs / 60000)) in
  let rate := match station with
              | Some s =>
                  match pricing s with
                  | Some q => or_number (binary64 q) (Num 200)
                  | None => Num 200
                  end
              | None => Num 200
              end in
  let amt :=
    Math_round_number
      (fmul (fdiv (Num (inject_Z durationMs)) (Num 3600000)) rate) in
  let b := set_completed booking (now env) (inject_Z mins) amt in
  fst (POST env req db) = json (Stopped b amt mins) 200 /\
  (1 <= mins)%Z /\
  (forall r : Q,
      rate = Num r -> 0 <= r ->
      ((startTime booking <= now env)%Z -> nonneg amt) /\
      ((0 <= durationMs <= 1000000000000)%Z -> r <= 2147483648 ->
       exists a : Z,
         amt = Num (inject_Z a) /\ (0 <= a)%Z /\
         (Z.abs (a - Math_round (inject_Z durationMs / 3600000 * r)) <= 1)%Z))
  /\
  status b = completed /\
  storedBooking (snd (POST env req db)) (b_id booking) = Some b /\
  (forall sid pid p,
      toObjectId (toString (stationId booking)) = Some sid ->
      toObjectId (toString (portId booking)) = Some pid ->
      selectedPort db sid (ByPortId pid) = Some p ->
      selectedPort (snd (POST env req db)) sid (ByPortId pid)
      = Some (set_port p available (currentBookingId p))) /\
  (toObjectId (toString (stationId booking)) = None \/
   toObjectId (toString (portId booking)) = None ->
   Stations (snd (POST env req db)) = Stations db).
Proof.
  intros Ha Hact Hs durationMs station mins rate amt b.
  destruct (stopChecks_stored _ _ _ _ _ _ Hs) as [Hstored _].
  assert (Hrate : perHour station = rate) by reflexivity.
  assert (Hnz : forall r, rate = Num r -> ~ r == 0).
  { intros r Hr E. pose proof (perHour_truthy station) as T.
    rewrite Hrate, Hr in T. simpl in T.
    apply Qeq_bool_iff in E. rewrite E in T. discriminate. }
  unfold POST. rewrite Ha, Hact. simpl String.eqb. cbv iota.
  unfold stop. rewrite Hs. cbv zeta. unfold amount.
  fold durationMs. fold station. rewrite Hrate. fold amt. unfold durationMins. fold mins. fold b.
  change (stationId b) with (stationId booking).
  change (portId b) with (portId booking).
  split; [reflexivity |].
  split; [apply Z.le_max_l |].
  split.
  { intros r Hr R0. split.
    { intros Hle. unfold amt. rewrite Hr.
      apply amount_nonneg; [lia | exact R0 | exact (Hnz r Hr)]. }
    intros Hms R1. unfold amt. rewrite Hr.
    assert (E50 : pow2 50 == 1125899906842624) by reflexivity.
    assert (H0 : 0 <= inject_Z durationMs)
      by (change 0 with (inject_Z 0); rewrite <- Zle_Qle; lia).
    assert (H1 : inject_Z durationMs <= 1000000000000)
      by (change 1000000000000 with (inject_Z 1000000000000);
          rewrite <- Zle_Qle; lia).
    assert (Bq : inject_Z durationMs / 3600000 <= 524288).
    { apply Qle_shift_div_r; [reflexivity | Lqa.lra]. }
    assert (Bq0 : 0 <= inject_Z durationMs / 3600000).
    { apply Qle_shift_div_l; [reflexivity | Lqa.lra]. }
    destruct (charge_amount (inject_Z durationMs) 3600000 r)
      as [(a & Ha' & Ha0 & Ha1) _];
      try Lqa.lra; try (rewrite E50; Lqa.lra).
    - rewrite E50.
      apply Qle_trans with (524288 * r); [| Lqa.lra].
      apply Qmult_le_compat_r; assumption.
    - exists a. auto. }
  split; [reflexivity |].
  split; [| split].
  - assert (Hsave : storedBooking (Booking_save db b) (b_id booking) = Some b)
      by (apply (storedBooking_save db booking); [exact Hstored | reflexivity]).
    simpl snd.
    destruct (toObjectId (toString (stationId booking)));
      [destruct (toObjectId (toString (portId booking))) |]; exact Hsave.
  - intros sid pid p Hsid Hpid Hsel. rewrite Hsid, Hpid. simpl snd.
    apply (selectedPort_updateOne (Booking_save db b) sid (ByPortId pid)
             (fun q => set_port q available (currentBookingId q)) p);
      [intros q; apply port_matches_set_port | exact Hsel].
  - intros [-> | Hp]; [reflexivity |].
    rewrite Hp. destruct (toObjectId (toString (stationId booking)));
      reflexivity.
Qed.

(** On the example store: the owner starts a session on port P1 at time 0
    and stops it 90 minutes later: 90 minutes, 300 at a rate of 200, and
    the port is available again. *)
Lemma walkin_stop_contract_witness :
  let run :=
    POST (fst (Scenario.stopAt 5400000)) (snd (Scenario.stopAt 5400000))
      (Scenario.dbStarted Scenario.portHex 0) in
  (exists b, fst run = json (Stopped b (Num 300) 90) 200 /\
             status b = completed) /\
  selectedPort (snd run) Scenario.stationHex (ByPortId Scenario.portHex)
  = Some Scenario.port1.
Proof.
  intros run.
  pose proof (walkin_stop_contract
                (fst (Scenario.stopAt 5400000)) (snd (Scenario.stopAt 5400000))
                (Scenario.dbStarted Scenario.portHex 0) Scenario.owner
                "admin_1"
                (startBooking
                   (Scenario.with_newObjectId
                      (Scenario.env_at (Some "admin_1") 0) Scenario.walkinHex)
                   Scenario.stationHex Scenario.portHex)
                eq_refl eq_refl eq_refl) as H.
  cbv zeta in H. destruct H as (Hresp & _ & _ & Hst & _ & Hport & _).
  split.
  - eexists. split; [| exact Hst].
    unfold run. rewrite Hresp. vm_compute. reflexivity.
  - apply (Hport Scenario.stationHex Scenario.portHex
             (set_port Scenario.port1 occupied None)); reflexivity.
Defined.

End StopClaims.

(** ** The overlap query and walk-in sessions *)

Section InitiateWalkIn.
Import JS Store Env.
Local Open Scope string_scope.

(** C1 at a store that the handlers themselves produce.  The owner starts a
    walk-in session on port P1 at 14:00; the session's booking is active,
    runs to 15:00, and carries the station and port as ObjectIds.  A request
    by user_2 for P1 from 14:30 to 15:30 overlaps it, yet the overlap query,
    which compares the stored ids with strings, finds nothing: the answer
    is 200 and a second booking for the port is stored. *)
Theorem initiate_accepts_slot_held_by_walk_in :
  let db := Scenario.dbStarted Scenario.portHex 50400000 in
  let env := Scenario.env_of (Some "user_2") (Some "key") 50400000
               Scenario.khaltiOk (Returned "Completed") in
  let req := Scenario.slot 52200000 in
  (exists b, In b (Bookings db) /\
             toString (stationId b) = Scenario.stationHex /\
             toString (portId b) = Scenario.portHex /\
             status b = active /\
             (startTime b < 52200000 + 3600000)%Z /\
             (endTime b > 52200000)%Z) /\
  code (fst (PaymentsInitiate.POST env req db)) = 200%Z /\
  List.length (Bookings (snd (PaymentsInitiate.POST env req db)))
    = S (List.length (Bookings db)).
Proof.
  intros db env req. split; [| split].
  - exists (AdminWalkIn.startBooking
              (Scenario.with_newObjectId
                 (Scenario.env_at (Some "admin_1") 50400000)
                 Scenario.walkinHex)
              Scenario.stationHex Scenario.portHex).
    split; [right; left; reflexivity |].
    repeat split; simpl; lia.
  - reflexivity.
  - reflexivity.
Qed.

End InitiateWalkIn.

(** ** Response statuses *)

Section StatusClaims.
Import JS Store Env Routes.
Local Open Scope Z_scope.












End StatusClaims.

(* ================================================================== *)
(** * Part III. Further properties of the code *)
(* ================================================================== *)

(** ** Distances: segments and longer routes *)

Section GeoMore.
Import Geo.
Local Open Scope R_scope.


Lemma segmentAt_cons (lat lng : R) (c : R * R) (coords : list (R * R))
    (i : nat) :
  segmentAt lat lng (c :: coords) (S i) = segmentAt lat lng coords i.
Proof. reflexivity. Qed.

Lemma segmentAt_app (lat lng : R) (coords more : list (R * R)) (i : nat) :
  (i + 1 < List.length coords)%nat ->
  segmentAt lat lng (coords ++ more) i = segmentAt lat lng coords i.
Proof.
  intros Hi. unfold segmentAt.
  rewrite !app_nth1 by lia. reflexivity.
Qed.

Lemma route_below_segment (lat lng : R) (coords : list (R * R)) (i : nat) :
  (i + 1 < List.length coords)%nat ->
  le_dist (pointToRouteDistance lat lng coords) (segmentAt lat lng coords i).
Proof.
  intros Hi. unfold pointToRouteDistance.
  now apply (routeLoop_spec lat lng coords Infinity).
Qed.

Lemma route_attained (lat lng : R) (coords : list (R * R)) (d : R) :
  pointToRouteDistance lat lng coords = Finite d ->
  exists i, (i + 1 < List.length coords)%nat /\
            d = segmentAt lat lng coords i.
Proof.
  unfold pointToRouteDistance. intros H.
  destruct (routeLoop_spec lat lng coords Infinity)
    as (_ & _ & [Heq | (i & Hi & Heq)]).
  - rewrite Heq in H. discriminate.
  - exists i. split; [exact Hi | congruence].
Qed.

(** X5. Extending a route, at its start or at its end, never increases the
    distance from a point to it. *)
Theorem pointToRouteDistance_extend (lat lng : R) (c : R * R)
    (coords : list (R * R)) (d : R) :
  pointToRouteDistance lat lng coords = Finite d ->
  le_dist (pointToRouteDistance lat lng (c :: coords)) d /\
  le_dist (pointToRouteDistance lat lng (coords ++ [c])) d.
Proof.
  intros H. destruct (route_attained _ _ _ _ H) as (i & Hi & ->). split.
  - rewrite <- (segmentAt_cons lat lng c coords i).
    apply route_below_segment. simpl. lia.
  - rewrite <- (segmentAt_app lat lng coords [c] i Hi).
    apply route_below_segment. rewrite length_app. simpl. lia.
Qed.

(** The statement of X5 on a degenerate route of two equal points. *)
Lemma pointToRouteDistance_extend_witness :
  le_dist (pointToRouteDistance 0 0 [(1, 1); (0, 0); (0, 0)]) 0 /\
  le_dist (pointToRouteDistance 0 0 [(0, 0); (0, 0); (1, 1)]) 0.
Proof.
  apply (pointToRouteDistance_extend 0 0 (1, 1) [(0, 0); (0, 0)] 0).
  unfold pointToRouteDistance. simpl.
  rewrite (proj1 (segment_end_points_zero 0 0 0 0)). reflexivity.
Defined.

End GeoMore.

(** ** Arrival status *)

Section ArrivalFacts.
Import JS ArrivalStatus.

Lemma Qltb_lt (a b : Q) : Qltb a b = true <-> a < b.
Proof.
  unfold Qltb. rewrite negb_true_iff. split.
  - intros H. apply Qnot_le_lt. intros Hle.
    apply Qle_bool_iff in Hle. congruence.
  - intros H. destruct (Qle_bool b a) eqn:E; [| reflexivity].
    apply Qle_bool_iff in E. exfalso. now apply (Qlt_not_le a b).
Qed.

Lemma Qltb_ge (a b : Q) : Qltb a b = false <-> b <= a.
Proof.
  unfold Qltb. rewrite negb_false_iff. apply Qle_bool_iff.
Qed.

Lemma Qle_bool_gt (a b : Q) : Qle_bool a b = false <-> b < a.
Proof.
  split.
  - intros H. apply Qnot_le_lt. intros Hle.
    apply Qle_bool_iff in Hle. congruence.
  - intros H. destruct (Qle_bool a b) eqn:E; [| reflexivity].
    apply Qle_bool_iff in E. exfalso. now apply (Qlt_not_le b a).
Qed.

Ltac arrival_cases :=
  repeat split; intros; try discriminate; try reflexivity; try assumption;
  repeat match goal with
         | H : _ /\ _ |- _ => destruct H
         end;
  try Lqa.lra; exfalso; Lqa.lra.

(** X6. With a usable ETA the urgency level is decided by the minutes until
    the expected arrival, [m]: delayed when [m < -30], urgent when
    [-30 <= m <= 5], approaching when [5 < m <= 15], normal above 15; the
    status is overdue exactly when [m < 0].  The expected arrival is the
    date made from the ETA's update time (the clock when it has none) plus
    [durationMinutes * 60 * 1000], computed in binary64 arithmetic, when
    that is a valid date; a whole number of minutes is added exactly. *)
Theorem arrival_urgency_thresholds
    (now : Z) (created start : option Z) (eta : option Eta) (e : Eta) (d : Q)
    (t : Z) :
  usable eta = Some (e, d) ->
  TimeClip (fadd (Num (inject_Z (orNow (updatedAt e) now)))
              (fmul (fmul (binary64 d) (Num 60)) (Num 1000)))
  = Some t ->
  let st := calculateArrivalStatus now created eta start in
  let m := minutesUntilArrival st in
  expectedArrivalTime st = t /\
  (forall k : Z,
      d == inject_Z k ->
      (Z.abs k <= 100000000000)%Z ->
      (Z.abs (orNow (updatedAt e) now + k * 60000) <= 8640000000000000)%Z ->
      t = (orNow (updatedAt e) now + k * 60000)%Z) /\
  m = inject_Z (expectedArrivalTime st - now) / (1000 * 60) /\
  (isOverdue st = true <-> m < 0) /\
  (urgencyLevel st = delayed <-> m < -(30)) /\
  (urgencyLevel st = urgent <-> -(30) <= m /\ m <= 5) /\
  (urgencyLevel st = approaching <-> 5 < m /\ m <= 15) /\
  (urgencyLevel st = normal <-> 15 < m).
Proof.
  intros Hu Ht.
  assert (Hwhole :
    forall k : Z,
      d == inject_Z k ->
      (Z.abs k <= 100000000000)%Z ->
      (Z.abs (orNow (updatedAt e) now + k * 60000) <= 8640000000000000)%Z ->
      t = (orNow (updatedAt e) now + k * 60000)%Z).
  { intros k Hk Hb Hc.
    assert (Ed : binary64 d = Num (inject_Z k))
      by (apply binary64_exact; [exact Hk | lia]).
    rewrite Ed in Ht.
    destruct (end_time_exact (orNow (updatedAt e) now) k (inject_Z k))
      as [_ E]; [reflexivity | exact Hb | exact Hc |].
    congruence. }
  unfold calculateArrivalStatus. rewrite Hu. cbv zeta. rewrite Ht.
  change (getTime (Some t)) with t.
  set (minutes := inject_Z (t - now) / (1000 * 60)).
  assert (Hfix :
    forall st : ArrivalStatus,
      expectedArrivalTime st = t -> minutesUntilArrival st = minutes ->
      ((isOverdue st = true <-> minutes < 0) /\
       (urgencyLevel st = delayed <-> minutes < -(30)) /\
       (urgencyLevel st = urgent <-> -(30) <= minutes /\ minutes <= 5) /\
       (urgencyLevel st = approaching <-> 5 < minutes /\ minutes <= 15) /\
       (urgencyLevel st = normal <-> 15 < minutes)) ->
      expectedArrivalTime st = t /\
      (forall k : Z,
          d == inject_Z k ->
          (Z.abs k <= 100000000000)%Z ->
          (Z.abs (orNow (updatedAt e) now + k * 60000)
           <= 8640000000000000)%Z ->
          t = (orNow (updatedAt e) now + k * 60000)%Z) /\
      minutesUntilArrival st
        = inject_Z (expectedArrivalTime st - now) / (1000 * 60) /\
      (isOverdue st = true <-> minutesUntilArrival st < 0) /\
      (urgencyLevel st = delayed <-> minutesUntilArrival st < -(30)) /\
      (urgencyLevel st = urgent <->
       -(30) <= minutesUntilArrival st /\ minutesUntilArrival st <= 5) /\
      (urgencyLevel st = approaching <->
       5 < minutesUntilArrival st /\ minutesUntilArrival st <= 15) /\
      (urgencyLevel st = normal <-> 15 < minutesUntilArrival st)).
  { intros st He Hm H. rewrite Hm, He. auto. }
  clearbody minutes. clear Ht Hwhole.
  destruct (Qltb minutes 0) eqn:Eo.
  - apply Qltb_lt in Eo.
    assert (Habs : Qabs minutes == - minutes)
      by (apply Qabs_neg; now apply Qlt_le_weak).
    destruct (Qltb 30 (Qabs minutes)) eqn:E30; simpl andb; cbv iota;
      apply Hfix; try reflexivity; simpl.
    + apply Qltb_lt in E30. rewrite Habs in E30. arrival_cases.
    + apply Qltb_ge in E30. rewrite Habs in E30. arrival_cases.
  - apply Qltb_ge in Eo. simpl andb. cbv iota.
    destruct (Qle_bool minutes 5) eqn:E5.
    + apply Qle_bool_iff in E5. apply Hfix; try reflexivity; simpl.
      arrival_cases.
    + apply Qle_bool_gt in E5.
      destruct (Qle_bool minutes 15) eqn:E15;
        apply Hfix; try reflexivity; simpl.
      * apply Qle_bool_iff in E15. arrival_cases.
      * apply Qle_bool_gt in E15. arrival_cases.
Qed.

(** The statement of X6 for an ETA of 20 minutes taken 10 minutes ago, and
    for one of 0.03 minutes taken at time 0: the product
    [0.03 * 60 * 1000] is 1799.9999999999998 in binary64 arithmetic. *)
Lemma arrival_urgency_thresholds_witness :
  urgencyLevel
    (calculateArrivalStatus 600000 (Some 0%Z)
       (Some {| durationMinutes := Some 20; updatedAt := Some 0%Z |})
       (Some 3600000%Z))
  = approaching /\
  expectedArrivalTime
    (calculateArrivalStatus 0 (Some 0%Z)
       (Some {| durationMinutes := Some (3 # 100); updatedAt := Some 0%Z |})
       (Some 3600000%Z))
  = 1799%Z.
Proof.
  split.
  - eassert (Ht : TimeClip _ = Some 1200000%Z);
      [| apply (arrival_urgency_thresholds 600000 (Some 0%Z) (Some 3600000%Z)
                  (Some {| durationMinutes := Some 20;
                           updatedAt := Some 0%Z |})
                  {| durationMinutes := Some 20; updatedAt := Some 0%Z |} 20
                  1200000 eq_refl Ht)];
      [vm_compute; reflexivity |].
    vm_compute. split; [reflexivity | discriminate].
  - eassert (Ht : TimeClip _ = Some 1799%Z);
      [| apply (arrival_urgency_thresholds 0 (Some 0%Z) (Some 3600000%Z)
                  (Some {| durationMinutes := Some (3 # 100);
                           updatedAt := Some 0%Z |})
                  {| durationMinutes := Some (3 # 100);
                     updatedAt := Some 0%Z |} (3 # 100)
                  1799 eq_refl Ht)].
    vm_compute. reflexivity.
Defined.

(** X7. Without a usable ETA (none, no duration, or a duration of 0) the
    status is normal and never overdue, however late the booking's start
    is: the minutes until arrival are those until the start, and 0 once
    the start has passed. *)
Theorem arrival_without_eta
    (now : Z) (created start : option Z) (eta : option Eta) :
  usable eta = None ->
  let st := calculateArrivalStatus now created eta start in
  urgencyLevel st = normal /\
  isOverdue st = false /\
  expectedArrivalTime st = orNow start now /\
  0 <= minutesUntilArrival st /\
  ((now <= orNow start now)%Z ->
   minutesUntilArrival st == inject_Z (orNow start now - now) / 60000) /\
  ((orNow start now <= now)%Z -> minutesUntilArrival st == 0).
Proof.
  intros Hu. unfold calculateArrivalStatus. rewrite Hu. cbv zeta. simpl.
  set (x := inject_Z (orNow start now - now) / (1000 * 60)).
  assert (Hx : (now <= orNow start now)%Z -> 0 <= x).
  { intros H. subst x. apply Qmult_le_0_compat; [| discriminate].
    change 0 with (inject_Z 0). rewrite <- Zle_Qle. lia. }
  assert (Hx' : (orNow start now <= now)%Z -> x <= 0).
  { intros H. subst x.
    assert (Hn : inject_Z (orNow start now - now) <= 0)
      by (change 0 with (inject_Z 0); rewrite <- Zle_Qle; lia).
    unfold Qdiv.
    setoid_replace 0 with (0 * / (1000 * 60)) by ring.
    apply Qmult_le_compat_r; [exact Hn | discriminate]. }
  repeat split.
  - apply Q.le_max_l.
  - intros H. rewrite Q.max_r by auto. reflexivity.
  - intros H. rewrite Q.max_l by auto. reflexivity.
Qed.

(** The statement of X7 for a booking that started an hour ago. *)
Lemma arrival_without_eta_witness :
  urgencyLevel (calculateArrivalStatus 3600000 None None (Some 0%Z)) = normal /\
  minutesUntilArrival (calculateArrivalStatus 3600000 None None (Some 0%Z))
  == 0.
Proof.
  destruct (arrival_without_eta 3600000 None (Some 0%Z) None eq_refl)
    as (H1 & _ & _ & _ & _ & H2).
  split; [exact H1 | apply H2; simpl; lia].
Defined.

Lemma append_longer (a b c : string) :
  (String.length c < String.length b)%nat -> (a ++ b)%string <> c.
Proof.
  intros Hlen E. apply (f_equal String.length) in E.
  assert (Happ : forall x y : string,
             String.length (x ++ y) = (String.length x + String.length y)%nat).
  { induction x as [| ch x IH]; intros y; simpl; [reflexivity |].
    now rewrite IH. }
  rewrite Happ in E. lia.
Qed.

(** X8. The label "Arriving now" is never produced. *)
Theorem arrival_label_never_arriving_now
    (now : Z) (created start : option Z) (eta : option Eta) :
  statusLabel (calculateArrivalStatus now created eta start)
  <> "Arriving now"%string.
Proof.
  unfold calculateArrivalStatus.
  destruct (usable eta) as [[e d] |]; [| discriminate].
  cbv zeta.
  destruct (Qltb _ 0); simpl.
  - destruct (Qltb 30 _); simpl.
    + apply append_longer. simpl. lia.
    + discriminate.
  - destruct (Qle_bool _ 5); simpl; [discriminate |].
    destruct (Qle_bool _ 15); simpl; discriminate.
Qed.

End ArrivalFacts.

(** ** Roles *)

Section AuthFacts.
Import JS Store Env.

(** X9. The role helpers agree with each other and with the inline check of
    the admin routes: [verifyAdminRole] returns the caller's own document,
    never one with the plain user role; it returns a document exactly when
    [isAdmin] holds; a superadmin is an admin; and the admin walk-in route
    lets a request through exactly when the caller is signed in and
    [verifyAdminRole] returns their document. *)
Theorem admin_role_helpers_agree (env : Env) (db : DB) (userId : string)
    (u : User) :
  (Auth.verifyAdminRole db userId = Some u ->
   clerkId u = userId /\ role u <> role_user) /\
  (Auth.isAdmin db userId = true <-> Auth.verifyAdminRole db userId <> None) /\
  (Auth.isSuperAdmin db userId = true -> Auth.isAdmin db userId = true) /\
  (AdminWalkIn.authorize env db = inr (u, userId) <->
   present (auth_userId env) = Some userId /\
   Auth.verifyAdminRole db userId = Some u).
Proof.
  unfold Auth.verifyAdminRole, Auth.isAdmin, Auth.isSuperAdmin,
    AdminWalkIn.authorize, AdminWalkIn.is_admin_or_superadmin.
  split; [| split; [| split]].
  - destruct (User_findOne db userId) as [x |] eqn:E; [| discriminate].
    unfold User_findOne in E. apply find_some in E. destruct E as [_ E].
    apply String.eqb_eq in E.
    destruct (role x) eqn:Er; intros [= <-]; split; congruence.
  - destruct (User_findOne db userId) as [x |];
      [destruct (role x) |]; split; congruence.
  - destruct (User_findOne db userId) as [x |]; [destruct (role x) |];
      congruence.
  - destruct (present (auth_userId env)) as [id |].
    + split.
      * destruct (User_findOne db id) as [x |] eqn:E; [| discriminate].
        destruct (role x) eqn:Er; simpl; intros [= <- <-];
          rewrite E, Er; auto.
      * intros [[= ->] H].
        destruct (User_findOne db userId) as [x |]; [| discriminate].
        destruct (role x); simpl; congruence.
    + split; [discriminate | intros [H _]; discriminate].
Qed.

(** The statement of X9 for the station owner of the example store. *)
Lemma admin_role_helpers_agree_witness :
  AdminWalkIn.authorize (Scenario.env_at (Some "admin_1"%string) 0)
    Scenario.db0
  = inr (Scenario.owner, "admin_1"%string) /\
  Auth.isAdmin Scenario.db0 "admin_1" = true.
Proof.
  destruct (admin_role_helpers_agree (Scenario.env_at (Some "admin_1"%string) 0)
              Scenario.db0 "admin_1" Scenario.owner)
    as (_ & H2 & _ & H4).
  split.
  - apply H4. split; reflexivity.
  - apply H2. discriminate.
Defined.

End AuthFacts.

(** ** The overlap test and repeated bookings *)

Section OverlapFacts.
Import JS Store Env PaymentsInitiate.
Local Open Scope Z_scope.

(** X10. For a stored booking on the requested station and port that holds
    the port, and non-empty intervals, the overlap test holds exactly when
    the half-open intervals [[start, end)] share an instant; it is
    symmetric in the two bookings. *)
Theorem overlap_test_is_intersection
    (stationId canonical : string) (start end_ : Z) (b : Booking) :
  Store.stationId b = Str stationId ->
  portId b = Str canonical ->
  In (status b) [pending; confirmed; active] ->
  start < end_ -> startTime b < endTime b ->
  (overlaps stationId canonical start end_ b = true <->
   exists t, (start <= t < end_) /\ (startTime b <= t < endTime b)) /\
  (forall b' : Booking,
      Store.stationId b' = Str stationId ->
      portId b' = Str canonical ->
      In (status b') [pending; confirmed; active] ->
      overlaps stationId canonical (startTime b') (endTime b') b
      = overlaps stationId canonical (startTime b) (endTime b) b').
Proof.
  intros Hs Hp Hst Hne Hne'. split.
  - rewrite overlaps_blocking. unfold blocking. split.
    + intros (_ & _ & _ & H1 & H2).
      exists (Z.max start (startTime b)). lia.
    + intros (t & Ht & Ht'). repeat split; auto; lia.
  - intros b' Hs' Hp' Hst'. unfold overlaps.
    rewrite Hs, Hp, Hs', Hp'.
    apply includes_In in Hst, Hst'. rewrite Hst, Hst'.
    rewrite !(proj2 (ident_eqb_eq _ _) eq_refl). simpl.
    rewrite Z.gtb_ltb, (Z.gtb_ltb (endTime b')). apply andb_comm.
Qed.

(** The statement of X10 for the 10:00 to 11:00 booking of the example
    store and the slot 10:30 to 11:30. *)
Lemma overlap_test_is_intersection_witness :
  overlaps Scenario.stationHex Scenario.portHex 37800000 41400000
    Scenario.bookingA = true.
Proof.
  apply (overlap_test_is_intersection Scenario.stationHex Scenario.portHex
           37800000 41400000 Scenario.bookingA);
    try reflexivity; try (simpl; lia).
  - simpl. auto.
  - exists 37800000. simpl. lia.
Defined.





End OverlapFacts.

(** ** What every route keeps *)

Section RouteInvariants.
Import JS Store Env Routes Invariant.
Local Open Scope Z_scope.

Lemma ids_update_first (id : string) (b : Booking) (l : list Booking) :
  b_id b = id ->
  map b_id (update_first (fun x => String.eqb (b_id x) id) (fun _ => b) l)
  = map b_id l.
Proof.
  intros Hid. induction l as [| y l IH]; simpl; [reflexivity |].
  destruct (String.eqb (b_id y) id) eqn:E; simpl.
  - apply String.eqb_eq in E. congruence.
  - now rewrite IH.
Qed.

(** The booking list is a read. *)
Lemma bookings_get_store (env : Env) (req : Bookings.Request) (db : DB) :
  snd (Bookings.GET env req db) = db.
Proof.
  unfold Bookings.GET. destruct (present _); [| reflexivity]. cbv zeta.
  destruct (Int32 _); [destruct (Int32 _) |];
    try destruct (find_skip_limit _ _ _); reflexivity.
Qed.

Lemma keeps_same (db db' : DB) :
  Bookings db' = Bookings db -> keeps_bookings db db'.
Proof.
  intros H. exists []. rewrite H, app_nil_r. split; [reflexivity | simpl; lia].
Qed.

Lemma keeps_save (db : DB) (b : Booking) :
  map b_id (Bookings (Booking_save db b)) = map b_id (Bookings db).
Proof. simpl. now apply ids_update_first. Qed.

Lemma keeps_ids (db db' : DB) (extra : list string) :
  map b_id (Bookings db') = map b_id (Bookings db) ++ extra ->
  (List.length extra <= 1)%nat -> keeps_bookings db db'.
Proof. intros H Hl. now exists extra. Qed.

Lemma afterCommit_ids (env : Env) (req : PaymentsInitiate.Request)
    (c : PaymentsInitiate.Checked) (booking : Booking) (db : DB) :
  map b_id (Bookings (snd (PaymentsInitiate.afterCommit env req c booking db)))
  = map b_id (Bookings db).
Proof.
  unfold PaymentsInitiate.afterCommit.
  destruct (khaltiInitiate env _); simpl; [| reflexivity].
  apply ids_update_first. repeat split_match; reflexivity.
Qed.

Lemma initiate_keeps (env : Env) (req : PaymentsInitiate.Request) (db : DB) :
  keeps_bookings db (snd (PaymentsInitiate.POST env req db)) /\
  Stations (snd (PaymentsInitiate.POST env req db)) = Stations db.
Proof.
  unfold PaymentsInitiate.POST.
  destruct (PaymentsInitiate.checks env req db) as [[r | c] db1] eqn:Hc;
    destruct (checks_collections _ _ _ _ _ Hc) as [HB HS].
  - split; [now apply keeps_same | exact HS].
  - unfold PaymentsInitiate.transaction.
    destruct (find _ (Bookings db1)); simpl snd.
    + split; [now apply keeps_same | exact HS].
    + match goal with
      | |- context [PaymentsInitiate.afterCommit ?e ?r ?c ?b ?d] =>
          pose proof (afterCommit_ids e r c b d) as Hids;
          destruct (afterCommit_collections e r c b d) as (_ & _ & Hst)
      end.
      split.
      * eapply keeps_ids; [rewrite Hids; simpl; rewrite map_app, HB;
                           reflexivity | simpl; lia].
      * rewrite Hst. exact HS.
Qed.

Lemma verify_keeps (env : Env) (req : PaymentsVerify.Request) (db : DB) :
  keeps_bookings db (snd (PaymentsVerify.POST env req db)).
Proof.
  unfold PaymentsVerify.POST.
  destruct (PaymentsVerify.checks env req db) as [r | [s b]];
    [now apply keeps_same |].
  unfold PaymentsVerify.confirmBooking, PaymentsVerify.cancelBooking.
  repeat split_match; simpl snd;
    try (now apply keeps_same);
    (eapply keeps_ids;
     [simpl; rewrite ids_update_first by reflexivity;
      symmetry; apply app_nil_r | simpl; lia]).
Qed.

Lemma checkin_keeps (env : Env) (req : WalkInCheckin.Request) (db : DB) :
  keeps_bookings db (snd (WalkInCheckin.POST env req db)).
Proof.
  unfold WalkInCheckin.POST.
  destruct (WalkInCheckin.locate env req db) as [r | [[[st p] cn] cp]];
    [now apply keeps_same |].
  destruct (negb _); [now apply keeps_same |].
  simpl snd. unfold WalkInCheckin.markOccupied.
  destruct (p_id p);
    (eapply keeps_ids; [simpl; rewrite map_app; reflexivity | simpl; lia]).
Qed.

Lemma admin_walkin_keeps (env : Env) (req : AdminWalkIn.Request) (db : DB) :
  keeps_bookings db (snd (AdminWalkIn.POST env req db)).
Proof.
  unfold AdminWalkIn.POST.
  destruct (AdminWalkIn.authorize env db) as [r | [user userId]];
    [now apply keeps_same |].
  destruct (String.eqb _ "start"); [| destruct (String.eqb _ "stop")].
  - unfold AdminWalkIn.start.
    destruct (AdminWalkIn.startChecks env req user userId db)
      as [r | [[sid pid] st]]; [now apply keeps_same |].
    cbv zeta. destruct (find _ (Bookings db)); [now apply keeps_same |].
    simpl snd.
    destruct (AdminWalkIn.toObjectId sid), (AdminWalkIn.toObjectId pid);
      (eapply keeps_ids; [simpl; rewrite map_app; reflexivity | simpl; lia]).
  - unfold AdminWalkIn.stop.
    destruct (AdminWalkIn.stopChecks env req user userId db) as [r | b];
      [now apply keeps_same |].
    cbv zeta. simpl snd.
    destruct (AdminWalkIn.toObjectId (toString (stationId b)));
      [destruct (AdminWalkIn.toObjectId _) |];
      (eapply keeps_ids;
       [simpl; rewrite ids_update_first by reflexivity;
        symmetry; apply app_nil_r | simpl; lia]).
  - unfold AdminWalkIn.log.
    repeat split_match; simpl snd; try (now apply keeps_same);
      (eapply keeps_ids; [simpl; rewrite map_app; reflexivity | simpl; lia]).
Qed.

(** X12. No route deletes or reorders bookings or changes a booking's
    [_id]: after every request the stored bookings are the earlier ones,
    under the same ids, followed by at most one new booking. *)
Theorem routes_keep_bookings (env : Env) (c : Call) (db : DB) :
  keeps_bookings db (snd (handle env c db)).
Proof.
  destruct c; simpl handle.
  - apply initiate_keeps.
  - now apply keeps_same.
  - apply verify_keeps.
  - now apply keeps_same.
  - unfold RefreshEta.POST.
    repeat split_match; simpl snd; try (now apply keeps_same).
    eapply keeps_ids;
      [simpl; rewrite ids_update_first by reflexivity;
       symmetry; apply app_nil_r | simpl; lia].
  - apply keeps_same. now rewrite bookings_get_store.
  - now apply keeps_same.
  - apply checkin_keeps.
  - unfold AdminStationPorts.PATCH.
    repeat split_match; simpl snd; now apply keeps_same.
  - unfold AdminStations.GET. repeat split_match; now apply keeps_same.
  - unfold AdminStations.POST. repeat split_match; now apply keeps_same.
  - apply admin_walkin_keeps.
  - unfold AdminWalkIn.GET. repeat split_match; now apply keeps_same.
Qed.

(** X13. Without a signed-in user every route except the public check-in
    leaves the store as it is and answers 401, or 403 and 410 from the three
    routes that always refuse. *)
Theorem routes_require_sign_in (env : Env) (c : Call) (db : DB) :
  present (auth_userId env) = None ->
  (forall req, c <> WalkInCheckin_POST req) ->
  snd (handle env c db) = db /\
  In (code (fst (handle env c db))) [401; 403; 410].
Proof.
  intros Hauth Hpublic.
  destruct c; simpl handle;
    try (exfalso; eapply Hpublic; reflexivity);
    unfold PaymentsInitiate.POST, PaymentsInitiate.checks,
      PaymentsVerify.POST, PaymentsVerify.checks, RefreshEta.POST,
      Bookings.GET, AdminStationPorts.PATCH, AdminStations.GET,
      AdminStations.POST, AdminWalkIn.POST, AdminWalkIn.GET,
      AdminWalkIn.authorize;
    rewrite ?Hauth; simpl; auto.
Qed.

(** The statement of X13 for a verification on the example store. *)
Lemma routes_require_sign_in_witness :
  handle (Scenario.env_at None 0) (PaymentsVerify_POST Scenario.verifyP)
    Scenario.dbP
  = (json (Error "Unauthorized") 401, Scenario.dbP).
Proof.
  destruct (routes_require_sign_in (Scenario.env_at None 0)
              (PaymentsVerify_POST Scenario.verifyP) Scenario.dbP eq_refl)
    as [H _]; [discriminate |].
  rewrite <- H at 2. reflexivity.
Defined.

Ltac unchanged_or_success :=
  repeat split_match; simpl; intros Herr; try reflexivity;
  try (exfalso; lia).

(** X14. An error response never comes with a changed station: whenever a
    route answers with a status of 400 or more, all stations and their
    ports are as they were. *)
Theorem error_leaves_stations (env : Env) (c : Call) (db : DB) :
  400 <= code (fst (handle env c db)) ->
  Stations (snd (handle env c db)) = Stations db.
Proof.
  destruct c; simpl handle.
  - intros _. apply initiate_keeps.
  - reflexivity.
  - unfold PaymentsVerify.POST.
    destruct (PaymentsVerify.checks env req db) as [r | [s b]];
      [reflexivity |].
    unfold PaymentsVerify.confirmBooking, PaymentsVerify.cancelBooking.
    unchanged_or_success.
  - reflexivity.
  - unfold RefreshEta.POST. unchanged_or_success.
  - intros _. now rewrite bookings_get_store.
  - reflexivity.
  - unfold WalkInCheckin.POST.
    destruct (WalkInCheckin.locate env req db) as [r | [[[st p] cn] cp]];
      [reflexivity |].
    unchanged_or_success.
  - unfold AdminStationPorts.PATCH. unchanged_or_success.
  - unfold AdminStations.GET. unchanged_or_success.
  - unfold AdminStations.POST. unchanged_or_success.
  - unfold AdminWalkIn.POST.
    destruct (AdminWalkIn.authorize env db) as [r | [user userId]];
      [reflexivity |].
    destruct (String.eqb _ "start"); [| destruct (String.eqb _ "stop")].
    + unfold AdminWalkIn.start.
      destruct (AdminWalkIn.startChecks env req user userId db)
        as [r | [[sid pid] st]]; [reflexivity |].
      unchanged_or_success.
    + unfold AdminWalkIn.stop.
      destruct (AdminWalkIn.stopChecks env req user userId db) as [r | b];
        [reflexivity |].
      simpl. intros Herr. exfalso. lia.
    + unfold AdminWalkIn.log. unchanged_or_success.
  - unfold AdminWalkIn.GET. unchanged_or_success.
Qed.

(** The statement of X14 for a check-in on the port in maintenance. *)
Lemma error_leaves_stations_witness :
  Stations
    (snd (handle (Scenario.env_at None 0)
            (WalkInCheckin_POST
               {| WalkInCheckin.req_stationId := Some Scenario.stationHex;
                  WalkInCheckin.req_portId := Some "P2"%string;
                  WalkInCheckin.req_customerName := Some "Asha"%string;
                  WalkInCheckin.req_customerPhone := Some "98"%string;
                  WalkInCheckin.req_vehicleNumber := None;
                  WalkInCheckin.req_vehicleType := None;
                  WalkInCheckin.req_estimatedDuration := Missing |})
            Scenario.db0))
  = Stations Scenario.db0.
Proof.
  apply error_leaves_stations. vm_compute. discriminate.
Defined.

End RouteInvariants.

(** ** Listings *)

Section ListingFacts.
Import JS Store Env.

Lemma In_firstn_list {A : Type} (n : nat) (l : list A) (x : A) :
  In x (firstn n l) -> In x l.
Proof.
  intros H. rewrite <- (firstn_skipn n l). apply in_or_app. now left.
Qed.

Lemma In_skipn_list {A : Type} (n : nat) (l : list A) (x : A) :
  In x (skipn n l) -> In x l.
Proof.
  intros H. rewrite <- (firstn_skipn n l). apply in_or_app. now right.
Qed.

Lemma Int32_inject_Z (z : Z) :
  (0 <= z <= 2147483647)%Z -> Int32 (Num (inject_Z z)) = Some z.
Proof.
  intros H. unfold Int32. rewrite Qfloor_Z.
  assert (E1 : Qeq_bool (inject_Z z) (inject_Z z) = true)
    by (apply Qeq_bool_iff; reflexivity).
  assert (E2 : (0 <=? z)%Z = true) by (apply Z.leb_le; lia).
  assert (E3 : (z <=? 2147483647)%Z = true) by (apply Z.leb_le; lia).
  now rewrite E1, E2, E3.
Qed.

Lemma Int32_value (x : number) (z : Z) :
  Int32 x = Some z ->
  exists q, x = Num q /\ q == inject_Z z /\ (0 <= z <= 2147483647)%Z.
Proof.
  unfold Int32. destruct x as [| s | q]; try discriminate.
  destruct (Qeq_bool (inject_Z (Qfloor q)) q) eqn:E1; [| discriminate].
  destruct (0 <=? Qfloor q)%Z eqn:E2; [| discriminate].
  destruct (Qfloor q <=? 2147483647)%Z eqn:E3; [| discriminate].
  simpl. intros [= <-]. exists q.
  apply Qeq_bool_iff in E1. apply Z.leb_le in E2, E3.
  split; [reflexivity | split; [now symmetry | lia]].
Qed.

Lemma Math_max_inject_Z (a b : Z) :
  Math_max (Num (inject_Z a)) (Num (inject_Z b)) = Num (inject_Z (Z.max a b)).
Proof.
  unfold Math_max, fle. destruct (Qle_bool (inject_Z a) (inject_Z b)) eqn:E.
  - apply Qle_bool_iff in E. rewrite <- Zle_Qle in E.
    now rewrite Z.max_r.
  - destruct (Z.le_gt_cases a b) as [H | H].
    + rewrite Zle_Qle in H. apply Qle_bool_iff in H. congruence.
    + rewrite Z.max_l by lia. reflexivity.
Qed.

Lemma Math_min_inject_Z (a b : Z) :
  Math_min (Num (inject_Z a)) (Num (inject_Z b)) = Num (inject_Z (Z.min a b)).
Proof.
  unfold Math_min, fle. destruct (Qle_bool (inject_Z a) (inject_Z b)) eqn:E.
  - apply Qle_bool_iff in E. rewrite <- Zle_Qle in E.
    now rewrite Z.min_l.
  - destruct (Z.le_gt_cases a b) as [H | H].
    + rewrite Zle_Qle in H. apply Qle_bool_iff in H. congruence.
    + rewrite Z.min_r by lia. reflexivity.
Qed.

(** The limit of the list, when it is a number, lies between 1 and 50. *)
Lemma limit_bounds (x : number) (l : Z) :
  Int32 (Math_min (Num 50) (Math_max (Num 1) x)) = Some l ->
  (1 <= l <= 50)%Z.
Proof.
  intros H. destruct (Int32_value _ _ H) as (q & Hq & Hl & _).
  assert (Hb : 1 <= q /\ q <= 50).
  { revert Hq. destruct x as [| [|] | y].
    - discriminate.
    - vm_compute. intros [= <-]. split; discriminate.
    - vm_compute. intros [= <-]. split; discriminate.
    - unfold Math_max, Math_min, fle.
      destruct (Qle_bool 1 y) eqn:E1.
      + apply Qle_bool_iff in E1. destruct (Qle_bool 50 y) eqn:E2.
        * intros [= <-]. split; discriminate.
        * intros [= <-]. split; [exact E1 |].
          apply Qlt_le_weak, Qnot_le_lt. intros H'.
          apply Qle_bool_iff in H'. congruence.
      + change (Qle_bool 50 1) with false. cbv iota.
        intros [= <-]. split; discriminate. }
  destruct Hb as [H1 H50]. rewrite Hl in H1, H50.
  change 1 with (inject_Z 1) in H1. change 50 with (inject_Z 50) in H50.
  rewrite <- Zle_Qle in H1, H50. lia.
Qed.

(** X15. The booking list of a signed-in user never changes the store.
    When [skip] and [limit] are integers that the query takes, which they
    are for parameters that are absent or start with a decimal integer and
    a page of at most 40000000, the limit is the given one clamped into
    [[1, 50]], the list holds no more bookings than that, and every one of
    them is a stored booking of that user, with the requested status when
    one is given.  A parameter that starts with no digit makes [limit] or
    [skip] [NaN], and the answer is what the driver makes of it. *)
Theorem bookings_list_own_only (env : Env) (req : Bookings.Request)
    (db : DB) (userId : string) :
  present (auth_userId env) = Some userId ->
  let page :=
    Math_max (Num 1) (parseInt (or_string (Bookings.req_page req) "1")) in
  let limit :=
    Math_min (Num 50)
      (Math_max (Num 1)
         (parseInt (or_string (Bookings.req_limit req) "20"))) in
  let skip_ := fmul (fadd page (Num (-1))) limit in
  snd (Bookings.GET env req db) = db /\
  (forall s l : Z,
      Int32 skip_ = Some s -> Int32 limit = Some l ->
      (1 <= l <= 50)%Z /\
      exists bookings : list Booking,
        Bookings.GET env req db = (json (BookingList bookings) 200, db) /\
        (List.length bookings <= Z.to_nat l)%nat /\
        (forall b, In b bookings ->
                   In b (Bookings db) /\
                   Store.userId b = userId /\
                   (forall st, present (Bookings.req_status req) = Some st ->
                               Bookings.BookingStatus_text (status b) = st)))
  /\
  (forall p l : Z,
      parseInt (or_string (Bookings.req_page req) "1") = Num (inject_Z p) ->
      parseInt (or_string (Bookings.req_limit req) "20") = Num (inject_Z l) ->
      (p <= 40000000)%Z ->
      Int32 limit = Some (Z.min 50 (Z.max 1 l)) /\
      Int32 skip_ = Some ((Z.max 1 p - 1) * Z.min 50 (Z.max 1 l))%Z) /\
  (parseInt (or_string (Bookings.req_page req) "1") = NaN \/
   parseInt (or_string (Bookings.req_limit req) "20") = NaN ->
   skip_ = NaN /\
   Bookings.GET env req db
   = match find_skip_limit env skip_ limit with
     | Returned bookings => (json (BookingList bookings) 200, db)
     | Thrown _ => (json (Error "Failed to fetch bookings") 500, db)
     end).
Proof.
  intros Hauth page limit skip_.
  split; [apply bookings_get_store |].
  split; [| split].
  - intros s l Hs Hl.
    split; [exact (limit_bounds _ _ Hl) |].
    unfold Bookings.GET. rewrite Hauth. cbv zeta.
    fold page. fold limit. fold skip_. rewrite Hs, Hl.
    eexists. split; [reflexivity | split].
    + apply firstn_le_length.
    + intros b Hb.
      apply In_firstn_list, In_skipn_list in Hb.
      apply in_rev in Hb. apply filter_In in Hb. destruct Hb as [Hin Hsel].
      apply andb_true_iff in Hsel. destruct Hsel as [Hu Hst].
      apply String.eqb_eq in Hu.
      split; [exact Hin | split; [exact Hu |]].
      intros st Hreq. rewrite Hreq in Hst. now apply String.eqb_eq.
  - intros p l Hp Hl Hbound.
    assert (El : limit = Num (inject_Z (Z.min 50 (Z.max 1 l)))).
    { unfold limit. rewrite Hl.
      change (Num 1) with (Num (inject_Z 1)).
      change (Num 50) with (Num (inject_Z 50)).
      now rewrite Math_max_inject_Z, Math_min_inject_Z. }
    assert (Ep : page = Num (inject_Z (Z.max 1 p))).
    { unfold page. rewrite Hp. change (Num 1) with (Num (inject_Z 1)).
      now rewrite Math_max_inject_Z. }
    assert (Es : skip_
                 = Num (inject_Z ((Z.max 1 p - 1) * Z.min 50 (Z.max 1 l)))).
    { unfold skip_. rewrite Ep, El. unfold fadd, fmul.
      rewrite (binary64_exact _ (Z.max 1 p - 1));
        [| unfold Zminus; rewrite inject_Z_plus; reflexivity | lia].
      apply binary64_exact; [rewrite inject_Z_mult; reflexivity | nia]. }
    rewrite El, Es. split; apply Int32_inject_Z; nia.
  - intros Hnan.
    assert (Es : skip_ = NaN).
    { unfold skip_, page, limit.
      destruct Hnan as [-> | ->]; [reflexivity |].
      change (Math_min (Num 50) (Math_max (Num 1) NaN)) with NaN.
      destruct (fadd _ _) as [| [|] | q]; reflexivity. }
    split; [exact Es |].
    unfold Bookings.GET. rewrite Hauth. cbv zeta.
    fold page. fold limit. fold skip_. rewrite Es. reflexivity.
Qed.

(** The statement of X15 for user_1 on the example store, with the limit
    1000 and with the limit abc. *)
Lemma bookings_list_own_only_witness :
  let env := Scenario.env_at (Some "user_1"%string) 0 in
  let req (limit : string) :=
    {| Bookings.req_status := None; Bookings.req_page := None;
       Bookings.req_limit := Some limit |} in
  (exists l : list Booking,
      Bookings.GET env (req "1000"%string) Scenario.dbP
      = (json (BookingList l) 200, Scenario.dbP) /\
      (List.length l <= 50)%nat) /\
  Bookings.GET env (req "abc"%string) Scenario.dbP
  = (json (Error "Failed to fetch bookings"%string) 500, Scenario.dbP).
Proof.
  intros env req. split.
  - destruct (bookings_list_own_only env (req "1000"%string) Scenario.dbP
                "user_1" eq_refl) as (_ & H & Hint & _).
    destruct (Hint 1 1000)%Z as [Hl Hs];
      [vm_compute; reflexivity | vm_compute; reflexivity | lia |].
    destruct (H _ _ Hs Hl) as (_ & l & H1 & H2 & _).
    exists l. split; [exact H1 |].
    etransitivity; [exact H2 |]. vm_compute. lia.
  - destruct (bookings_list_own_only env (req "abc"%string) Scenario.dbP
                "user_1" eq_refl) as (_ & _ & _ & H).
    destruct H as [_ H]; [right; vm_compute; reflexivity |].
    rewrite H. vm_compute. reflexivity.
Defined.

(** X16. The station list of a plain admin holds only stored stations that
    the admin owns; stations loaded from the file appear only for a
    superadmin, and only under names that no listed stored station has. *)
Theorem admin_stations_visibility (env : Env) (db : DB) (userId : string)
    (user : User) :
  AdminWalkIn.authorize env db = inr (user, userId) ->
  exists l : list Station,
    AdminStations.GET env db = (json (StationList l) 200, db) /\
    (role user = role_admin ->
     forall s, In s l -> In s (Stations db) /\ adminId s = Some userId) /\
    (forall s, In s l -> ~ In s (Stations db) ->
               role user = role_superadmin /\
               In s (loadAllStationsFromFile env) /\
               forall s', In s' (Stations db) -> name s' <> name s).
Proof.
  intros Ha.
  assert (Hauth : present (auth_userId env) = Some userId /\
                  User_findOne db userId = Some user /\
                  AdminWalkIn.is_admin_or_superadmin user = true).
  { revert Ha. unfold AdminWalkIn.authorize.
    destruct (present (auth_userId env)) as [id |]; [| discriminate].
    destruct (User_findOne db id) as [u |] eqn:E; [| discriminate].
    destruct (AdminWalkIn.is_admin_or_superadmin u) eqn:Er; simpl;
      [| discriminate].
    intros [= <- <-]. auto. }
  destruct Hauth as (Hp & Hu & Hr).
  unfold AdminStations.GET. rewrite Hp, Hu, Hr. simpl negb. cbv iota zeta.
  eexists. split; [reflexivity | split].
  - intros Hrole s Hs. unfold AdminWalkIn.is_admin in Hs.
    rewrite Hrole in Hs. rewrite app_nil_r in Hs.
    apply in_rev in Hs. apply filter_In in Hs. destruct Hs as [Hin Hown].
    split; [exact Hin |].
    destruct (adminId s) as [a |]; [| discriminate].
    apply String.eqb_eq in Hown. now subst.
  - intros s Hs Hnot. apply in_app_or in Hs. destruct Hs as [Hs | Hs].
    + exfalso. apply Hnot. apply in_rev in Hs.
      destruct (AdminWalkIn.is_admin user); [| exact Hs].
      apply filter_In in Hs. tauto.
    + destruct (role user) eqn:Hrole; try contradiction.
      apply filter_In in Hs. destruct Hs as [Hfile Hname].
      split; [reflexivity | split; [exact Hfile |]].
      intros s' Hs' Heq.
      apply negb_true_iff in Hname.
      assert (Hex : existsb (String.eqb (name s))
                      (map name (rev (Stations db))) = true).
      { apply existsb_exists. exists (name s'). split.
        - apply in_map. now apply in_rev in Hs'.
        - rewrite Heq. apply String.eqb_refl. }
      unfold AdminWalkIn.is_admin in Hname. rewrite Hrole in Hname.
      congruence.
Qed.

(** The statement of X16 for the station owner of the example store. *)
Lemma admin_stations_visibility_witness :
  exists l : list Station,
    AdminStations.GET (Scenario.env_at (Some "admin_1"%string) 0) Scenario.db0
    = (json (StationList l) 200, Scenario.db0) /\
    forall s, In s l -> adminId s = Some "admin_1"%string.
Proof.
  destruct (admin_stations_visibility
              (Scenario.env_at (Some "admin_1"%string) 0) Scenario.db0
              "admin_1" Scenario.owner eq_refl) as (l & H & Hown & _).
  exists l. split; [exact H |].
  intros s Hs. now apply (Hown eq_refl).
Defined.

(** X17. The walk-in list holds at most 100 stored bookings, all of them
    walk-in bookings; for a plain admin each one belongs to a station that
    the admin owns. *)
Theorem admin_walkins_visibility (env : Env) (db : DB) (userId : string)
    (user : User) :
  AdminWalkIn.authorize env db = inr (user, userId) ->
  exists l : list Booking,
    AdminWalkIn.GET env db = (json (BookingList l) 200, db) /\
    (List.length l <= 100)%nat /\
    (forall b, In b l ->
               In b (Bookings db) /\
               (source b = walk_in_manual \/ source b = walk_in_qr) /\
               (role user = role_admin ->
                exists s, In s (Stations db) /\
                          adminId s = Some userId /\
                          s_id s = toString (stationId b))).
Proof.
  intros Ha.
  assert (Hauth : present (auth_userId env) = Some userId /\
                  User_findOne db userId = Some user /\
                  AdminWalkIn.is_admin_or_superadmin user = true).
  { revert Ha. unfold AdminWalkIn.authorize.
    destruct (present (auth_userId env)) as [id |]; [| discriminate].
    destruct (User_findOne db id) as [u |] eqn:E; [| discriminate].
    destruct (AdminWalkIn.is_admin_or_superadmin u) eqn:Er; simpl;
      [| discriminate].
    intros [= <- <-]. auto. }
  destruct Hauth as (Hp & Hu & Hr).
  unfold AdminWalkIn.GET. rewrite Hp, Hu, Hr. simpl negb. cbv iota zeta.
  eexists. split; [reflexivity | split; [apply firstn_le_length |]].
  intros b Hb. apply In_firstn_list in Hb. apply in_rev in Hb.
  apply filter_In in Hb. destruct Hb as [Hin Hsel].
  apply andb_true_iff in Hsel. destruct Hsel as [Hsrc Hst].
  split; [exact Hin | split].
  - destruct (source b); simpl in Hsrc; auto; discriminate.
  - intros Hrole. unfold AdminWalkIn.is_admin in Hst. rewrite Hrole in Hst.
    simpl in Hst. apply existsb_exists in Hst.
    destruct Hst as (id & Hid & Heq). apply String.eqb_eq in Heq.
    apply in_map_iff in Hid. destruct Hid as (s & Hsid & Hs).
    apply filter_In in Hs. destruct Hs as [Hs Hown].
    exists s. split; [exact Hs | split; [| congruence]].
    destruct (adminId s) as [a |]; [| discriminate].
    apply String.eqb_eq in Hown. now subst.
Qed.

(** The statement of X17 after the owner started a session on port P1. *)
Lemma admin_walkins_visibility_witness :
  exists l : list Booking,
    AdminWalkIn.GET (Scenario.env_at (Some "admin_1"%string) 0)
      (Scenario.dbStarted Scenario.portHex 0)
    = (json (BookingList l) 200, Scenario.dbStarted Scenario.portHex 0) /\
    (List.length l <= 100)%nat.
Proof.
  destruct (admin_walkins_visibility
              (Scenario.env_at (Some "admin_1"%string) 0)
              (Scenario.dbStarted Scenario.portHex 0)
              "admin_1" Scenario.owner eq_refl) as (l & H1 & H2 & _).
  exists l. split; assumption.
Defined.

End ListingFacts.

(** ** Station creation and ETA refresh *)

Section AdminAndEtaFacts.
Import JS Store Env.






(** X19. A refresh that answers 200 stores the booking with the new
    location and ETA and nothing else changed, for a caller who owns the
    booking or is an admin; a signed-in caller who is neither gets 403 and
    the store is untouched. *)
Theorem refresh_eta_effect (env : Env) (id : string)
    (userLocation : option LatLng) (db : DB) :
  (forall b' db',
      RefreshEta.POST env id userLocation db
      = (json (BookingBody b') 200, db') ->
      exists (b : Booking) (l : LatLng) (e : ETA) (userId : string),
        storedBooking db (b_id b') = Some b /\
        b' = set_location_eta b (Some l) (Some e) /\
        has_lat_lng userLocation = Some l /\
        db' = Booking_save db b' /\
        storedBooking db' (b_id b') = Some b' /\
        present (auth_userId env) = Some userId /\
        (Store.userId b = userId \/ Auth.isAdmin db userId = true)) /\
  (forall b l userId,
      present (auth_userId env) = Some userId ->
      has_lat_lng userLocation = Some l ->
      Booking_findById db id = Returned (Some b) ->
      Store.userId b <> userId ->
      Auth.isAdmin db userId = false ->
      RefreshEta.POST env id userLocation db
      = (json (Error "Forbidden") 403, db)).
Proof.
  unfold RefreshEta.POST, Auth.isAdmin, AdminWalkIn.is_admin_or_superadmin.
  split.
  - intros b' db'.
    destruct (present (auth_userId env)) as [userId |]; [| discriminate].
    destruct (has_lat_lng userLocation) as [l |]; [| discriminate].
    destruct (Booking_findById db id) as [[b |] |] eqn:Ef; try discriminate.
    assert (Hstored : storedBooking db (b_id b) = Some b).
    { unfold Booking_findById in Ef.
      destruct (castObjectId (Str id)) as [h |]; [| discriminate].
      injection Ef as Ef. rewrite (storedBooking_id _ _ _ Ef). exact Ef. }
    destruct (negb (String.eqb (Store.userId b) userId) && _) eqn:Eforbid;
      [discriminate |].
    destruct (getStationCoordinates env _) as [sc |]; [| discriminate].
    destruct (calculateETA env l sc) as [e |]; [| discriminate].
    intros [= <- <-]. exists b, l, e, userId.
    change (b_id (set_location_eta b (Some l) (Some e))) with (b_id b).
    repeat split; auto.
    + apply (storedBooking_save db b); [exact Hstored | reflexivity].
    + apply andb_false_iff in Eforbid. destruct Eforbid as [E | E].
      * left. apply negb_false_iff in E. now apply String.eqb_eq.
      * right. destruct (User_findOne db userId) as [u |]; [| discriminate].
        apply negb_false_iff in E. exact E.
  - intros b l userId Hp Hl Hf Hneq Hadm. rewrite Hp, Hl, Hf.
    apply String.eqb_neq in Hneq. rewrite Hneq. simpl negb.
    destruct (User_findOne db userId) as [u |]; [| reflexivity].
    rewrite Hadm. reflexivity.
Qed.

(** The statement of X19 for user_2 and a booking of user_1. *)
Lemma refresh_eta_effect_witness :
  RefreshEta.POST (Scenario.env_at (Some "user_2"%string) 0)
    Scenario.bookingAHex (Some {| lat := 27; lng := 85 |}) Scenario.db0
  = (json (Error "Forbidden") 403, Scenario.db0).
Proof.
  apply (proj2 (refresh_eta_effect (Scenario.env_at (Some "user_2"%string) 0)
                  Scenario.bookingAHex (Some {| lat := 27; lng := 85 |})
                  Scenario.db0) Scenario.bookingA {| lat := 27; lng := 85 |}
           "user_2"%string);
    try reflexivity.
  discriminate.
Defined.

End AdminAndEtaFacts.

(** ** Check-in twice, amounts, and what verification touches *)

Section SequenceFacts.
Import JS Store Env.
Local Open Scope string_scope.

(** Two searches that stop at the same element still agree after that
    element has been updated, when the update keeps the first test. *)
Lemma find_update_first_other {A : Type} (t t' : A -> bool) (g : A -> A)
    (l : list A) (x : A) :
  find t l = Some x -> find t' l = Some x -> t (g x) = true ->
  find t (update_first t' g l) = Some (g x).
Proof.
  induction l as [| y l IH]; simpl; [discriminate |].
  destruct (t' y) eqn:Et'.
  - intros _ [= ->] Hg. simpl. now rewrite Hg.
  - intros Ht Ht' Hg. destruct (t y) eqn:Et.
    + injection Ht as ->. apply find_some in Ht'. destruct Ht' as [_ Ht'].
      congruence.
    + simpl. rewrite Et. now apply IH.
Qed.

Lemma find_same_first {A : Type} (t t' : A -> bool) (l : list A) (x y : A) :
  find t l = Some x -> find t' l = Some y ->
  t y = true -> t' x = true -> x = y.
Proof.
  induction l as [| z l IH]; simpl; [discriminate |].
  destruct (t z) eqn:Et, (t' z) eqn:Et'.
  - congruence.
  - intros [= ->] _ _ Hx. congruence.
  - intros _ [= ->] Hy _. congruence.
  - apply IH.
Qed.

(** X20. After an accepted check-in on a port, the same check-in request is
    refused with 409 and changes nothing: the port is now occupied. *)
Theorem checkin_twice_refused
    (env1 env2 : Env) (req : WalkInCheckin.Request) (db : DB)
    (station : Station) (port : ChargingPort) (cn cp h : string) :
  WalkInCheckin.locate env1 req db = inr (station, port, cn, cp) ->
  p_status port = available ->
  p_id port = Some h ->
  selectedPort db (s_id station) (ByPortId h) = Some port ->
  WalkInCheckin.POST env2 req (snd (WalkInCheckin.POST env1 req db))
  = (json (Error "Port is currently occupied. Please choose another port or wait.") 409,
     snd (WalkInCheckin.POST env1 req db)).
Proof.
  intros Hl Hav Hid Hsel.
  unfold WalkInCheckin.POST at 2 3. rewrite Hl, Hav. simpl negb. cbv iota zeta.
  simpl snd. unfold WalkInCheckin.markOccupied. rewrite Hid.
  set (b := WalkInCheckin.newBooking env1 req station port cn cp).
  set (upd := fun p : ChargingPort => set_port p occupied (Some (b_id b))).
  set (db1 := Station_updateOne (Booking_create db b) (s_id station)
                (ByPortId h) upd).
  revert Hl. unfold WalkInCheckin.POST, WalkInCheckin.locate.
  destruct (present (WalkInCheckin.req_stationId req)) as [sid |];
    [| discriminate].
  destruct (present (WalkInCheckin.req_portId req)) as [pid |];
    [| discriminate].
  destruct (present (WalkInCheckin.req_customerName req)); [| discriminate].
  destruct (present (WalkInCheckin.req_customerPhone req)); [| discriminate].
  unfold Station_findById.
  destruct (castObjectId (Str sid)) as [h0 |]; [| discriminate].
  destruct (find (fun s => String.eqb (s_id s) h0) (Stations db))
    as [st |] eqn:Est; [| discriminate].
  destruct (WalkInCheckin.findPort st pid) as [p |] eqn:Ep; [| discriminate].
  intros [= -> -> -> ->].
  unfold selectedPort in Hsel.
  destruct (find (station_matches (s_id station) (ByPortId h)) (Stations db))
    as [s0 |] eqn:Es0; [| discriminate].
  assert (Hport : port_matches (ByPortId h) port = true)
    by (simpl; rewrite Hid; apply String.eqb_refl).
  assert (Hsame : station = s0).
  { apply (find_same_first _ _ _ _ _ Est Es0).
    - apply find_some in Es0. destruct Es0 as [_ Es0].
      unfold station_matches in Es0. apply andb_true_iff in Es0.
      destruct Es0 as [Es0 _]. apply String.eqb_eq in Es0.
      apply find_some in Est. destruct Est as [_ Est].
      apply String.eqb_eq in Est. apply String.eqb_eq. congruence.
    - unfold station_matches. rewrite String.eqb_refl. simpl.
      apply existsb_exists. exists port. split; [| exact Hport].
      unfold WalkInCheckin.findPort in Ep. apply find_some in Ep. tauto. }
  subst s0.
  assert (Hst1 :
    find (fun s => String.eqb (s_id s) h0) (Stations db1)
    = Some (set_chargingPorts station
              (update_first (port_matches (ByPortId h)) upd
                 (chargingPorts station)))).
  { subst db1. simpl.
    apply (find_update_first_other _ _
             (fun s => set_chargingPorts s
                         (update_first (port_matches (ByPortId h)) upd
                            (chargingPorts s))) _ station Est Es0).
    simpl. apply find_some in Est. tauto. }
  rewrite Hst1.
  assert (Hp1 :
    WalkInCheckin.findPort
      (set_chargingPorts station
         (update_first (port_matches (ByPortId h)) upd (chargingPorts station)))
      pid = Some (upd port)).
  { unfold WalkInCheckin.findPort in *. simpl.
    apply (find_update_first_other _ _ upd _ port Ep Hsel).
    apply find_some in Ep. destruct Ep as [_ Ep]. exact Ep. }
  rewrite Hp1. reflexivity.
Qed.

(** The statement of X20 on the example store. *)
Lemma checkin_twice_refused_witness :
  code (fst (WalkInCheckin.POST (Scenario.env_at None 2000)
               (Scenario.checkin (NumberField 60))
               (snd (WalkInCheckin.POST (Scenario.env_at None 1000)
                       (Scenario.checkin (NumberField 60)) Scenario.db0))))
  = 409%Z.
Proof.
  rewrite (checkin_twice_refused (Scenario.env_at None 1000)
             (Scenario.env_at None 2000) (Scenario.checkin (NumberField 60))
             Scenario.db0 Scenario.station Scenario.port1 "Asha" "9800000000"
             Scenario.portHex eq_refl eq_refl eq_refl eq_refl).
  reflexivity.
Defined.

Lemma Math_round_inject_Z (n : Z) : Math_round (inject_Z n) = n.
Proof.
  unfold Math_round, Qfloor, Qplus, inject_Z. simpl.
  symmetry. apply (Z.div_unique _ _ _ 1); lia.
Qed.

Lemma In_update_first_const {A : Type} (t : A -> bool) (y : A) (l : list A) :
  existsb t l = true -> In y (update_first t (fun _ => y) l).
Proof.
  induction l as [| x l IH]; simpl; [discriminate |].
  destruct (t x); simpl; auto.
Qed.

(** X21. The amount in rupees is [Math.round(rate * (minutes / 60))] and
    the amount in paisa [Math.round(rupees * 100)], both computed in
    binary64 arithmetic.  For a finite rate between 0 and 10^9 and a
    duration between 0 and 10^6 minutes, the rupees are a whole number that
    is not negative and is the exactly rounded charge or next to it, and
    the paisa are exactly 100 times the rupees.  When the gateway accepts,
    it was sent the amount in paisa, the handler reports the amount in
    rupees, and the stored booking carries the payment reference, that
    amount and a QR code, and is still pending. *)
Theorem initiate_amounts
    (env : Env) (req : PaymentsInitiate.Request) (db db1 : DB)
    (c : PaymentsInitiate.Checked) :
  PaymentsInitiate.checks env req db = (inr c, db1) ->
  let d := PaymentsInitiate.c_durationMinutes c in
  let rate := PaymentsInitiate.perHourNPR (PaymentsInitiate.c_station c) in
  PaymentsInitiate.c_totalAmountNPR c
  = Math_round_number (fmul rate (fdiv (Num d) (Num 60))) /\
  PaymentsInitiate.c_totalAmountPaisa c
  = Math_round_number (fmul (PaymentsInitiate.c_totalAmountNPR c) (Num 100)) /\
  (forall r : Q,
      rate = Num r -> 0 <= r -> r <= 1000000000 ->
      0 <= d -> d <= 1000000 ->
      exists a : Z,
        PaymentsInitiate.c_totalAmountNPR c = Num (inject_Z a) /\
        (0 <= a)%Z /\
        (Z.abs (a - Math_round (d / 60 * r)) <= 1)%Z /\
        PaymentsInitiate.c_totalAmountPaisa c = Num (inject_Z (100 * a))) /\
  (forall res,
      find (PaymentsInitiate.overlaps (PaymentsInitiate.c_stationId c)
              (PaymentsInitiate.c_canonical c) (PaymentsInitiate.c_start c)
              (PaymentsInitiate.c_end c)) (Bookings db) = None ->
      khaltiInitiate env
        (PaymentsInitiate.khaltiRequest env c (newObjectId env))
      = Returned res ->
      amount (PaymentsInitiate.khaltiRequest env c (newObjectId env))
      = PaymentsInitiate.c_totalAmountPaisa c /\
      fst (PaymentsInitiate.POST env req db)
      = json (Initiated (newObjectId env) (payment_url res) (pidx res)
                (PaymentsInitiate.c_totalAmountNPR c)) 200 /\
      exists b,
        In b (Bookings (snd (PaymentsInitiate.POST env req db))) /\
        b_id b = newObjectId env /\
        khaltiPidx b = Some (pidx res) /\
        amountPaid b = PaymentsInitiate.c_totalAmountNPR c /\
        status b = pending /\
        qrCode b <> None).
Proof.
  intros Hc d rate.
  destruct (checks_passed _ _ _ _ _ Hc)
    as (_ & _ & _ & _ & _ & _ & _ & _ & Hnpr & Hpaisa).
  fold d in Hnpr. fold rate in Hnpr.
  split; [exact Hnpr | split; [exact Hpaisa | split]].
  - intros r Hr R0 R1 D0 D1.
    assert (E50 : pow2 50 == 1125899906842624) by reflexivity.
    assert (Bq : d / 60 <= 16667).
    { apply Qle_shift_div_r; [reflexivity | Lqa.lra]. }
    assert (Bq0 : 0 <= d / 60).
    { apply Qle_shift_div_l; [reflexivity | Lqa.lra]. }
    assert (Bx : d / 60 * r <= 16667000000000).
    { apply Qle_trans with (16667 * r); [| Lqa.lra].
      apply Qmult_le_compat_r; assumption. }
    destruct (charge_amount d 60 r) as [_ (a & Ha & Ha0 & Ha1)];
      try Lqa.lra; try (rewrite E50; Lqa.lra).
    exists a. rewrite Hpaisa, Hnpr, Hr, Ha.
    split; [reflexivity | split; [exact Ha0 | split; [exact Ha1 |]]].
    assert (Hm : (Math_round (d / 60 * r) <= 16667000000000)%Z).
    { rewrite <- (Math_round_inject_Z 16667000000000).
      unfold Math_round. apply Qfloor_resp_le.
      apply Qplus_le_l. exact Bx. }
    unfold fmul.
    rewrite (binary64_exact (inject_Z a * 100) (100 * a));
      [| rewrite inject_Z_mult; ring | lia].
    unfold Math_round_number. now rewrite Math_round_inject_Z.
  - intros res Hfree Hok.
    destruct (checks_collections _ _ _ _ _ Hc) as [HB _].
    split; [reflexivity |].
    unfold PaymentsInitiate.POST. rewrite Hc.
    unfold PaymentsInitiate.transaction. rewrite HB, Hfree.
    unfold PaymentsInitiate.afterCommit.
    match goal with
    | |- context [khaltiInitiate env (PaymentsInitiate.khaltiRequest env c ?i)] =>
        replace i with (newObjectId env) by (repeat split_match; reflexivity)
    end.
    rewrite Hok. simpl fst. simpl snd. split.
    + f_equal. f_equal. repeat split_match; reflexivity.
    + eexists. split.
      * simpl. apply In_update_first_const.
        rewrite existsb_app. apply orb_true_iff. right. simpl.
        rewrite orb_false_r. apply String.eqb_eq.
        repeat split_match; reflexivity.
      * repeat split; try (repeat split_match; reflexivity).
        simpl. discriminate.
Qed.

(** The statement of X21 on the example store: 60 minutes at 200 per hour
    are 200 rupees and 20000 paisa. *)
Lemma initiate_amounts_witness :
  let env := Scenario.env_of (Some "user_2") (Some "key") 0 Scenario.khaltiOk
               (Returned "Completed") in
  fst (PaymentsInitiate.POST env (Scenario.slot 39600000) Scenario.db0)
  = json (Initiated Scenario.freshHex "https://pay.example/pidx_1" "pidx_1"
            (Num 200)) 200 /\
  exists c db1,
    PaymentsInitiate.checks env (Scenario.slot 39600000) Scenario.db0
    = (inr c, db1) /\
    PaymentsInitiate.c_totalAmountPaisa c = Num 20000.
Proof.
  intros env.
  eassert (Hc : PaymentsInitiate.checks env (Scenario.slot 39600000)
                  Scenario.db0 = (inr _, _)) by (vm_compute; reflexivity).
  pose proof (initiate_amounts env (Scenario.slot 39600000) Scenario.db0 _ _
                Hc) as H.
  cbv zeta in H. destruct H as (_ & _ & Hacc & H).
  split.
  - destruct (H {| pidx := "pidx_1";
                   payment_url := "https://pay.example/pidx_1" |})
      as (_ & Hresp & _);
      [vm_compute; reflexivity | vm_compute; reflexivity |].
    rewrite Hresp. vm_compute. reflexivity.
  - eexists _, _. split; [exact Hc |].
    destruct (Hacc 200) as (a & Ha & _ & _ & Hp);
      [vm_compute; reflexivity | discriminate | discriminate
      | vm_compute; discriminate | vm_compute; discriminate |].
    rewrite Hp. vm_compute in Ha. injection Ha as Ha.
    subst a. reflexivity.
Defined.

Lemma find_update_first_ne (h k : string) (b : Booking) (l : list Booking) :
  h <> k -> b_id b = k ->
  find (fun x => String.eqb (b_id x) h)
       (update_first (fun x => String.eqb (b_id x) k) (fun _ => b) l)
  = find (fun x => String.eqb (b_id x) h) l.
Proof.
  intros Hne Hb. induction l as [| y l IH]; simpl; [reflexivity |].
  destruct (String.eqb (b_id y) k) eqn:Ek; simpl.
  - apply String.eqb_eq in Ek.
    assert (E1 : String.eqb (b_id b) h = false)
      by (apply String.eqb_neq; congruence).
    assert (E2 : String.eqb (b_id y) h = false)
      by (apply String.eqb_neq; congruence).
    now rewrite E1, E2.
  - now rewrite IH.
Qed.

(** X22. A verification touches no booking but the one it verifies, no
    user, and no station unless it handles a "Completed" payment of a
    booking that is not yet confirmed, active or completed. *)
Theorem verify_touches_one_booking
    (env : Env) (req : PaymentsVerify.Request) (db : DB) (s : string)
    (booking : Booking) :
  PaymentsVerify.checks env req db = inr (s, booking) ->
  (forall h, h <> b_id booking ->
             storedBooking (snd (PaymentsVerify.POST env req db)) h
             = storedBooking db h) /\
  List.length (Bookings (snd (PaymentsVerify.POST env req db)))
  = List.length (Bookings db) /\
  Users (snd (PaymentsVerify.POST env req db)) = Users db /\
  (s <> "Completed" ->
   Stations (snd (PaymentsVerify.POST env req db)) = Stations db) /\
  (includes [confirmed; active; completed] (status booking) = true ->
   Stations (snd (PaymentsVerify.POST env req db)) = Stations db).
Proof.
  intros Hc. unfold PaymentsVerify.POST. rewrite Hc.
  unfold PaymentsVerify.confirmBooking, PaymentsVerify.cancelBooking.
  split; [| split; [| split; [| split]]].
  - intros h Hne. unfold storedBooking.
    repeat split_match; simpl; try reflexivity;
      now apply find_update_first_ne.
  - repeat split_match; simpl; try reflexivity; apply length_update_first.
  - repeat split_match; reflexivity.
  - intros Hs. apply String.eqb_neq in Hs. rewrite Hs.
    repeat split_match; reflexivity.
  - intros ->. reflexivity.
Qed.

(** The statement of X22 on the example store: verifying bookingP leaves
    bookingA as it is. *)
Lemma verify_touches_one_booking_witness :
  storedBooking
    (snd (PaymentsVerify.POST
            (Scenario.env_of (Some "user_1") (Some "key") 0 Scenario.khaltiOk
               (Returned "Completed")) Scenario.verifyP Scenario.dbP))
    Scenario.bookingAHex
  = Some Scenario.bookingA.
Proof.
  destruct (verify_touches_one_booking
              (Scenario.env_of (Some "user_1") (Some "key") 0
                 Scenario.khaltiOk (Returned "Completed"))
              Scenario.verifyP Scenario.dbP "Completed" Scenario.bookingP
              eq_refl) as (H & _).
  rewrite H; [reflexivity | discriminate].
Defined.

End SequenceFacts.

(** ** Port status by the admin, and the record of a past session *)

Section PortAndLogFacts.
Import JS Store Env.
Local Open Scope string_scope.

Lemma update_first_idem {A : Type} (t : A -> bool) (f : A -> A) (l : list A) :
  (forall x, t (f x) = t x) -> (forall x, f (f x) = f x) ->
  update_first t f (update_first t f l) = update_first t f l.
Proof.
  intros Ht Hf. induction l as [| x l IH]; simpl; [reflexivity |].
  destruct (t x) eqn:E; simpl.
  - now rewrite Ht, E, Hf.
  - now rewrite E, IH.
Qed.

Lemma update_first_const_idem {A : Type} (t : A -> bool) (y : A) (l : list A) :
  t y = true ->
  update_first t (fun _ => y) (update_first t (fun _ => y) l)
  = update_first t (fun _ => y) l.
Proof.
  intros Hy. induction l as [| x l IH]; simpl; [reflexivity |].
  destruct (t x) eqn:E; simpl.
  - now rewrite Hy.
  - now rewrite E, IH.
Qed.

Lemma existsb_update_first {A : Type} (t : A -> bool) (f : A -> A)
    (l : list A) :
  (forall x, t (f x) = t x) ->
  existsb t (update_first t f l) = existsb t l.
Proof.
  intros Ht. induction l as [| x l IH]; simpl; [reflexivity |].
  destruct (t x) eqn:E; simpl.
  - now rewrite Ht, E.
  - now rewrite E, IH.
Qed.

Lemma setStatus_idem (s : PortStatus) (p : ChargingPort) :
  AdminStationPorts.setStatus s (AdminStationPorts.setStatus s p)
  = AdminStationPorts.setStatus s p.
Proof.
  unfold AdminStationPorts.setStatus, set_port. simpl.
  now destruct (PortStatus_eqb s available).
Qed.

Lemma find_existsb_some {A : Type} (t : A -> bool) (l : list A) :
  existsb t l = true -> exists x, find t l = Some x.
Proof.
  induction l as [| y l IH]; simpl; [discriminate |].
  destruct (t y); [eauto | exact IH].
Qed.

(** X23. An accepted change of a port's status leaves bookings and users
    alone, sets exactly the first port that the request names to the
    requested status, and clears its current booking exactly when the new
    status is "available"; the other ports keep their number and order.
    Repeating the request gives the same answer and the same store. *)
Theorem port_patch_effect
    (env : Env) (id : string) (req : AdminStationPorts.Request) (db db' : DB)
    (st' : Station) :
  AdminStationPorts.PATCH env id req db = (json (StationBody st') 200, db') ->
  Bookings db' = Bookings db /\ Users db' = Users db /\
  AdminStationPorts.PATCH env id req db' = (json (StationBody st') 200, db') /\
  exists portId s station p,
    present (AdminStationPorts.req_portId req) = Some portId /\
    option_map AdminStationPorts.PortStatus_of
      (present (AdminStationPorts.req_status req)) = Some (Some s) /\
    Station_findById db id = Returned (Some station) /\
    Station_findById db' id = Returned (Some st') /\
    find (AdminStationPorts.isPort portId) (chargingPorts station) = Some p /\
    find (AdminStationPorts.isPort portId) (chargingPorts st')
    = Some (AdminStationPorts.setStatus s p) /\
    p_status (AdminStationPorts.setStatus s p) = s /\
    currentBookingId (AdminStationPorts.setStatus s p)
    = (if PortStatus_eqb s available then None else currentBookingId p) /\
    List.length (chargingPorts st') = List.length (chargingPorts station).
Proof.
  unfold AdminStationPorts.PATCH.
  destruct (present (auth_userId env)) as [userId |] eqn:Ha;
    [| intros [=]].
  destruct (User_findOne db userId) as [user |] eqn:Hu; [| intros [=]].
  destruct (negb (AdminWalkIn.is_admin_or_superadmin user)) eqn:Hr;
    [intros [=] |].
  destruct (Station_findById db id) as [[station |] | e] eqn:Hs;
    [| intros [=] | intros [=]].
  destruct (match role user with role_superadmin => false | _ => true end
            && AdminWalkIn.not_owner station userId) eqn:Ho; [intros [=] |].
  destruct (present (AdminStationPorts.req_portId req)) as [portId |] eqn:Hp;
    [| intros [=]].
  destruct (present (AdminStationPorts.req_status req)) as [status_ |] eqn:Hst;
    [| intros [=]].
  destruct (AdminStationPorts.PortStatus_of status_) as [s |] eqn:Hps;
    [| intros [=]].
  destruct (existsb (AdminStationPorts.isPort portId) (chargingPorts station))
    eqn:Hex; [| intros [=]].
  intros [= <- <-].
  set (ports' := update_first (AdminStationPorts.isPort portId)
                   (AdminStationPorts.setStatus s) (chargingPorts station)).
  set (st' := set_chargingPorts station ports').
  assert (Hkeep : forall x,
             AdminStationPorts.isPort portId (AdminStationPorts.setStatus s x)
             = AdminStationPorts.isPort portId x) by reflexivity.
  assert (Hfind' : Station_findById
                     (AdminStationPorts.Station_save db st') id
                   = Returned (Some st')).
  { revert Hs. unfold Station_findById.
    destruct (castObjectId (Str id)) as [h |]; [| discriminate].
    intros [= Hs]. f_equal.
    unfold AdminStationPorts.Station_save. simpl Stations.
    change (s_id st') with (s_id station).
    pose proof (find_some _ _ Hs) as [_ Hh]. apply String.eqb_eq in Hh.
    rewrite Hh.
    apply (find_update_first _ (fun _ => st') _ station Hs).
    apply String.eqb_eq. exact Hh. }
  split; [reflexivity | split; [reflexivity | split]].
  - change (User_findOne (AdminStationPorts.Station_save db st') userId)
      with (User_findOne db userId).
    rewrite Hu, Hr, Hfind'.
    change (AdminWalkIn.not_owner st' userId)
      with (AdminWalkIn.not_owner station userId).
    rewrite Ho. cbv beta iota.
    change (chargingPorts st') with ports'. unfold ports' at 1.
    rewrite (existsb_update_first _ _ _ Hkeep), Hex.
    unfold ports' at 1 2.
    rewrite (update_first_idem _ _ _ Hkeep (setStatus_idem s)).
    fold ports'.
    change (set_chargingPorts st' ports') with st'.
    f_equal. unfold AdminStationPorts.Station_save at 1.
    unfold AdminStationPorts.Station_save. simpl Stations.
    rewrite update_first_const_idem; [reflexivity | apply String.eqb_refl].
  - destruct (find_existsb_some _ _ Hex) as [p Hfp].
    exists portId, s, station, p.
    split; [reflexivity |]. split; [simpl; now rewrite Hps |].
    split; [reflexivity |]. split; [exact Hfind' |].
    split; [exact Hfp |]. split; [| split; [reflexivity | split]].
    + simpl. apply (find_update_first _ _ _ _ Hfp).
      rewrite Hkeep. apply find_some in Hfp. tauto.
    + reflexivity.
    + simpl. apply length_update_first.
Qed.

(** The statement of X23 on the example store: the owner sets port P1 to
    maintenance; doing it again changes nothing more. *)
Lemma port_patch_effect_witness :
  AdminStationPorts.PATCH (Scenario.env_at (Some "admin_1") 0)
    Scenario.stationHex (Scenario.patch "maintenance")
    (snd (AdminStationPorts.PATCH (Scenario.env_at (Some "admin_1") 0)
            Scenario.stationHex (Scenario.patch "maintenance") Scenario.db0))
  = AdminStationPorts.PATCH (Scenario.env_at (Some "admin_1") 0)
      Scenario.stationHex (Scenario.patch "maintenance") Scenario.db0.
Proof.
  epose proof (port_patch_effect (Scenario.env_at (Some "admin_1") 0)
                 Scenario.stationHex (Scenario.patch "maintenance")
                 Scenario.db0 _ _ eq_refl) as (_ & _ & H & _).
  exact H.
Defined.







End PortAndLogFacts.

(** ** Repeated admin actions *)

Section RepeatedActions.
Import JS Store Env AdminWalkIn.
Local Open Scope string_scope.

Lemma find_update_first_keeps {A : Type} (t t' : A -> bool) (g : A -> A)
    (l : list A) (x : A) :
  (forall y, t (g y) = t y) -> find t l = Some x ->
  find t (update_first t' g l) = Some x \/
  find t (update_first t' g l) = Some (g x).
Proof.
  intros Hg. induction l as [| a l IH]; simpl; [discriminate |].
  destruct (t' a) eqn:Et', (t a) eqn:Et; simpl; rewrite ?Hg, ?Et.
  - intros [= ->]. now right.
  - intros H. now left.
  - intros [= ->]. now left.
  - exact IH.
Qed.

Lemma find_app_last {A : Type} (t : A -> bool) (l : list A) (x : A) :
  find t l = None -> t x = true -> find t (l ++ [x])%list = Some x.
Proof.
  induction l as [| a l IH]; simpl.
  - intros _ ->. reflexivity.
  - destruct (t a); [discriminate | exact IH].
Qed.

Lemma ident_eqb_refl (i : ident) : ident_eqb i i = true.
Proof. destruct i; simpl; apply String.eqb_refl. Qed.

Lemma matches_id_mixed (objId : option string) (s : string) :
  matches_id objId s (mixed objId s) = true.
Proof.
  unfold matches_id, mixed. destruct objId.
  - rewrite ident_eqb_refl. reflexivity.
  - apply ident_eqb_refl.
Qed.

Lemma authorize_same_users (env1 env2 : Env) (db db1 : DB) :
  auth_userId env2 = auth_userId env1 -> Users db1 = Users db ->
  authorize env2 db1 = authorize env1 db.
Proof.
  intros He HU. unfold authorize, User_findOne. now rewrite He, HU.
Qed.

(** X25. While a walk-in session started by the admin route is active, a
    second start for the same station and port is refused with 409 and
    changes nothing. *)
Theorem walkin_start_twice_refused
    (env1 env2 : Env) (req : Request) (db : DB) (user : User)
    (userId stationId portId : string) (station : Station) :
  authorize env1 db = inr (user, userId) ->
  auth_userId env2 = auth_userId env1 ->
  or_string (req_action req) "log" = "start" ->
  startChecks env1 req user userId db = inr (stationId, portId, station) ->
  find (activeWalkIn (toObjectId stationId) stationId (toObjectId portId)
          portId) (Bookings db) = None ->
  POST env2 req (snd (POST env1 req db))
  = (json (Error "This port already has an active walk-in session") 409,
     snd (POST env1 req db)).
Proof.
  intros Ha He Hact Hc Hfree.
  assert (H1 :
    Users (snd (POST env1 req db)) = Users db /\
    Bookings (snd (POST env1 req db))
    = (Bookings db ++ [startBooking env1 stationId portId])%list /\
    (Stations (snd (POST env1 req db)) = Stations db \/
     exists f g, (forall s, s_id (g s) = s_id s /\ adminId (g s) = adminId s) /\
                 Stations (snd (POST env1 req db))
                 = update_first f g (Stations db))).
  { unfold POST. rewrite Ha, Hact. simpl String.eqb. cbv iota.
    unfold start. rewrite Hc. cbv zeta. rewrite Hfree. simpl snd.
    repeat split_match; repeat split; try (now left).
    right. eexists _, _. split; [| reflexivity]. intros ?. now split. }
  destruct H1 as (HU & HB & HS).
  set (db1 := snd (POST env1 req db)) in *. clearbody db1.
  unfold POST. rewrite (authorize_same_users _ _ _ _ He HU), Ha, Hact.
  simpl String.eqb. cbv iota. unfold start.
  assert (Hc1 : exists station1,
             startChecks env2 req user userId db1
             = inr (stationId, portId, station1)).
  { revert Hc. unfold startChecks.
    destruct (present (req_stationId req)) as [sid |]; [| discriminate].
    destruct (present (req_portId req)) as [pid |]; [| discriminate].
    unfold findStation. destruct (toObjectId sid) as [h |]; [| discriminate].
    destruct (find (fun s => String.eqb (s_id s) h) (Stations db))
      as [st |] eqn:Est; [| discriminate].
    destruct (is_admin user && not_owner st userId) eqn:Ho; [discriminate |].
    intros [= -> -> ->].
    destruct HS as [-> | (f & g & Hg & ->)].
    - rewrite Est, Ho. eauto.
    - destruct (find_update_first_keeps (fun s => String.eqb (s_id s) h) f g
                  _ _ (fun y => f_equal (fun i => String.eqb i h)
                                  (proj1 (Hg y))) Est) as [-> | ->].
      + rewrite Ho. eauto.
      + unfold not_owner in *. rewrite (proj2 (Hg station)), Ho. eauto. }
  destruct Hc1 as [station1 ->]. cbv zeta. rewrite HB.
  rewrite (find_app_last _ _ _ Hfree); [reflexivity |].
  unfold activeWalkIn, startBooking. simpl.
  now rewrite !matches_id_mixed.
Qed.

(** The statement of X25 on the example store. *)
Lemma walkin_start_twice_refused_witness :
  code (fst (AdminWalkIn.POST (Scenario.env_at (Some "admin_1") 5000)
               (Scenario.walkin "start" (Some Scenario.portHex) None)
               (Scenario.dbStarted Scenario.portHex 1000)))
  = 409%Z.
Proof.
  unfold Scenario.dbStarted.
  rewrite (walkin_start_twice_refused
             (Scenario.with_newObjectId
                (Scenario.env_at (Some "admin_1") 1000) Scenario.walkinHex)
             (Scenario.env_at (Some "admin_1") 5000)
             (Scenario.walkin "start" (Some Scenario.portHex) None)
             Scenario.db0 Scenario.owner "admin_1" Scenario.stationHex
             Scenario.portHex Scenario.station
             eq_refl eq_refl eq_refl eq_refl eq_refl).
  reflexivity.
Defined.

(** X26. A walk-in session can be stopped once: after an accepted stop the
    same request is answered 404 and changes nothing, because the booking
    is no longer active. *)
Theorem walkin_stop_twice_refused
    (env1 env2 : Env) (req : Request) (db : DB) (user : User)
    (userId : string) (booking : Booking) :
  authorize env1 db = inr (user, userId) ->
  auth_userId env2 = auth_userId env1 ->
  or_string (req_action req) "log" = "stop" ->
  stopChecks env1 req user userId db = inr booking ->
  POST env2 req (snd (POST env1 req db))
  = (json (Error "Active walk-in session not found") 404,
     snd (POST env1 req db)).
Proof.
  intros Ha He Hact Hc.
  assert (H1 : exists b',
    b_id b' = b_id booking /\ status b' = completed /\
    Users (snd (POST env1 req db)) = Users db /\
    Bookings (snd (POST env1 req db)) = Bookings (Booking_save db b')).
  { unfold POST. rewrite Ha, Hact. simpl String.eqb. cbv iota.
    unfold stop. rewrite Hc. cbv zeta. simpl snd.
    exists (set_completed booking (now env1)
              (inject_Z (durationMins (now env1 - startTime booking)))
              (amount (now env1 - startTime booking)
                 (findStation db
                    (toObjectId (toString (stationId booking)))))).
    split; [reflexivity | split; [reflexivity |]].
    repeat split_match; split; reflexivity. }
  destruct H1 as (b' & Hid & Hst & HU & HB).
  set (db1 := snd (POST env1 req db)) in *. clearbody db1.
  unfold POST. rewrite (authorize_same_users _ _ _ _ He HU), Ha, Hact.
  simpl String.eqb. cbv iota. unfold stop.
  assert (Hc1 : stopChecks env2 req user userId db1
                = inl (json (Error "Active walk-in session not found") 404)).
  { destruct (stopChecks_stored _ _ _ _ _ _ Hc) as [Hs _].
    revert Hc. unfold stopChecks.
    destruct (present (req_bookingId req)) as [id |]; [| discriminate].
    unfold Booking_findById.
    destruct (castObjectId (Str id)) as [h |]; [| discriminate].
    destruct (storedBooking db h) as [b |] eqn:Es; [| discriminate].
    destruct (negb (BookingStatus_eqb (status b) active)); [discriminate |].
    split_match; [discriminate |]. intros [= ->].
    pose proof (storedBooking_id _ _ _ Es) as Hh.
    assert (Hs1 : storedBooking db1 h = Some b').
    { unfold storedBooking. rewrite HB.
      change (storedBooking (Booking_save db b') h = Some b').
      rewrite <- Hh. now apply storedBooking_save. }
    rewrite Hs1, Hst. reflexivity. }
  now rewrite Hc1.
Qed.

(** The statement of X26 on the example store. *)
Lemma walkin_stop_twice_refused_witness :
  code (fst (AdminWalkIn.POST (fst (Scenario.stopAt 9000))
               (snd (Scenario.stopAt 9000))
               (snd (AdminWalkIn.POST (fst (Scenario.stopAt 7000))
                       (snd (Scenario.stopAt 7000))
                       (Scenario.dbStarted Scenario.portHex 1000)))))
  = 404%Z.
Proof.
  epose proof (walkin_stop_twice_refused
                 (fst (Scenario.stopAt 7000)) (fst (Scenario.stopAt 9000))
                 (snd (Scenario.stopAt 7000))
                 (Scenario.dbStarted Scenario.portHex 1000)
                 Scenario.owner "admin_1" _
                 eq_refl eq_refl eq_refl eq_refl) as H.
  simpl snd in *. rewrite H. reflexivity.
Defined.

End RepeatedActions.
